(** * kernel_driver_debug_tui: probes, session state, command handler

    A shallow embedding of the three C sources of the repository

      - [kernel_debugger.bpf.c]                 (module [Probe])
      - [bpf_templates/enhanced_bpf_template.c] (module [Enhanced])
      - [kernel_debugger_tui.c]                 (module [Tui])

    and the properties of the specification checked against them.

    Conventions.  C integers are [Z]; a w-bit unsigned value is kept in
    range with [wrap w], a signed one with [swrap w].  A [char] is an
    [ascii] and NUL is [Ascii.zero].  An array is a [list] indexed with
    stdpp's lookup and insert; a store outside the array is a [Fault]
    (stdpp's insert would silently do nothing there, C would corrupt
    memory).  A BPF helper or a libc/ncurses call whose result the code
    branches on is a field of an environment record. *)

From Stdlib Require Import ZArith List String Ascii Bool Lia.
From stdpp Require Import base list.
Import ListNotations.
Local Open Scope Z_scope.

(** ** Machine integers and results *)

Definition wrap (w x : Z) : Z := x mod 2 ^ w.

Definition swrap (w x : Z) : Z := (x + 2 ^ (w - 1)) mod 2 ^ w - 2 ^ (w - 1).

Definition u8 := wrap 8.
Definition u32 := wrap 32.
Definition u64 := wrap 64.
Definition int32 := swrap 32.

(** The result of running a piece of C: a value, a memory fault (store
    outside an array), or a loop that used up its fuel. *)
Inductive outcome (A : Type) : Type :=
| Done (a : A)
| Fault
| OutOfFuel.
Arguments Done {A} a.
Arguments Fault {A}.
Arguments OutOfFuel {A}.

Definition obind {A B} (x : outcome A) (f : A -> outcome B) : outcome B :=
  match x with
  | Done a => f a
  | Fault => Fault
  | OutOfFuel => OutOfFuel
  end.

(** [buf[i] = c] on an array of known size. *)
Definition store {A} (buf : list A) (i : nat) (c : A) : outcome (list A) :=
  if (i <? length buf)%nat then Done (<[i:=c]> buf) else Fault.

(** A [const char *]: [None] is the null pointer, [Some s] the bytes
    found at offsets 0, 1, 2, ... from the pointer. *)
Definition cptr := option (nat -> ascii).

(** The bytes of a string literal, followed by NUL. *)
Definition literal (s : string) : cptr :=
  Some (fun i => match String.get i s with Some c => c | None => Ascii.zero end).

(** C's [strlen] on an array: the offset of the first NUL, if there is one. *)
Fixpoint c_strlen (buf : list ascii) : option nat :=
  match buf with
  | [] => None
  | c :: rest =>
      if Ascii.eqb c Ascii.zero then Some O
      else match c_strlen rest with
           | Some n => Some (S n)
           | None => None
           end
  end.

(** ** kernel_debugger.bpf.c *)

Module Probe.

Definition MAX_FUNCTION_NAME : Z := 64.

Inductive debug_event_type :=
| EVENT_FUNCTION_ENTRY
| EVENT_FUNCTION_EXIT
| EVENT_BREAKPOINT.

Definition event_code (t : debug_event_type) : Z :=
  match t with
  | EVENT_FUNCTION_ENTRY => 0
  | EVENT_FUNCTION_EXIT => 1
  | EVENT_BREAKPOINT => 2
  end.

Record debug_event := {
  timestamp : Z;
  pid : Z;
  tid : Z;
  cpu : Z;
  event_type : Z;
  function_name : list ascii;
  instruction_pointer : Z
}.

Record debugger_control := {
  debug_mode : Z;
  target_pid : Z;
  global_enable : Z
}.

(** What the BPF helpers return at one probe firing. *)
Record helpers := {
  control_map_lookup : option debugger_control; (* bpf_map_lookup_elem(&control_map, &key) *)
  current_pid_tgid : Z;                         (* bpf_get_current_pid_tgid() *)
  ktime_get_ns : Z;                             (* bpf_ktime_get_ns() *)
  smp_processor_id : Z                          (* bpf_get_smp_processor_id() *)
}.

(** What a probe can change: the records handed to
    [bpf_perf_event_output], oldest first. *)
Record world := { perf_events : list debug_event }.

Definition get_debugger_control (h : helpers) : option debugger_control :=
  control_map_lookup h.

Definition should_trace_process (h : helpers) (ctrl : option debugger_control) : Z :=
  match ctrl with
  | None => 0
  | Some c =>
      if u8 (global_enable c) =? 0 then 0
      else
        let current_pid := u32 (Z.shiftr (current_pid_tgid h) 32) in
        if (u32 (target_pid c) =? 0) || (u32 (target_pid c) =? current_pid)
        then 1 else 0
  end.

(** State of the copy loop: the index [i], the destination array, and the
    offsets of the source that have been read so far. *)
Record copy_state := {
  cp_i : nat;
  cp_dst : list ascii;
  cp_reads : list nat
}.

(** [for (i = 0; i < max_len - 1 && src && src[i]; i++) dst[i] = src[i];] *)
Fixpoint safe_strcpy_loop (fuel : nat) (src : cptr) (max_len : Z) (st : copy_state)
  : outcome copy_state :=
  match fuel with
  | O => OutOfFuel
  | S fuel' =>
      if negb (Z.of_nat (cp_i st) <? max_len - 1) then Done st
      else
        match src with
        | None => Done st
        | Some s =>
            let c := s (cp_i st) in
            let reads := cp_reads st ++ [cp_i st] in
            if Ascii.eqb c Ascii.zero
            then Done {| cp_i := cp_i st; cp_dst := cp_dst st; cp_reads := reads |}
            else
              obind (store (cp_dst st) (cp_i st) c) (fun dst' =>
                safe_strcpy_loop fuel' src max_len
                  {| cp_i := S (cp_i st); cp_dst := dst'; cp_reads := reads |})
        end
  end.

Definition safe_strcpy (dst : list ascii) (src : cptr) (max_len : Z) : outcome copy_state :=
  obind (safe_strcpy_loop (S (Z.to_nat (max_len - 1))) src max_len
           {| cp_i := O; cp_dst := dst; cp_reads := [] |})
        (fun st =>
           obind (store (cp_dst st) (cp_i st) Ascii.zero) (fun dst' =>
             Done {| cp_i := cp_i st; cp_dst := dst'; cp_reads := cp_reads st |})).

(** [struct debug_event event = {};] *)
Definition zero_event : debug_event :=
  {| timestamp := 0; pid := 0; tid := 0; cpu := 0; event_type := 0;
     function_name := replicate (Z.to_nat MAX_FUNCTION_NAME) Ascii.zero;
     instruction_pointer := 0 |}.

Definition build_event (h : helpers) (event_type : Z) (name : list ascii) : debug_event :=
  {| timestamp := u64 (ktime_get_ns h);
     pid := u32 (Z.shiftr (current_pid_tgid h) 32);
     tid := u32 (Z.land (current_pid_tgid h) 0xFFFFFFFF);
     cpu := u32 (smp_processor_id h);
     event_type := u8 event_type;
     function_name := name;
     instruction_pointer := 0 |}.

Definition perf_event_output (e : debug_event) (w : world) : world :=
  {| perf_events := perf_events w ++ [e] |}.

Definition send_debug_event (h : helpers) (event_type : Z) (func_name : cptr) (w : world)
  : outcome world :=
  let ctrl := get_debugger_control h in
  if should_trace_process h ctrl =? 0 then Done w
  else
    obind
      (match func_name with
       | Some _ =>
           obind (safe_strcpy (function_name zero_event) func_name MAX_FUNCTION_NAME)
                 (fun st => Done (cp_dst st))
       | None => Done (function_name zero_event)
       end)
      (fun name => Done (perf_event_output (build_event h event_type name) w)).

(** The six probes of the object file; each returns 0. *)
Definition generic_kprobe (h : helpers) (w : world) : outcome (world * Z) :=
  obind (send_debug_event h (event_code EVENT_FUNCTION_ENTRY) (literal "traced_function") w)
        (fun w' => Done (w', 0)).

Definition generic_kretprobe (h : helpers) (w : world) : outcome (world * Z) :=
  obind (send_debug_event h (event_code EVENT_FUNCTION_EXIT) (literal "traced_function") w)
        (fun w' => Done (w', 0)).

Definition trace_taco_sys_mmz_alloc_entry (h : helpers) (w : world) : outcome (world * Z) :=
  obind (send_debug_event h (event_code EVENT_FUNCTION_ENTRY) (literal "taco_sys_mmz_alloc") w)
        (fun w' => Done (w', 0)).

Definition trace_taco_sys_mmz_alloc_exit (h : helpers) (w : world) : outcome (world * Z) :=
  obind (send_debug_event h (event_code EVENT_FUNCTION_EXIT) (literal "taco_sys_mmz_alloc") w)
        (fun w' => Done (w', 0)).

Definition trace_kmalloc_entry (h : helpers) (w : world) : outcome (world * Z) :=
  obind (send_debug_event h (event_code EVENT_FUNCTION_ENTRY) (literal "__kmalloc") w)
        (fun w' => Done (w', 0)).

Definition trace_kmalloc_exit (h : helpers) (w : world) : outcome (world * Z) :=
  obind (send_debug_event h (event_code EVENT_FUNCTION_EXIT) (literal "__kmalloc") w)
        (fun w' => Done (w', 0)).

Inductive probe_id :=
| P_generic_kprobe
| P_generic_kretprobe
| P_mmz_alloc_entry
| P_mmz_alloc_exit
| P_kmalloc_entry
| P_kmalloc_exit.

Definition fire (p : probe_id) : helpers -> world -> outcome (world * Z) :=
  match p with
  | P_generic_kprobe => generic_kprobe
  | P_generic_kretprobe => generic_kretprobe
  | P_mmz_alloc_entry => trace_taco_sys_mmz_alloc_entry
  | P_mmz_alloc_exit => trace_taco_sys_mmz_alloc_exit
  | P_kmalloc_entry => trace_kmalloc_entry
  | P_kmalloc_exit => trace_kmalloc_exit
  end.

(** The process filter of the control record, as the specification words
    it: tracing is on and the target is every process or this one. *)
Definition tracing_on (c : debugger_control) : Prop := u8 (global_enable c) <> 0.

Definition current_pid (h : helpers) : Z := u32 (Z.shiftr (current_pid_tgid h) 32).

Definition filter_matches (h : helpers) (c : debugger_control) : Prop :=
  u32 (target_pid c) = 0 \/ u32 (target_pid c) = current_pid h.

(** Tracing is off, or a target process is set and it is not this one. *)
Definition filtered_out (h : helpers) (c : debugger_control) : Prop :=
  ~ tracing_on c \/ (u32 (target_pid c) <> 0 /\ u32 (target_pid c) <> current_pid h).

Definition empty_world : world := {| perf_events := [] |}.

End Probe.

(** ** bpf_templates/enhanced_bpf_template.c *)

Module Enhanced.

(** The trap context as the probe sees it.  The accessor macros of
    [bpf_tracing.h] are not part of the repository, so [pt_regs] is the
    record of what each accessor, applied to [ctx], returns. *)
Record pt_regs := {
  PT_REGS_IP : Z;
  PT_REGS_RC : Z;
  PT_REGS_SP : Z;
  PT_REGS_FP : Z;
  PT_REGS_PARM1 : Z;
  PT_REGS_PARM2 : Z;
  PT_REGS_PARM3 : Z;
  PT_REGS_PARM4 : Z;
  PT_REGS_PARM5 : Z;
  PT_REGS_PARM6 : Z
}.

(** The eighteen [u64] register members of [struct enhanced_debug_event]. *)
Inductive reg_field :=
| pc | ra | sp | gp | tp
| t0 | t1 | t2
| s0 | s1
| a0 | a1 | a2 | a3 | a4 | a5 | a6 | a7.

Definition reg_field_eqb (x y : reg_field) : bool :=
  match x, y with
  | pc, pc | ra, ra | sp, sp | gp, gp | tp, tp
  | t0, t0 | t1, t1 | t2, t2 | s0, s0 | s1, s1
  | a0, a0 | a1, a1 | a2, a2 | a3, a3 | a4, a4 | a5, a5 | a6, a6 | a7, a7 => true
  | _, _ => false
  end.

Definition all_regs : list reg_field :=
  [pc; ra; sp; gp; tp; t0; t1; t2; s0; s1; a0; a1; a2; a3; a4; a5; a6; a7].

(** A member of a record in ring-buffer memory: [None] until something is
    stored in it (the memory [bpf_ringbuf_reserve] hands out is not
    cleared), [Some v] afterwards. *)
Record enhanced_debug_event := {
  pid : option Z;
  tgid : option Z;
  timestamp : option Z;
  breakpoint_id : option Z;
  comm : list (option ascii);
  function : list (option ascii);
  regs : reg_field -> option Z;
  stack_data : list (option Z);
  local_vars : list (option Z)
}.

Definition set_pid v e :=
  {| pid := v; tgid := tgid e; timestamp := timestamp e; breakpoint_id := breakpoint_id e;
     comm := comm e; function := function e; regs := regs e;
     stack_data := stack_data e; local_vars := local_vars e |}.
Definition set_tgid v e :=
  {| pid := pid e; tgid := v; timestamp := timestamp e; breakpoint_id := breakpoint_id e;
     comm := comm e; function := function e; regs := regs e;
     stack_data := stack_data e; local_vars := local_vars e |}.
Definition set_timestamp v e :=
  {| pid := pid e; tgid := tgid e; timestamp := v; breakpoint_id := breakpoint_id e;
     comm := comm e; function := function e; regs := regs e;
     stack_data := stack_data e; local_vars := local_vars e |}.
Definition set_breakpoint_id v e :=
  {| pid := pid e; tgid := tgid e; timestamp := timestamp e; breakpoint_id := v;
     comm := comm e; function := function e; regs := regs e;
     stack_data := stack_data e; local_vars := local_vars e |}.
Definition set_comm v e :=
  {| pid := pid e; tgid := tgid e; timestamp := timestamp e; breakpoint_id := breakpoint_id e;
     comm := v; function := function e; regs := regs e;
     stack_data := stack_data e; local_vars := local_vars e |}.
Definition set_function v e :=
  {| pid := pid e; tgid := tgid e; timestamp := timestamp e; breakpoint_id := breakpoint_id e;
     comm := comm e; function := v; regs := regs e;
     stack_data := stack_data e; local_vars := local_vars e |}.
Definition set_reg (r : reg_field) (v : Z) e :=
  {| pid := pid e; tgid := tgid e; timestamp := timestamp e; breakpoint_id := breakpoint_id e;
     comm := comm e; function := function e;
     regs := fun r' => if reg_field_eqb r r' then Some v else regs e r';
     stack_data := stack_data e; local_vars := local_vars e |}.
Definition set_stack_data v e :=
  {| pid := pid e; tgid := tgid e; timestamp := timestamp e; breakpoint_id := breakpoint_id e;
     comm := comm e; function := function e; regs := regs e;
     stack_data := v; local_vars := local_vars e |}.
Definition set_local_vars v e :=
  {| pid := pid e; tgid := tgid e; timestamp := timestamp e; breakpoint_id := breakpoint_id e;
     comm := comm e; function := function e; regs := regs e;
     stack_data := stack_data e; local_vars := v |}.

(** The slot [bpf_ringbuf_reserve] returns: right sizes, nothing stored. *)
Definition reserved_slot : enhanced_debug_event :=
  {| pid := None; tgid := None; timestamp := None; breakpoint_id := None;
     comm := replicate 16 None; function := replicate 64 None;
     regs := fun _ => None;
     stack_data := replicate 8 None; local_vars := replicate 16 None |}.

(** [__builtin_memset] of the whole record with 0 *)
Definition memset_zero (e : enhanced_debug_event) : enhanced_debug_event :=
  {| pid := Some 0; tgid := Some 0; timestamp := Some 0; breakpoint_id := Some 0;
     comm := map (fun _ => Some Ascii.zero) (comm e);
     function := map (fun _ => Some Ascii.zero) (function e);
     regs := fun _ => Some 0;
     stack_data := map (fun _ => Some 0) (stack_data e);
     local_vars := map (fun _ => Some 0) (local_vars e) |}.

(** What the BPF helpers return at one probe firing. *)
Record helpers := {
  debug_control_lookup : option Z;   (* bpf_map_lookup_elem(&debug_control, &key): the u32 found *)
  ringbuf_reserve : bool;            (* does bpf_ringbuf_reserve hand out a slot *)
  current_pid_tgid : Z;              (* bpf_get_current_pid_tgid() *)
  ktime_get_ns : Z;                  (* bpf_ktime_get_ns() *)
  current_comm : list ascii;         (* the task name bpf_get_current_comm copies *)
  probe_read_str_ok : bool;          (* does bpf_probe_read_str succeed *)
  probe_read_user : Z -> option Z    (* the u64 at a user address, None when the read faults *)
}.

Inductive trace_line :=
| TL_enhanced_bp (pid pc sp : option Z)
| TL_args (a0 a1 a2 a3 : option Z)
| TL_return (pid ret : Z).

(** What a probe can change: the records submitted to the ring buffer
    [rb] and the lines written to the trace pipe, oldest first. *)
Record world := {
  ringbuf : list enhanced_debug_event;
  trace_pipe : list trace_line
}.

Definition ringbuf_submit (e : enhanced_debug_event) (w : world) : world :=
  {| ringbuf := ringbuf w ++ [e]; trace_pipe := trace_pipe w |}.

Definition printk (l : trace_line) (w : world) : world :=
  {| ringbuf := ringbuf w; trace_pipe := trace_pipe w ++ [l] |}.

(** [bpf_probe_read_user(&arr[i], sizeof(u64), addr)]: stores the value
    and returns 0, or returns an error and leaves [arr[i]] unspecified. *)
Definition probe_read_user_into (h : helpers) (arr : list (option Z)) (i : nat) (addr : Z)
  : outcome (list (option Z) * Z) :=
  match probe_read_user h addr with
  | Some v => obind (store arr i (Some (u64 v))) (fun arr' => Done (arr', 0))
  | None => obind (store arr i None) (fun arr' => Done (arr', -14))
  end.

(** [for (i = 0; i < count && i < 8; i++) ...] of [read_user_stack_data] *)
Fixpoint read_user_stack_data_loop (fuel : nat) (h : helpers) (sp_val : Z) (count : Z)
    (i : nat) (stack : list (option Z)) : outcome (list (option Z)) :=
  match fuel with
  | O => OutOfFuel
  | S fuel' =>
      if negb ((Z.of_nat i <? count) && (Z.of_nat i <? 8)) then Done stack
      else
        obind (probe_read_user_into h stack i (u64 (sp_val + Z.of_nat i * 8)))
          (fun '(stack1, rc) =>
             obind (if negb (rc =? 0) then store stack1 i (Some 0) else Done stack1)
               (fun stack2 => read_user_stack_data_loop fuel' h sp_val count (S i) stack2))
  end.

Definition read_user_stack_data (h : helpers) (ctx : pt_regs) (stack : list (option Z))
    (count : Z) : outcome (list (option Z)) :=
  read_user_stack_data_loop 9 h (PT_REGS_SP ctx) count O stack.

(** [for (i = 0; i < count && i < 16; i++) ...] of [read_local_variables] *)
Fixpoint read_local_variables_loop (fuel : nat) (h : helpers) (fp : Z) (count : Z)
    (i : nat) (vars : list (option Z)) : outcome (list (option Z)) :=
  match fuel with
  | O => OutOfFuel
  | S fuel' =>
      if negb ((Z.of_nat i <? count) && (Z.of_nat i <? 16)) then Done vars
      else
        obind (probe_read_user_into h vars i (u64 (fp - (Z.of_nat i + 1) * 8)))
          (fun '(vars1, rc) =>
             obind (if negb (rc =? 0) then store vars1 i (Some 0) else Done vars1)
               (fun vars2 => read_local_variables_loop fuel' h fp count (S i) vars2))
  end.

Definition read_local_variables (h : helpers) (ctx : pt_regs) (vars : list (option Z))
    (count : Z) : outcome (list (option Z)) :=
  read_local_variables_loop 17 h (PT_REGS_FP ctx) count O vars.

(** [bpf_get_current_comm(&event->comm, sizeof(event->comm))]: the task
    name, NUL padded to the size of the array. *)
Definition get_current_comm (h : helpers) (buf : list (option ascii)) : list (option ascii) :=
  map Some (take (length buf) (current_comm h ++ replicate (length buf) Ascii.zero)).

(** [bpf_probe_read_str(dst, size, literal)]: the characters of the
    literal that fit in [size - 1] bytes, then NUL; the array is cleared
    when the read fails. *)
Definition probe_read_str (h : helpers) (dst : list (option ascii)) (s : string)
  : list (option ascii) :=
  if probe_read_str_ok h then
    let chars := take (length dst - 1) (list_ascii_of_string s) in
    take (length dst) (map Some chars ++ [Some Ascii.zero] ++ drop (S (length chars)) dst)
  else map (fun _ => Some Ascii.zero) dst.

Definition enhanced_breakpoint_probe (h : helpers) (ctx : pt_regs) (w : world)
  : outcome (world * Z) :=
  match debug_control_lookup h with
  | None => Done (w, 0)
  | Some enabled =>
      if u32 enabled =? 0 then Done (w, 0)
      else if negb (ringbuf_reserve h) then Done (w, 0)
      else
        let event := memset_zero reserved_slot in
        let event := set_pid (Some (u32 (Z.land (current_pid_tgid h) 0xffffffff))) event in
        let event := set_tgid (Some (u32 (Z.shiftr (current_pid_tgid h) 32))) event in
        let event := set_timestamp (Some (u64 (ktime_get_ns h))) event in
        let event := set_breakpoint_id (Some 1) event in
        let event := set_comm (get_current_comm h (comm event)) event in
        let event := set_function (probe_read_str h (function event) "target_function") event in
        let event := set_reg pc (u64 (PT_REGS_IP ctx)) event in
        let event := set_reg ra (u64 (PT_REGS_RC ctx)) event in
        let event := set_reg sp (u64 (PT_REGS_SP ctx)) event in
        let event := set_reg gp (u64 (PT_REGS_FP ctx)) event in
        let event := set_reg tp 0 event in
        let event := set_reg a0 (u64 (PT_REGS_PARM1 ctx)) event in
        let event := set_reg a1 (u64 (PT_REGS_PARM2 ctx)) event in
        let event := set_reg a2 (u64 (PT_REGS_PARM3 ctx)) event in
        let event := set_reg a3 (u64 (PT_REGS_PARM4 ctx)) event in
        let event := set_reg a4 (u64 (PT_REGS_PARM5 ctx)) event in
        let event := set_reg a5 (u64 (PT_REGS_PARM6 ctx)) event in
        let event := set_reg a6 0 event in
        let event := set_reg a7 0 event in
        let event := set_reg t0 0 (set_reg t1 0 (set_reg t2 0 event)) in
        let event := set_reg s0 0 (set_reg s1 0 event) in
        obind (read_user_stack_data h ctx (stack_data event) 8) (fun stack =>
        let event := set_stack_data stack event in
        obind (read_local_variables h ctx (local_vars event) 16) (fun vars =>
        let event := set_local_vars vars event in
        let w := ringbuf_submit event w in
        let w := printk (TL_enhanced_bp (pid event) (regs event pc) (regs event sp)) w in
        let w := printk (TL_args (regs event a0) (regs event a1)
                                 (regs event a2) (regs event a3)) w in
        Done (w, 0)))
  end.

Definition enhanced_trace_function_return (h : helpers) (ctx : pt_regs) (w : world)
  : outcome (world * Z) :=
  let pid_tgid := u64 (current_pid_tgid h) in
  let pid := u32 pid_tgid in
  let return_value := u64 (PT_REGS_RC ctx) in
  Done (printk (TL_return pid return_value) w, 0).

(** Every member of the record holds a value. *)
Definition fully_initialized (e : enhanced_debug_event) : Prop :=
  is_Some (pid e) /\ is_Some (tgid e) /\ is_Some (timestamp e) /\ is_Some (breakpoint_id e) /\
  Forall is_Some (comm e) /\ Forall is_Some (function e) /\
  (forall r, is_Some (regs e r)) /\
  (length (stack_data e) = 8%nat /\ Forall is_Some (stack_data e)) /\
  (length (local_vars e) = 16%nat /\ Forall is_Some (local_vars e)).

(** The registers the probe cannot read. *)
Definition unreadable_regs : list reg_field := [tp; a6; a7; t0; t1; t2; s0; s1].

(** A drop counter would be some quantity of the probe's world that goes
    up by one each time a reservation fails. *)
Definition counts_drops (drops : world -> nat) : Prop :=
  forall h ctx w enabled,
    debug_control_lookup h = Some enabled -> u32 enabled <> 0 ->
    ringbuf_reserve h = false ->
    exists w' rc, enhanced_breakpoint_probe h ctx w = Done (w', rc) /\
                  drops w' = S (drops w).

Definition empty_world : world := {| ringbuf := []; trace_pipe := [] |}.

(** The control word of the template says tracing is enabled. *)
Definition enabled_in (h : helpers) : Prop :=
  exists v, debug_control_lookup h = Some v /\ u32 v <> 0.

(** The firing puts a record in the ring buffer. *)
Definition emits (h : helpers) (ctx : pt_regs) (w : world) : Prop :=
  exists w' rc e, enhanced_breakpoint_probe h ctx w = Done (w', rc) /\
                  ringbuf w' = ringbuf w ++ [e].

End Enhanced.

(** ** kernel_debugger_tui.c *)

Module Tui.

Inductive debug_state_t :=
| DEBUG_STOPPED
| DEBUG_RUNNING
| DEBUG_STEPPING
| DEBUG_BREAKPOINT.

Definition debug_state_eqb (x y : debug_state_t) : bool :=
  match x, y with
  | DEBUG_STOPPED, DEBUG_STOPPED | DEBUG_RUNNING, DEBUG_RUNNING
  | DEBUG_STEPPING, DEBUG_STEPPING | DEBUG_BREAKPOINT, DEBUG_BREAKPOINT => true
  | _, _ => false
  end.

(** A node of the breakpoint list; the [next] pointers are the list. *)
Record breakpoint_t := {
  addr : Z;
  enabled : Z;
  symbol : string
}.

Record riscv_regs_t := {
  pc : Z;
  ra : Z;
  sp : Z;
  gp : Z;
  tp : Z;
  t0 : Z;
  t1 : Z;
  t2 : Z;
  s0 : Z;
  s1 : Z;
  a0 : Z;
  a1 : Z;
  a2 : Z;
  a3 : Z;
  a4 : Z;
  a5 : Z;
  a6 : Z;
  a7 : Z;
  s2 : Z;
  s3 : Z;
  s4 : Z;
  s5 : Z;
  s6 : Z;
  s7 : Z;
  s8 : Z;
  s9 : Z;
  s10 : Z;
  s11 : Z;
  t3 : Z;
  t4 : Z;
  t5 : Z;
  t6 : Z
}.

Definition set_pc (v : Z) (r : riscv_regs_t) : riscv_regs_t :=
  {| pc := v; ra := ra r; sp := sp r; gp := gp r; tp := tp r; t0 := t0 r; t1 := t1 r;
     t2 := t2 r; s0 := s0 r; s1 := s1 r; a0 := a0 r; a1 := a1 r; a2 := a2 r; a3 := a3 r;
     a4 := a4 r; a5 := a5 r; a6 := a6 r; a7 := a7 r; s2 := s2 r; s3 := s3 r; s4 := s4 r;
     s5 := s5 r; s6 := s6 r; s7 := s7 r; s8 := s8 r; s9 := s9 r; s10 := s10 r;
     s11 := s11 r; t3 := t3 r; t4 := t4 r; t5 := t5 r; t6 := t6 r |}.

Definition set_ra (v : Z) (r : riscv_regs_t) : riscv_regs_t :=
  {| pc := pc r; ra := v; sp := sp r; gp := gp r; tp := tp r; t0 := t0 r; t1 := t1 r;
     t2 := t2 r; s0 := s0 r; s1 := s1 r; a0 := a0 r; a1 := a1 r; a2 := a2 r; a3 := a3 r;
     a4 := a4 r; a5 := a5 r; a6 := a6 r; a7 := a7 r; s2 := s2 r; s3 := s3 r; s4 := s4 r;
     s5 := s5 r; s6 := s6 r; s7 := s7 r; s8 := s8 r; s9 := s9 r; s10 := s10 r;
     s11 := s11 r; t3 := t3 r; t4 := t4 r; t5 := t5 r; t6 := t6 r |}.

Definition set_sp (v : Z) (r : riscv_regs_t) : riscv_regs_t :=
  {| pc := pc r; ra := ra r; sp := v; gp := gp r; tp := tp r; t0 := t0 r; t1 := t1 r;
     t2 := t2 r; s0 := s0 r; s1 := s1 r; a0 := a0 r; a1 := a1 r; a2 := a2 r; a3 := a3 r;
     a4 := a4 r; a5 := a5 r; a6 := a6 r; a7 := a7 r; s2 := s2 r; s3 := s3 r; s4 := s4 r;
     s5 := s5 r; s6 := s6 r; s7 := s7 r; s8 := s8 r; s9 := s9 r; s10 := s10 r;
     s11 := s11 r; t3 := t3 r; t4 := t4 r; t5 := t5 r; t6 := t6 r |}.

Definition zero_regs : riscv_regs_t :=
  {| pc := 0; ra := 0; sp := 0; gp := 0; tp := 0; t0 := 0; t1 := 0; t2 := 0; s0 := 0;
     s1 := 0; a0 := 0; a1 := 0; a2 := 0; a3 := 0; a4 := 0; a5 := 0; a6 := 0; a7 := 0;
     s2 := 0; s3 := 0; s4 := 0; s5 := 0; s6 := 0; s7 := 0; s8 := 0; s9 := 0; s10 := 0;
     s11 := 0; t3 := 0; t4 := 0; t5 := 0; t6 := 0 |}.

(** [window_focus_t]; the focus is kept as the integer the enumeration
    constant stands for. *)
Definition FOCUS_REGISTERS : Z := 0.
Definition FOCUS_VARIABLES : Z := 1.
Definition FOCUS_STACK : Z := 2.
Definition FOCUS_CODE : Z := 3.
Definition FOCUS_MEMORY : Z := 4.
Definition FOCUS_COMMAND : Z := 5.
Definition FOCUS_COUNT : Z := 6.

(** [debugger_ctx_t] without its ncurses window and panel handles; the
    mutex and the thread handle appear as [Lock]/[Unlock] actions. *)

Record debugger_ctx_t := {
  state : debug_state_t;
  bpf_fd : Z;
  perf_fd : Z;
  perf_mmap : Z;
  perf_mmap_size : Z;
  bpf_loaded : Z;
  regs : riscv_regs_t;
  breakpoints : list breakpoint_t;
  current_function : string;
  current_addr : Z;
  reg_scroll_pos : Z;
  var_scroll_pos : Z;
  stack_scroll_pos : Z;
  code_scroll_pos : Z;
  mem_scroll_pos : Z;
  running : Z;
  mouse_enabled : Z;
  current_focus : Z
}.

Definition set_state (v : debug_state_t) (c : debugger_ctx_t) : debugger_ctx_t :=
  {| state := v; bpf_fd := bpf_fd c; perf_fd := perf_fd c; perf_mmap := perf_mmap c;
     perf_mmap_size := perf_mmap_size c; bpf_loaded := bpf_loaded c; regs := regs c;
     breakpoints := breakpoints c; current_function := current_function c;
     current_addr := current_addr c; reg_scroll_pos := reg_scroll_pos c;
     var_scroll_pos := var_scroll_pos c; stack_scroll_pos := stack_scroll_pos c;
     code_scroll_pos := code_scroll_pos c; mem_scroll_pos := mem_scroll_pos c;
     running := running c; mouse_enabled := mouse_enabled c;
     current_focus := current_focus c |}.

Definition set_bpf_fd (v : Z) (c : debugger_ctx_t) : debugger_ctx_t :=
  {| state := state c; bpf_fd := v; perf_fd := perf_fd c; perf_mmap := perf_mmap c;
     perf_mmap_size := perf_mmap_size c; bpf_loaded := bpf_loaded c; regs := regs c;
     breakpoints := breakpoints c; current_function := current_function c;
     current_addr := current_addr c; reg_scroll_pos := reg_scroll_pos c;
     var_scroll_pos := var_scroll_pos c; stack_scroll_pos := stack_scroll_pos c;
     code_scroll_pos := code_scroll_pos c; mem_scroll_pos := mem_scroll_pos c;
     running := running c; mouse_enabled := mouse_enabled c;
     current_focus := current_focus c |}.

Definition set_bpf_loaded (v : Z) (c : debugger_ctx_t) : debugger_ctx_t :=
  {| state := state c; bpf_fd := bpf_fd c; perf_fd := perf_fd c; perf_mmap := perf_mmap c;
     perf_mmap_size := perf_mmap_size c; bpf_loaded := v; regs := regs c;
     breakpoints := breakpoints c; current_function := current_function c;
     current_addr := current_addr c; reg_scroll_pos := reg_scroll_pos c;
     var_scroll_pos := var_scroll_pos c; stack_scroll_pos := stack_scroll_pos c;
     code_scroll_pos := code_scroll_pos c; mem_scroll_pos := mem_scroll_pos c;
     running := running c; mouse_enabled := mouse_enabled c;
     current_focus := current_focus c |}.

Definition set_regs (v : riscv_regs_t) (c : debugger_ctx_t) : debugger_ctx_t :=
  {| state := state c; bpf_fd := bpf_fd c; perf_fd := perf_fd c; perf_mmap := perf_mmap c;
     perf_mmap_size := perf_mmap_size c; bpf_loaded := bpf_loaded c; regs := v;
     breakpoints := breakpoints c; current_function := current_function c;
     current_addr := current_addr c; reg_scroll_pos := reg_scroll_pos c;
     var_scroll_pos := var_scroll_pos c; stack_scroll_pos := stack_scroll_pos c;
     code_scroll_pos := code_scroll_pos c; mem_scroll_pos := mem_scroll_pos c;
     running := running c; mouse_enabled := mouse_enabled c;
     current_focus := current_focus c |}.

Definition set_current_function (v : string) (c : debugger_ctx_t) : debugger_ctx_t :=
  {| state := state c; bpf_fd := bpf_fd c; perf_fd := perf_fd c; perf_mmap := perf_mmap c;
     perf_mmap_size := perf_mmap_size c; bpf_loaded := bpf_loaded c; regs := regs c;
     breakpoints := breakpoints c; current_function := v; current_addr := current_addr c;
     reg_scroll_pos := reg_scroll_pos c; var_scroll_pos := var_scroll_pos c;
     stack_scroll_pos := stack_scroll_pos c; code_scroll_pos := code_scroll_pos c;
     mem_scroll_pos := mem_scroll_pos c; running := running c;
     mouse_enabled := mouse_enabled c; current_focus := current_focus c |}.

Definition set_current_addr (v : Z) (c : debugger_ctx_t) : debugger_ctx_t :=
  {| state := state c; bpf_fd := bpf_fd c; perf_fd := perf_fd c; perf_mmap := perf_mmap c;
     perf_mmap_size := perf_mmap_size c; bpf_loaded := bpf_loaded c; regs := regs c;
     breakpoints := breakpoints c; current_function := current_function c;
     current_addr := v; reg_scroll_pos := reg_scroll_pos c;
     var_scroll_pos := var_scroll_pos c; stack_scroll_pos := stack_scroll_pos c;
     code_scroll_pos := code_scroll_pos c; mem_scroll_pos := mem_scroll_pos c;
     running := running c; mouse_enabled := mouse_enabled c;
     current_focus := current_focus c |}.

Definition set_reg_scroll_pos (v : Z) (c : debugger_ctx_t) : debugger_ctx_t :=
  {| state := state c; bpf_fd := bpf_fd c; perf_fd := perf_fd c; perf_mmap := perf_mmap c;
     perf_mmap_size := perf_mmap_size c; bpf_loaded := bpf_loaded c; regs := regs c;
     breakpoints := breakpoints c; current_function := current_function c;
     current_addr := current_addr c; reg_scroll_pos := v;
     var_scroll_pos := var_scroll_pos c; stack_scroll_pos := stack_scroll_pos c;
     code_scroll_pos := code_scroll_pos c; mem_scroll_pos := mem_scroll_pos c;
     running := running c; mouse_enabled := mouse_enabled c;
     current_focus := current_focus c |}.

Definition set_var_scroll_pos (v : Z) (c : debugger_ctx_t) : debugger_ctx_t :=
  {| state := state c; bpf_fd := bpf_fd c; perf_fd := perf_fd c; perf_mmap := perf_mmap c;
     perf_mmap_size := perf_mmap_size c; bpf_loaded := bpf_loaded c; regs := regs c;
     breakpoints := breakpoints c; current_function := current_function c;
     current_addr := current_addr c; reg_scroll_pos := reg_scroll_pos c;
     var_scroll_pos := v; stack_scroll_pos := stack_scroll_pos c;
     code_scroll_pos := code_scroll_pos c; mem_scroll_pos := mem_scroll_pos c;
     running := running c; mouse_enabled := mouse_enabled c;
     current_focus := current_focus c |}.

Definition set_stack_scroll_pos (v : Z) (c : debugger_ctx_t) : debugger_ctx_t :=
  {| state := state c; bpf_fd := bpf_fd c; perf_fd := perf_fd c; perf_mmap := perf_mmap c;
     perf_mmap_size := perf_mmap_size c; bpf_loaded := bpf_loaded c; regs := regs c;
     breakpoints := breakpoints c; current_function := current_function c;
     current_addr := current_addr c; reg_scroll_pos := reg_scroll_pos c;
     var_scroll_pos := var_scroll_pos c; stack_scroll_pos := v;
     code_scroll_pos := code_scroll_pos c; mem_scroll_pos := mem_scroll_pos c;
     running := running c; mouse_enabled := mouse_enabled c;
     current_focus := current_focus c |}.

Definition set_code_scroll_pos (v : Z) (c : debugger_ctx_t) : debugger_ctx_t :=
  {| state := state c; bpf_fd := bpf_fd c; perf_fd := perf_fd c; perf_mmap := perf_mmap c;
     perf_mmap_size := perf_mmap_size c; bpf_loaded := bpf_loaded c; regs := regs c;
     breakpoints := breakpoints c; current_function := current_function c;
     current_addr := current_addr c; reg_scroll_pos := reg_scroll_pos c;
     var_scroll_pos := var_scroll_pos c; stack_scroll_pos := stack_scroll_pos c;
     code_scroll_pos := v; mem_scroll_pos := mem_scroll_pos c; running := running c;
     mouse_enabled := mouse_enabled c; current_focus := current_focus c |}.

Definition set_mem_scroll_pos (v : Z) (c : debugger_ctx_t) : debugger_ctx_t :=
  {| state := state c; bpf_fd := bpf_fd c; perf_fd := perf_fd c; perf_mmap := perf_mmap c;
     perf_mmap_size := perf_mmap_size c; bpf_loaded := bpf_loaded c; regs := regs c;
     breakpoints := breakpoints c; current_function := current_function c;
     current_addr := current_addr c; reg_scroll_pos := reg_scroll_pos c;
     var_scroll_pos := var_scroll_pos c; stack_scroll_pos := stack_scroll_pos c;
     code_scroll_pos := code_scroll_pos c; mem_scroll_pos := v; running := running c;
     mouse_enabled := mouse_enabled c; current_focus := current_focus c |}.

Definition set_running (v : Z) (c : debugger_ctx_t) : debugger_ctx_t :=
  {| state := state c; bpf_fd := bpf_fd c; perf_fd := perf_fd c; perf_mmap := perf_mmap c;
     perf_mmap_size := perf_mmap_size c; bpf_loaded := bpf_loaded c; regs := regs c;
     breakpoints := breakpoints c; current_function := current_function c;
     current_addr := current_addr c; reg_scroll_pos := reg_scroll_pos c;
     var_scroll_pos := var_scroll_pos c; stack_scroll_pos := stack_scroll_pos c;
     code_scroll_pos := code_scroll_pos c; mem_scroll_pos := mem_scroll_pos c;
     running := v; mouse_enabled := mouse_enabled c; current_focus := current_focus c |}.

Definition set_current_focus (v : Z) (c : debugger_ctx_t) : debugger_ctx_t :=
  {| state := state c; bpf_fd := bpf_fd c; perf_fd := perf_fd c; perf_mmap := perf_mmap c;
     perf_mmap_size := perf_mmap_size c; bpf_loaded := bpf_loaded c; regs := regs c;
     breakpoints := breakpoints c; current_function := current_function c;
     current_addr := current_addr c; reg_scroll_pos := reg_scroll_pos c;
     var_scroll_pos := var_scroll_pos c; stack_scroll_pos := stack_scroll_pos c;
     code_scroll_pos := code_scroll_pos c; mem_scroll_pos := mem_scroll_pos c;
     running := running c; mouse_enabled := mouse_enabled c; current_focus := v |}.

(** [memset] of the whole context with 0; the null list head is the empty list. *)
Definition zero_ctx : debugger_ctx_t :=
  {| state := DEBUG_STOPPED; bpf_fd := 0; perf_fd := 0; perf_mmap := 0; perf_mmap_size := 0;
     bpf_loaded := 0; regs := zero_regs; breakpoints := []; current_function := "";
     current_addr := 0; reg_scroll_pos := 0; var_scroll_pos := 0; stack_scroll_pos := 0;
     code_scroll_pos := 0; mem_scroll_pos := 0; running := 0; mouse_enabled := 0;
     current_focus := 0 |}.

(** *** Actions and the command monad

    The two threads share the context.  A run of a function is its effect
    on the context, on the function-local [static int counter] of the
    event thread, and the sequence of actions it performs: stores to
    members of the context, lock operations on [data_mutex], [bpf]
    system calls, and other library calls. *)

Inductive field :=
| F_all
| F_state
| F_bpf_fd
| F_bpf_loaded
| F_regs
| F_current_function
| F_current_addr
| F_scroll_pos
| F_running
| F_current_focus.

(** Commands of the [bpf] system call.  The handler only ever issues
    [BPF_PROG_LOAD]; [BPF_MAP_UPDATE_ELEM] on the control map is listed
    because it is the one way user space writes the control record. *)
Inductive bpf_cmd :=
| BPF_PROG_LOAD
| BPF_MAP_UPDATE_ELEM (value : Probe.debugger_control).

Inductive action :=
| Lock
| Unlock
| Store (f : field)
| Bpf (cmd : bpf_cmd)
| Call (name : string).

Record proc := {
  ctx : debugger_ctx_t;
  counter : Z
}.

Definition M (A : Type) : Type := proc -> A * proc * list action.

#[global] Instance M_ret : MRet M := fun A a p => (a, p, []).

#[global] Instance M_bind : MBind M := fun A B f m p =>
  let '(a, p1, l1) := m p in
  let '(b, p2, l2) := f a p1 in
  (b, p2, l1 ++ l2).

Definition modify (f : field) (upd : debugger_ctx_t -> debugger_ctx_t) : M unit :=
  fun p => (tt, {| ctx := upd (ctx p); counter := counter p |}, [Store f]).

Definition load {A} (proj : debugger_ctx_t -> A) : M A :=
  fun p => (proj (ctx p), p, []).

Definition call (name : string) : M unit := fun p => (tt, p, [Call name]).

Definition lock : M unit := fun p => (tt, p, [Lock]).

Definition unlock : M unit := fun p => (tt, p, [Unlock]).

Definition sys_bpf (cmd : bpf_cmd) : M unit := fun p => (tt, p, [Bpf cmd]).

Definition skip : M unit := mret tt.

Definition exec {A} (m : M A) (p : proc) : proc := snd (fst (m p)).

Definition log_of {A} (m : M A) (p : proc) : list action := snd (m p).

(** *** Scrolling and focus *)

Definition handle_window_scroll (direction : Z) : M unit :=
  focus ← load current_focus;
  if focus =? FOCUS_REGISTERS then
    modify F_scroll_pos (fun c => set_reg_scroll_pos (int32 (reg_scroll_pos c + direction)) c);;
    pos ← load reg_scroll_pos;
    if pos <? 0 then modify F_scroll_pos (set_reg_scroll_pos 0) else skip
  else if focus =? FOCUS_VARIABLES then
    modify F_scroll_pos (fun c => set_var_scroll_pos (int32 (var_scroll_pos c + direction)) c);;
    pos ← load var_scroll_pos;
    if pos <? 0 then modify F_scroll_pos (set_var_scroll_pos 0) else skip
  else if focus =? FOCUS_STACK then
    modify F_scroll_pos (fun c => set_stack_scroll_pos (int32 (stack_scroll_pos c + direction)) c);;
    pos ← load stack_scroll_pos;
    if pos <? 0 then modify F_scroll_pos (set_stack_scroll_pos 0) else skip
  else if focus =? FOCUS_CODE then
    modify F_scroll_pos (fun c => set_code_scroll_pos (int32 (code_scroll_pos c + direction)) c);;
    pos ← load code_scroll_pos;
    if pos <? 0 then modify F_scroll_pos (set_code_scroll_pos 0) else skip
  else if focus =? FOCUS_MEMORY then
    modify F_scroll_pos (fun c => set_mem_scroll_pos (int32 (mem_scroll_pos c + direction)) c);;
    pos ← load mem_scroll_pos;
    if pos <? 0 then modify F_scroll_pos (set_mem_scroll_pos 0) else skip
  else skip.

Definition switch_window_focus (new_focus : Z) : M unit :=
  if FOCUS_COUNT <=? new_focus then skip
  else
    modify F_current_focus (set_current_focus new_focus);;
    if (0 <=? new_focus) && (new_focus <=? FOCUS_COMMAND)
    then call "move_cursor_to_window" else skip.

(** The scroll cursor of a view, for the five views that have one. *)
Definition scroll_cursor (view : Z) (c : debugger_ctx_t) : option Z :=
  if view =? FOCUS_REGISTERS then Some (reg_scroll_pos c)
  else if view =? FOCUS_VARIABLES then Some (var_scroll_pos c)
  else if view =? FOCUS_STACK then Some (stack_scroll_pos c)
  else if view =? FOCUS_CODE then Some (code_scroll_pos c)
  else if view =? FOCUS_MEMORY then Some (mem_scroll_pos c)
  else None.

(** *** Rendering, program load, event thread *)

Definition update_all_windows : M unit :=
  lock;;
  call "update_status";;
  call "update_registers";;
  call "update_variables";;
  call "update_stack";;
  call "update_memory";;
  call "update_code";;
  call "update_command";;
  call "update_panels";;
  call "doupdate";;
  unlock.

(** What the outside world answers during one call of [handle_input]. *)
Record input := {
  getch : Z;          (* the key read *)
  open_fd : Z;        (* open("kernel_debugger.bpf.o", O_RDONLY) *)
  fstat_rc : Z;       (* fstat(fd, &st) *)
  mmap_ok : bool;     (* mmap(...) != MAP_FAILED *)
  prog_load_fd : Z;   (* bpf(BPF_PROG_LOAD, ...) *)
  getmouse_rc : Z     (* getmouse(&event) *)
}.

Definition load_bpf_program (inp : input) : M Z :=
  modify F_bpf_loaded (set_bpf_loaded 0);;
  modify F_bpf_fd (set_bpf_fd (-1));;
  call "open";;
  if open_fd inp <? 0 then mret (-1)
  else
    call "fstat";;
    if fstat_rc inp <? 0 then call "close";; mret (-1)
    else
      call "mmap";;
      if negb (mmap_ok inp) then call "close";; mret (-1)
      else
        call "close";;
        sys_bpf BPF_PROG_LOAD;;
        modify F_bpf_fd (set_bpf_fd (prog_load_fd inp));;
        fd ← load bpf_fd;
        if fd <? 0 then call "munmap";; mret (-1)
        else
          call "munmap";;
          modify F_bpf_loaded (set_bpf_loaded 1);;
          mret 0.

Definition incr_counter : M Z :=
  fun p => let n := int32 (counter p + 1) in (n, {| ctx := ctx p; counter := n |}, []).

(** The body of the [while (ctx->running)] loop of [event_thread]. *)
Definition event_thread_iteration : M unit :=
  call "usleep";;
  lock;;
  modify F_regs (fun c => set_regs (set_pc (u64 (pc (regs c) + 4)) (regs c)) c);;
  modify F_current_addr (fun c => set_current_addr (pc (regs c)) c);;
  st ← load state;
  (if debug_state_eqb st DEBUG_RUNNING then
     n ← incr_counter;
     if Z.rem n 10 =? 0 then
       modify F_current_function (set_current_function "taco_sys_mmz_alloc")
     else if Z.rem n 7 =? 0 then
       modify F_current_function (set_current_function "taco_sys_init")
     else skip
   else skip);;
  unlock.

(** [event_thread] for as long as [running] stays set, [fuel] rounds at most. *)
Fixpoint event_thread (fuel : nat) : M unit :=
  match fuel with
  | O => skip
  | S fuel' =>
      r ← load running;
      if r =? 0 then skip else event_thread_iteration;; event_thread fuel'
  end.

(** *** Keys and the command handler *)

(** The key codes of [ncurses.h] used as case labels; the header is not
    part of the repository, so they are parameters. *)
Record curses_keys := {
  KEY_F : Z -> Z;
  KEY_MOUSE : Z;
  KEY_RESIZE : Z
}.

(** The value of a character constant. *)
Definition chr (c : ascii) : Z := Z.of_N (N_of_ascii c).

Definition case_labels (K : curses_keys) : list Z :=
  [KEY_F K 5; KEY_F K 10; KEY_F K 11; chr "q"; chr "Q"; chr "c"; chr "C"; chr "s"; chr "S";
   chr "b"; chr "B"; chr "r"; chr "R"; KEY_MOUSE K; chr "009"; KEY_RESIZE K].

Fixpoint distinct (l : list Z) : bool :=
  match l with
  | [] => true
  | x :: rest => negb (existsb (Z.eqb x) rest) && distinct rest
  end.

(** A [switch] compiles only if its case labels are pairwise different. *)
Definition keys_wf (K : curses_keys) : Prop := distinct (case_labels K) = true.

(** The codes of the ncurses releases in use: [KEY_F0] is 0410 octal. *)
Definition ncurses_keys : curses_keys :=
  {| KEY_F := fun n => 264 + n; KEY_MOUSE := 409; KEY_RESIZE := 410 |}.

Definition handle_input (K : curses_keys) (inp : input) : M unit :=
  call "getch";;
  let ch := getch inp in
  if ch =? KEY_F K 5 then modify F_state (set_state DEBUG_RUNNING)
  else if ch =? KEY_F K 10 then modify F_state (set_state DEBUG_STEPPING)
  else if ch =? KEY_F K 11 then modify F_state (set_state DEBUG_STEPPING)
  else if (ch =? chr "q") || (ch =? chr "Q") then modify F_running (set_running 0)
  else if (ch =? chr "c") || (ch =? chr "C") then modify F_state (set_state DEBUG_RUNNING)
  else if (ch =? chr "s") || (ch =? chr "S") then modify F_state (set_state DEBUG_STEPPING)
  else if (ch =? chr "b") || (ch =? chr "B") then modify F_state (set_state DEBUG_BREAKPOINT)
  else if (ch =? chr "r") || (ch =? chr "R") then
    fd ← load bpf_fd;
    (if 0 <=? fd then call "close";; modify F_bpf_fd (set_bpf_fd (-1)) else skip);;
    _ ← load_bpf_program inp;
    skip
  else if ch =? KEY_MOUSE K then
    enabled ← load mouse_enabled;
    if negb (enabled =? 0) then call "getmouse" else skip
  else if ch =? chr "009" then
    focus ← load current_focus;
    switch_window_focus (u32 (focus + 1) mod FOCUS_COUNT)
  else if ch =? KEY_RESIZE K then
    call "endwin";;
    call "refresh";;
    call "clear";;
    update_all_windows
  else skip.

Definition init_debugger (mutex_init_rc : Z) : M Z :=
  modify F_all (fun _ => zero_ctx);;
  modify F_state (set_state DEBUG_STOPPED);;
  modify F_running (set_running 1);;
  modify F_current_addr (set_current_addr 0xffffffff80000000);;
  modify F_current_function (set_current_function "taco_sys_init");;
  modify F_bpf_loaded (set_bpf_loaded 0);;
  modify F_bpf_fd (set_bpf_fd (-1));;
  modify F_current_focus (set_current_focus FOCUS_CODE);;
  call "pthread_mutex_init";;
  if negb (mutex_init_rc =? 0) then mret (-1)
  else
    modify F_regs (fun c => set_regs (set_pc (current_addr c) (regs c)) c);;
    modify F_regs (fun c => set_regs (set_sp 0xffffffff80800000 (regs c)) c);;
    modify F_regs (fun c => set_regs (set_ra 0xffffffff80000100 (regs c)) c);;
    mret 0.

(** The main loop of [main], one [input] per round. *)
Fixpoint main_loop (K : curses_keys) (inputs : list input) : M unit :=
  match inputs with
  | [] => skip
  | inp :: rest =>
      r ← load running;
      if r =? 0 then skip
      else
        update_all_windows;;
        handle_input K inp;;
        call "usleep";;
        main_loop K rest
  end.

(** *** The commands of the specification, as keys *)

Definition key (ch : Z) : input :=
  {| getch := ch; open_fd := -1; fstat_rc := -1; mmap_ok := false;
     prog_load_fd := -1; getmouse_rc := -1 |}.

Definition is_continue (K : curses_keys) (ch : Z) : Prop :=
  ch = KEY_F K 5 \/ ch = chr "c" \/ ch = chr "C".

Definition is_step (K : curses_keys) (ch : Z) : Prop :=
  ch = KEY_F K 10 \/ ch = KEY_F K 11 \/ ch = chr "s" \/ ch = chr "S".

Definition is_quit (ch : Z) : Prop := ch = chr "q" \/ ch = chr "Q".

Definition is_set_breakpoint (ch : Z) : Prop := ch = chr "b" \/ ch = chr "B".

(** *** The session lock *)

(** The members of the context that make up the session state. *)
Definition session_field (f : field) : bool :=
  match f with
  | F_all | F_state | F_regs | F_current_function | F_current_addr | F_scroll_pos => true
  | F_bpf_fd | F_bpf_loaded | F_running | F_current_focus => false
  end.

(** The lock discipline over a sequence of actions, [held] telling whether
    the caller holds [data_mutex]: stores to the session state happen
    only under the lock, calls out of the program only outside it, and
    the lock is free at the end. *)
Fixpoint disciplined (held : bool) (l : list action) : bool :=
  match l with
  | [] => negb held
  | Lock :: rest => negb held && disciplined true rest
  | Unlock :: rest => held && disciplined false rest
  | Store f :: rest => (held || negb (session_field f)) && disciplined held rest
  | Bpf _ :: rest => negb held && disciplined held rest
  | Call _ :: rest => negb held && disciplined held rest
  end.

Definition is_lock (a : action) : bool :=
  match a with Lock => true | _ => false end.

(** *** User space together with the kernel's control record *)


(** The control record changes when, and only when, user space updates
    the control map. *)
Definition kernel_apply (c : Probe.debugger_control) (a : action) : Probe.debugger_control :=
  match a with
  | Bpf (BPF_MAP_UPDATE_ELEM v) => v
  | _ => c
  end.





(** A process before [init_debugger] ran, and right after it. *)
Definition blank : proc := {| ctx := zero_ctx; counter := 0 |}.

Definition started : proc := exec (init_debugger 0) blank.

End Tui.

(** ** Sample inputs *)

Definition control_on : Probe.debugger_control :=
  {| Probe.debug_mode := 0; Probe.target_pid := 0; Probe.global_enable := 1 |}.

Definition control_off : Probe.debugger_control :=
  {| Probe.debug_mode := 0; Probe.target_pid := 0; Probe.global_enable := 0 |}.


Definition helpers_with (c : option Probe.debugger_control) : Probe.helpers :=
  {| Probe.control_map_lookup := c; Probe.current_pid_tgid := 5 * 2 ^ 32 + 7;
     Probe.ktime_get_ns := 99; Probe.smp_processor_id := 2 |}.

Definition helpers_on := helpers_with (Some control_on).
Definition helpers_off := helpers_with (Some control_off).
Definition helpers_none := helpers_with None.

(** User memory readable at the addresses that are multiples of 16. *)
Definition probe_env (lookup : option Z) (slot : bool) : Enhanced.helpers :=
  {| Enhanced.debug_control_lookup := lookup; Enhanced.ringbuf_reserve := slot;
     Enhanced.current_pid_tgid := 5 * 2 ^ 32 + 7; Enhanced.ktime_get_ns := 99;
     Enhanced.current_comm := ["s"; "h"]%char; Enhanced.probe_read_str_ok := true;
     Enhanced.probe_read_user := fun a => if a mod 16 =? 0 then Some a else None |}.

Definition probe_env_on := probe_env (Some 1) true.
Definition probe_env_full := probe_env (Some 1) false.
Definition probe_env_off := probe_env (Some 0) true.
Definition probe_env_none := probe_env None true.

Definition trap_context : Enhanced.pt_regs :=
  {| Enhanced.PT_REGS_IP := 4; Enhanced.PT_REGS_RC := 8; Enhanced.PT_REGS_SP := 4096;
     Enhanced.PT_REGS_FP := 8192; Enhanced.PT_REGS_PARM1 := 1; Enhanced.PT_REGS_PARM2 := 2;
     Enhanced.PT_REGS_PARM3 := 3; Enhanced.PT_REGS_PARM4 := 4; Enhanced.PT_REGS_PARM5 := 5;
     Enhanced.PT_REGS_PARM6 := 6 |}.




(** ** Vocabulary of the statements *)


(** What one run of the loop from [st] guarantees about the state [st']
    it ends in. *)
Definition loop_post (src : cptr) (max_len : Z) (st st' : Probe.copy_state) : Prop :=
  (Probe.cp_i st <= Probe.cp_i st')%nat /\
  Z.of_nat (Probe.cp_i st') <= max_len - 1 /\
  length (Probe.cp_dst st') = length (Probe.cp_dst st) /\
  (forall j, (j < Probe.cp_i st \/ Probe.cp_i st' <= j)%nat -> Probe.cp_dst st' !! j = Probe.cp_dst st !! j) /\
  (forall j, (Probe.cp_i st <= j < Probe.cp_i st')%nat ->
     exists s, src = Some s /\ Probe.cp_dst st' !! j = Some (s j) /\ s j <> Ascii.zero) /\
  (exists new, Probe.cp_reads st' = Probe.cp_reads st ++ new /\
     forall j, In j new ->
       (Probe.cp_i st <= j <= Probe.cp_i st')%nat /\ Z.of_nat j < max_len - 1 /\ src <> None).

(** The guarantees of one call of [safe_strcpy] on a destination that has
    room for [max_len] characters. *)
Definition copy_post (dst : list ascii) (src : cptr) (max_len : Z)
    (st : Probe.copy_state) : Prop :=
  Z.of_nat (Probe.cp_i st) <= max_len - 1 /\
  (forall j, (j < Probe.cp_i st)%nat ->
     exists s, src = Some s /\ Probe.cp_dst st !! j = Some (s j) /\ s j <> Ascii.zero) /\
  c_strlen (Probe.cp_dst st) = Some (Probe.cp_i st) /\
  length (Probe.cp_dst st) = length dst /\
  (forall j, (Probe.cp_i st < j)%nat -> Probe.cp_dst st !! j = dst !! j) /\
  (src = None -> Probe.cp_reads st = []) /\
  (forall s j, src = Some s -> In j (Probe.cp_reads st) ->
     Z.of_nat j < max_len - 1 /\ forall n, s n = Ascii.zero -> (j <= n)%nat).

(** A name as it is stored in an emitted record: 64 bytes holding a NUL
    at offset 63 or before. *)
Definition name_ok (name : list ascii) : Prop :=
  length name = 64%nat /\ exists n, c_strlen name = Some n /\ (n <= 63)%nat.

(** What a slot holds after the loop went over it: the value read, or 0
    when the read failed. *)
Definition slot_after (h : Enhanced.helpers) (addr : Z) : option Z :=
  Some (match Enhanced.probe_read_user h addr with
        | Some v => u64 v
        | None => 0
        end).

(** The array a read loop leaves behind: slots [i .. bound) hold what
    the loop put there, every other slot is as before. *)
Definition filled (h : Enhanced.helpers) (address : nat -> Z) (i bound : nat)
    (before after : list (option Z)) : Prop :=
  length after = length before /\
  (forall j, (i <= j < bound)%nat -> after !! j = Some (slot_after h (address j))) /\
  (forall j, (j < i \/ bound <= j)%nat -> after !! j = before !! j).

(** The record the probe submits, member by member. *)
Definition snapshot_of (h : Enhanced.helpers) (ctx : Enhanced.pt_regs)
    (e : Enhanced.enhanced_debug_event) : Prop :=
  Enhanced.fully_initialized e /\
  (forall r, In r Enhanced.unreadable_regs -> Enhanced.regs e r = Some 0) /\
  (forall j, (j < 8)%nat ->
     Enhanced.stack_data e !! j =
       Some (slot_after h (u64 (Enhanced.PT_REGS_SP ctx + Z.of_nat j * 8)))) /\
  (forall j, (j < 16)%nat ->
     Enhanced.local_vars e !! j =
       Some (slot_after h (u64 (Enhanced.PT_REGS_FP ctx - (Z.of_nat j + 1) * 8)))).

(** A computation keeps the breakpoint list and issues no update of the
    control map. *)
Definition quiet {A} (m : Tui.M A) : Prop :=
  forall p,
    Tui.breakpoints (Tui.ctx (Tui.exec m p)) = Tui.breakpoints (Tui.ctx p) /\
    forall c, fold_left Tui.kernel_apply (Tui.log_of m p) c = c.

(** A scroll position after [+= direction] and the test against 0. *)
Definition clamp (x : Z) : Z := if int32 x <? 0 then 0 else int32 x.

(** * The rest of the sources *)

(** ** Probes fired one after the other *)

(** The kernel fires probes in some order, each with what the helpers
    return at that moment; the perf buffer is threaded through. *)
Fixpoint probe_run (firings : list (Probe.probe_id * Probe.helpers)) (w : Probe.world)
  : outcome Probe.world :=
  match firings with
  | [] => Done w
  | (p, h) :: rest => obind (Probe.fire p h w) (fun '(w', _) => probe_run rest w')
  end.

(** The section name and the string literal of each probe. *)
Definition probe_kind (p : Probe.probe_id) : Probe.debug_event_type :=
  match p with
  | Probe.P_generic_kprobe | Probe.P_mmz_alloc_entry | Probe.P_kmalloc_entry =>
      Probe.EVENT_FUNCTION_ENTRY
  | Probe.P_generic_kretprobe | Probe.P_mmz_alloc_exit | Probe.P_kmalloc_exit =>
      Probe.EVENT_FUNCTION_EXIT
  end.

Definition probe_name (p : Probe.probe_id) : string :=
  match p with
  | Probe.P_generic_kprobe | Probe.P_generic_kretprobe => "traced_function"
  | Probe.P_mmz_alloc_entry | Probe.P_mmz_alloc_exit => "taco_sys_mmz_alloc"
  | Probe.P_kmalloc_entry | Probe.P_kmalloc_exit => "__kmalloc"
  end.

(** A string in a 64-byte member, NUL padded. *)
Definition padded_name (s : string) : list ascii :=
  list_ascii_of_string s ++ replicate (64 - String.length s) Ascii.zero.

(** ** kernel_debugger_tui.c: the views *)

Module Views.

(** [arr[i]] with an [int] index: outside the array is a fault. *)
Definition index {A} (arr : list A) (i : Z) : outcome A :=
  if i <? 0 then Fault
  else match arr !! Z.to_nat i with
       | Some x => Done x
       | None => Fault
       end.

(** [arr[i] = c] with an [int] index. *)
Definition store_at {A} (arr : list A) (i : Z) (c : A) : outcome (list A) :=
  if i <? 0 then Fault else store arr (Z.to_nat i) c.

(** The local table [registers[]] of [update_registers]; an empty name
    is a blank line. *)
Definition registers (c : Tui.debugger_ctx_t) : list (string * Z) :=
  let r := Tui.regs c in
  ([("PC", Tui.pc r); ("RA", Tui.ra r); ("SP", Tui.sp r);
   ("GP", Tui.gp r); ("TP", Tui.tp r); ("", 0);
   ("T0", Tui.t0 r); ("T1", Tui.t1 r); ("T2", Tui.t2 r); ("", 0);
   ("S0", Tui.s0 r); ("S1", Tui.s1 r); ("", 0);
   ("A0", Tui.a0 r); ("A1", Tui.a1 r); ("A2", Tui.a2 r); ("A3", Tui.a3 r);
   ("A4", Tui.a4 r); ("A5", Tui.a5 r); ("A6", Tui.a6 r); ("A7", Tui.a7 r);
   ("", 0);
   ("S2", Tui.s2 r); ("S3", Tui.s3 r); ("S4", Tui.s4 r); ("S5", Tui.s5 r);
   ("S6", Tui.s6 r); ("S7", Tui.s7 r); ("S8", Tui.s8 r); ("S9", Tui.s9 r);
   ("S10", Tui.s10 r); ("S11", Tui.s11 r); ("", 0);
   ("T3", Tui.t3 r); ("T4", Tui.t4 r); ("T5", Tui.t5 r); ("T6", Tui.t6 r)])%string.

(** A line printed in the register window. *)
Record reg_line := {
  rl_y : Z;
  rl_name : string;
  rl_value : Z
}.

(** [for (int i = start_line; i < total_lines && y < height + 1; i++)] *)
Fixpoint update_registers_loop (fuel : nat) (table : list (string * Z))
    (total_lines height : Z) (i y : Z) (out : list reg_line) : outcome (list reg_line) :=
  match fuel with
  | O => OutOfFuel
  | S fuel' =>
      if negb ((i <? total_lines) && (y <? height + 1)) then Done out
      else
        obind (index table i) (fun '(name, value) =>
          if (String.length name =? 0)%nat
          then update_registers_loop fuel' table total_lines height (i + 1) (y + 1) out
          else update_registers_loop fuel' table total_lines height (i + 1) (y + 1)
                 (out ++ [{| rl_y := y; rl_name := name; rl_value := value |}]))
  end.

(** What [update_registers] puts on the window: the lines, and the
    scroll indicator [[start+1/total]] when it is shown.  [maxy] is what
    [getmaxy] returns for the window. *)
Record reg_view := {
  rv_lines : list reg_line;
  rv_indicator : option (Z * Z)
}.

Definition update_registers (maxy : Z) (c : Tui.debugger_ctx_t) : outcome reg_view :=
  let y := 2 in
  let height := int32 (maxy - 3) in
  let start_line := Tui.reg_scroll_pos c in
  let total_lines := Z.of_nat (length (registers c)) in
  obind (update_registers_loop (S (length (registers c))) (registers c)
           total_lines height start_line y [])
    (fun lines =>
       Done {| rv_lines := lines;
               rv_indicator :=
                 if (0 <? start_line) || (int32 (start_line + height) <? total_lines)
                 then Some (int32 (start_line + 1), total_lines) else None |}).

(** A line of the memory window: its row, its address and the four
    words shown after it. *)
Record mem_line := {
  ml_y : Z;
  ml_addr : Z;
  ml_words : list Z
}.

(** The two constant-bound loops of [update_memory]. *)
Definition update_memory (c : Tui.debugger_ctx_t) : list mem_line :=
  let base_addr := u64 (Z.land (Tui.current_addr c) (Z.lnot 0xF)) in
  map (fun i =>
         let addr := u64 (base_addr + i * 16) in
         {| ml_y := 2 + i; ml_addr := addr;
            ml_words := map (fun j => u32 (Z.land (u64 (addr + j)) 0xFFFFFFFF))
                            [0; 4; 8; 12] |})
      [0; 1; 2; 3; 4; 5; 6; 7; 8; 9].

(** A line of the code window. *)
Record code_line := {
  cl_y : Z;
  cl_addr : Z;
  cl_line_num : Z;
  cl_is_current : bool;
  cl_inst_idx : Z
}.

(** The number of entries of [instructions[]]. *)
Definition instruction_count : Z := 15.

(** The loop [for (int i = 0; i < height; i++)] of [update_code], as far
    as addresses, line numbers and the highlight go.  [maxy] is what
    [getmaxy] returns; [/] on [int] truncates. *)
Definition update_code (maxy : Z) (c : Tui.debugger_ctx_t) : list code_line :=
  let height := int32 (maxy - 3) in
  let half := Z.quot height 2 in
  let base_addr :=
    u64 (Tui.current_addr c - int32 (int32 (half - Tui.code_scroll_pos c) * 4)) in
  let current_line := int32 (int32 (half + 1) + Tui.code_scroll_pos c) in
  map (fun n =>
         let i := Z.of_nat n in
         let addr := u64 (base_addr + int32 (i * 4)) in
         {| cl_y := 2 + i; cl_addr := addr;
            cl_line_num := int32 (int32 (current_line - half) + i);
            cl_is_current := addr =? Tui.current_addr c;
            cl_inst_idx := (addr / 4) mod instruction_count |})
      (seq 0 (Z.to_nat height)).

(** The truncation of the text of a code line: [addr_inst] is the
    buffer [snprintf] filled, [remaining_width] the room on the window.
    [None] when nothing is printed. *)
Definition truncate_line (addr_inst : list ascii) (remaining_width : Z)
  : outcome (option (list ascii)) :=
  if 0 <? remaining_width then
    match c_strlen addr_inst with
    | None => Fault
    | Some len =>
        if remaining_width <? Z.of_nat len then
          obind (store_at addr_inst (remaining_width - 3) "."%char) (fun b1 =>
          obind (store_at b1 (remaining_width - 2) "."%char) (fun b2 =>
          obind (store_at b2 (remaining_width - 1) "."%char) (fun b3 =>
          obind (store_at b3 remaining_width Ascii.zero) (fun b4 =>
          Done (Some b4)))))
        else Done (Some addr_inst)
    end
  else Done None.

End Views.

(** ** kernel_debugger_tui.c: teardown *)

Module Teardown.

Inductive op :=
| Join
| Close (fd : Z)
| Munmap (addr size : Z)
| MutexDestroy
| Free (b : Tui.breakpoint_t).

(** [cleanup_debugger]; [event_thread] is the thread handle kept in the
    context. *)
Definition cleanup_debugger (event_thread : Z) (c : Tui.debugger_ctx_t)
  : Tui.debugger_ctx_t * list op :=
  let c := Tui.set_running 0 c in
  (c,
   (if negb (event_thread =? 0) then [Join] else []) ++
   (if 0 <=? Tui.bpf_fd c then [Close (Tui.bpf_fd c)] else []) ++
   (if 0 <=? Tui.perf_fd c then [Close (Tui.perf_fd c)] else []) ++
   (if negb (Tui.perf_mmap c =? 0)
    then [Munmap (Tui.perf_mmap c) (Tui.perf_mmap_size c)] else []) ++
   [MutexDestroy] ++
   map Free (Tui.breakpoints c)).

End Teardown.

(** ** Vocabulary of the further statements *)

(** The firing passes the gate of [send_debug_event]. *)
Definition traced (f : Probe.probe_id * Probe.helpers) : bool :=
  Probe.should_trace_process (snd f) (Probe.control_map_lookup (snd f)) =? 1.

(** [e] is the record that a traced firing [f] emits: the name and the
    kind are those of the probe that fired, the identifiers and the time
    are what the helpers returned at the firing. *)
Definition probe_record (f : Probe.probe_id * Probe.helpers) (e : Probe.debug_event) : Prop :=
  Probe.function_name e = padded_name (probe_name (fst f)) /\
  Probe.event_type e = Probe.event_code (probe_kind (fst f)) /\
  Probe.instruction_pointer e = 0 /\
  Probe.pid e = Probe.current_pid (snd f) /\
  Probe.timestamp e = u64 (Probe.ktime_get_ns (snd f)).

(** The records a sequence of firings adds to the perf buffer. *)
Definition records_of (firings : list (Probe.probe_id * Probe.helpers))
  : list Probe.debug_event :=
  flat_map (fun '(p, h) =>
              if Probe.should_trace_process h (Probe.control_map_lookup h) =? 1
              then [Probe.build_event h (Probe.event_code (probe_kind p))
                      (padded_name (probe_name p))]
              else []) firings.

(** Every step of [load_bpf_program] succeeds. *)
Definition load_ok (inp : Tui.input) : bool :=
  (0 <=? Tui.open_fd inp) && (0 <=? Tui.fstat_rc inp) && Tui.mmap_ok inp &&
  (0 <=? Tui.prog_load_fd inp).

(** The object file got mapped. *)
Definition mapped (inp : Tui.input) : bool :=
  (0 <=? Tui.open_fd inp) && (0 <=? Tui.fstat_rc inp) && Tui.mmap_ok inp.

(** The members of the context no key changes. *)
Definition untouched_by_keys (c : Tui.debugger_ctx_t) :=
  (Tui.perf_fd c, Tui.perf_mmap c, Tui.perf_mmap_size c, Tui.regs c, Tui.breakpoints c,
   Tui.current_function c, Tui.current_addr c, Tui.mouse_enabled c,
   (Tui.reg_scroll_pos c, Tui.var_scroll_pos c, Tui.stack_scroll_pos c,
    Tui.code_scroll_pos c, Tui.mem_scroll_pos c)).

(** Members of the context the event thread does not change: those the
    invariant of the session is about, and four of the registers. *)
Definition untouched_by_events (c : Tui.debugger_ctx_t) :=
  (Tui.state c, Tui.bpf_fd c, Tui.perf_fd c, Tui.bpf_loaded c, Tui.breakpoints c,
   Tui.running c, Tui.mouse_enabled c, Tui.current_focus c,
   (Tui.reg_scroll_pos c, Tui.var_scroll_pos c, Tui.stack_scroll_pos c,
    Tui.code_scroll_pos c, Tui.mem_scroll_pos c),
   (Tui.ra (Tui.regs c), Tui.sp (Tui.regs c), Tui.gp (Tui.regs c), Tui.tp (Tui.regs c))).

(** What holds of the context from [init_debugger] on. *)
Definition session_inv (c : Tui.debugger_ctx_t) : Prop :=
  (Tui.bpf_loaded c = 0 \/ Tui.bpf_loaded c = 1) /\
  (Tui.bpf_loaded c = 1 -> 0 <= Tui.bpf_fd c) /\
  0 <= Tui.current_focus c < Tui.FOCUS_COUNT /\
  (Tui.running c = 0 \/ Tui.running c = 1).

(** The context after a list of keys, one [handle_input] each. *)
Definition after_keys (K : Tui.curses_keys) (inps : list Tui.input) (p : Tui.proc)
  : Tui.proc :=
  fold_left (fun p inp => Tui.exec (Tui.handle_input K inp) p) inps p.

Definition is_call (name : string) (a : Tui.action) : bool :=
  match a with
  | Tui.Call n => String.eqb n name
  | _ => false
  end.

(** A session after [init_debugger]: the two threads take turns in some
    order, the main thread handling one key at a time, the event thread
    running one round of its loop at a time. *)
Inductive session_step :=
| Key (inp : Tui.input)
| Event.

Definition run_session (K : Tui.curses_keys) (steps : list session_step) (p : Tui.proc)
  : Tui.proc :=
  fold_left (fun p s =>
               match s with
               | Key inp => Tui.exec (Tui.handle_input K inp) p
               | Event => Tui.exec Tui.event_thread_iteration p
               end) steps p.

(** The members of the context that neither thread ever stores to. *)
Definition never_stored (c : Tui.debugger_ctx_t) :=
  (Tui.perf_fd c, Tui.perf_mmap c, Tui.perf_mmap_size c, Tui.breakpoints c,
   Tui.mouse_enabled c,
   (Tui.reg_scroll_pos c, Tui.var_scroll_pos c, Tui.stack_scroll_pos c,
    Tui.code_scroll_pos c, Tui.mem_scroll_pos c)).

(** How often a library call occurs in a sequence of actions. *)
Definition calls (name : string) (l : list Tui.action) : nat :=
  length (List.filter (is_call name) l).

(** * Properties *)

(** ** Arrays and C strings *)

Lemma store_Done {A} (buf : list A) (i : nat) (c : A) :
  (i < length buf)%nat -> store buf i c = Done (<[i:=c]> buf).
Proof.
  intros Hi. unfold store.
  destruct (Nat.ltb_spec i (length buf)); [reflexivity | lia].
Qed.

Lemma store_inv {A} (buf buf' : list A) (i : nat) (c : A) :
  store buf i c = Done buf' -> (i < length buf)%nat /\ buf' = <[i:=c]> buf.
Proof.
  unfold store. destruct (Nat.ltb_spec i (length buf)) as [Hlt|Hge]; intros Heq; inversion Heq; auto.
Qed.

Lemma c_strlen_first_nul (buf : list ascii) (n : nat) :
  buf !! n = Some Ascii.zero ->
  (forall j, (j < n)%nat -> exists c, buf !! j = Some c /\ c <> Ascii.zero) ->
  c_strlen buf = Some n.
Proof.
  revert n. induction buf as [|c rest IH]; intros n Hn Hlt.
  - discriminate.
  - destruct n as [|n]; simpl in *.
    + inversion Hn; subst. reflexivity.
    + destruct (Hlt O ltac:(lia)) as (c0 & Hc0 & Hnz). simpl in Hc0. inversion Hc0; subst c0.
      destruct (Ascii.eqb_spec c Ascii.zero) as [->|_]; [congruence|].
      rewrite (IH n Hn); [reflexivity|].
      intros j Hj. apply (Hlt (S j)). lia.
Qed.

Lemma c_strlen_bound (buf : list ascii) (n : nat) :
  c_strlen buf = Some n -> (n < length buf)%nat /\ buf !! n = Some Ascii.zero.
Proof.
  revert n. induction buf as [|c rest IH]; intros n H; simpl in H.
  - discriminate.
  - destruct (Ascii.eqb_spec c Ascii.zero) as [->|_].
    + inversion H; subst. simpl. split; [lia | reflexivity].
    + destruct (c_strlen rest) as [m|] eqn:E; [|discriminate].
      inversion H; subst. destruct (IH m eq_refl) as [H1 H2].
      simpl. split; [lia | exact H2].
Qed.

(** ** The copy loop of [safe_strcpy] *)

Lemma loop_post_stop (src : cptr) (max_len : Z) (st : Probe.copy_state) (new : list nat) :
  Z.of_nat (Probe.cp_i st) <= max_len - 1 ->
  (forall j, In j new ->
     j = Probe.cp_i st /\ Z.of_nat j < max_len - 1 /\ src <> None) ->
  loop_post src max_len st
    {| Probe.cp_i := Probe.cp_i st; Probe.cp_dst := Probe.cp_dst st;
       Probe.cp_reads := Probe.cp_reads st ++ new |}.
Proof.
  intros Hi Hnew. unfold loop_post; cbn.
  split; [lia|]. split; [exact Hi|]. split; [reflexivity|].
  split; [reflexivity|]. split; [intros j Hj; lia|].
  exists new. split; [reflexivity|].
  intros j Hj. destruct (Hnew j Hj) as (-> & H1 & H2). repeat split; auto.
Qed.

Lemma safe_strcpy_loop_spec (src : cptr) (max_len : Z) (fuel : nat) :
  forall st : Probe.copy_state,
    (Z.to_nat (max_len - 1) - Probe.cp_i st < fuel)%nat ->
    Z.of_nat (Probe.cp_i st) <= max_len - 1 ->
    max_len <= Z.of_nat (length (Probe.cp_dst st)) ->
    exists st', Probe.safe_strcpy_loop fuel src max_len st = Done st' /\
                loop_post src max_len st st'.
Proof.
  induction fuel as [|fuel IH]; intros st Hfuel Hi Hlen; [lia|].
  assert (Hstay : loop_post src max_len st st).
  { pose proof (loop_post_stop src max_len st [] Hi) as Hp. rewrite app_nil_r in Hp.
    destruct st; apply Hp. intros j []. }
  cbn [Probe.safe_strcpy_loop].
  destruct (Z.ltb_spec (Z.of_nat (Probe.cp_i st)) (max_len - 1)) as [Hlt|Hge]; cbn [negb].
  2:{ exists st. split; [reflexivity | exact Hstay]. }
  destruct src as [s|].
  2:{ exists st. split; [reflexivity | exact Hstay]. }
  destruct (Ascii.eqb_spec (s (Probe.cp_i st)) Ascii.zero) as [Hz|Hnz].
  - eexists. split; [reflexivity|]. apply loop_post_stop; [exact Hi|].
    intros j [<-|[]]. split; [reflexivity|]. split; [exact Hlt | discriminate].
  - rewrite store_Done by lia. cbn [obind].
    set (st1 := {| Probe.cp_i := S (Probe.cp_i st);
                   Probe.cp_dst := <[Probe.cp_i st:=s (Probe.cp_i st)]> (Probe.cp_dst st);
                   Probe.cp_reads := Probe.cp_reads st ++ [Probe.cp_i st] |}).
    destruct (IH st1) as (st' & Hrun & Hle & Hub & Hlen' & Hout & Hin & new & Hreads & Hnew).
    + cbn. lia.
    + cbn. lia.
    + cbn. rewrite length_insert. lia.
    + exists st'. split; [exact Hrun|]. cbn in *. unfold loop_post.
      rewrite length_insert in Hlen'.
      split; [lia|]. split; [lia|]. split; [exact Hlen'|]. split; [|split].
      * intros j Hj. rewrite Hout by lia. apply list_lookup_insert_ne. lia.
      * intros j Hj. destruct (Nat.eq_dec j (Probe.cp_i st)) as [->|Hne].
        -- exists s. split; [reflexivity|]. split; [|exact Hnz].
           rewrite Hout by lia. apply list_lookup_insert_eq. lia.
        -- apply Hin. lia.
      * exists (Probe.cp_i st :: new). split.
        -- rewrite Hreads. rewrite <- app_assoc. reflexivity.
        -- intros j [<-|Hj].
           ++ split; [lia|]. split; [exact Hlt | discriminate].
           ++ destruct (Hnew j Hj) as (H1 & H2 & H3).
              split; [lia|]. split; [exact H2 | exact H3].
Qed.

(** ** [safe_strcpy] and the name carried by an event *)

Lemma safe_strcpy_spec (dst : list ascii) (src : cptr) (max_len : Z) :
  1 <= max_len -> max_len <= Z.of_nat (length dst) ->
  exists st, Probe.safe_strcpy dst src max_len = Done st /\ copy_post dst src max_len st.
Proof.
  intros Hmax Hlen. unfold Probe.safe_strcpy.
  destruct (safe_strcpy_loop_spec src max_len (S (Z.to_nat (max_len - 1)))
              {| Probe.cp_i := O; Probe.cp_dst := dst; Probe.cp_reads := [] |})
    as (st & Hrun & _ & Hub & Hlen' & Hout & Hin & new & Hreads & Hnew);
    cbn [Probe.cp_i Probe.cp_dst Probe.cp_reads] in *; try lia.
  rewrite Hrun. cbn [obind].
  rewrite store_Done by lia. cbn [obind].
  eexists. split; [reflexivity|].
  unfold copy_post; cbn [Probe.cp_i Probe.cp_dst Probe.cp_reads].
  assert (Hcopied : forall j, (j < Probe.cp_i st)%nat ->
            exists s, src = Some s /\
              <[Probe.cp_i st:=Ascii.zero]> (Probe.cp_dst st) !! j = Some (s j) /\
              s j <> Ascii.zero).
  { intros j Hj. destruct (Hin j ltac:(lia)) as (s & Hs & Hd & Hnz).
    exists s. split; [exact Hs|]. split; [|exact Hnz].
    rewrite list_lookup_insert_ne by lia. exact Hd. }
  split; [exact Hub|]. split; [exact Hcopied|]. split; [|split; [|split; [|split]]].
  - apply c_strlen_first_nul.
    + apply list_lookup_insert_eq. lia.
    + intros j Hj. destruct (Hcopied j Hj) as (s & _ & Hd & Hnz). eauto.
  - rewrite length_insert. exact Hlen'.
  - intros j Hj. rewrite list_lookup_insert_ne by lia. apply Hout. lia.
  - intros ->. destruct new as [|j new]; [rewrite Hreads; reflexivity|].
    destruct (Hnew j (or_introl eq_refl)) as (_ & _ & Habs). congruence.
  - intros s j Hs Hj. rewrite Hreads in Hj. cbn in Hj.
    destruct (Hnew j Hj) as (Hrange & Hlt & _). split; [exact Hlt|].
    intros n Hn. destruct (Nat.le_gt_cases j n) as [|Hgt]; [assumption|].
    destruct (Hin n ltac:(lia)) as (s' & Hs' & _ & Hnz). congruence.
Qed.

(** ** [should_trace_process] and [send_debug_event] *)

Lemma should_trace_process_cases (h : Probe.helpers) (ctrl : option Probe.debugger_control) :
  (Probe.should_trace_process h ctrl = 1 /\
   exists c, ctrl = Some c /\ Probe.tracing_on c /\ Probe.filter_matches h c) \/
  (Probe.should_trace_process h ctrl = 0 /\
   forall c, ctrl = Some c -> ~ (Probe.tracing_on c /\ Probe.filter_matches h c)).
Proof.
  unfold Probe.should_trace_process, Probe.tracing_on, Probe.filter_matches.
  destruct ctrl as [c|]; [|right; split; [reflexivity | intros c; discriminate]].
  destruct (Z.eqb_spec (u8 (Probe.global_enable c)) 0) as [Hoff|Hon].
  { right. split; [reflexivity|]. intros c' [= <-] [Hne _]. contradiction. }
  destruct (Z.eqb_spec (u32 (Probe.target_pid c)) 0) as [Hall|Hsome]; cbn [orb].
  { left. split; [reflexivity|]. exists c. auto. }
  destruct (Z.eqb_spec (u32 (Probe.target_pid c))
              (u32 (Z.shiftr (Probe.current_pid_tgid h) 32))) as [Hme|Hother].
  { left. split; [reflexivity|]. exists c. auto. }
  right. split; [reflexivity|]. intros c' [= <-] [_ [H0|H1]]; contradiction.
Qed.

(** The two ways a call of [send_debug_event] ends: nothing done, or one
    record handed to the perf buffer. *)
Lemma send_debug_event_cases (h : Probe.helpers) (et : Z) (func_name : cptr) (w : Probe.world) :
  (Probe.should_trace_process h (Probe.control_map_lookup h) = 0 /\
   Probe.send_debug_event h et func_name w = Done w) \/
  (Probe.should_trace_process h (Probe.control_map_lookup h) = 1 /\
   exists name, name_ok name /\
     Probe.send_debug_event h et func_name w =
       Done (Probe.perf_event_output (Probe.build_event h et name) w)).
Proof.
  unfold Probe.send_debug_event, Probe.get_debugger_control.
  destruct (should_trace_process_cases h (Probe.control_map_lookup h)) as [[-> _]|[-> _]].
  2:{ left. split; reflexivity. }
  right. split; [reflexivity|]. cbn [Z.eqb].
  destruct func_name as [s|].
  - destruct (safe_strcpy_spec (Probe.function_name Probe.zero_event) (Some s)
                Probe.MAX_FUNCTION_NAME) as (st & Hrun & Hub & _ & Hlen & Hsize & _).
    { unfold Probe.MAX_FUNCTION_NAME. lia. }
    { vm_compute. discriminate. }
    rewrite Hrun. cbn [obind].
    exists (Probe.cp_dst st). split; [|reflexivity].
    split; [rewrite Hsize; reflexivity|].
    exists (Probe.cp_i st). split; [exact Hlen|].
    unfold Probe.MAX_FUNCTION_NAME in Hub. lia.
  - cbn [obind]. exists (Probe.function_name Probe.zero_event). split; [|reflexivity].
    split; [reflexivity|]. exists O. split; [reflexivity | lia].
Qed.

(** C5.  For every source pointer, null included, and every capacity
    [max_len >= 1] of the destination, [safe_strcpy] returns without
    fault; it copies at most [max_len - 1] characters, all taken from the
    source and none of them NUL; it reads the source only at offsets
    below [max_len - 1] and never beyond a NUL of the source; the
    destination ends up NUL-terminated right after the copied
    characters.  And whenever [send_debug_event] emits a record, its
    [function_name] is a 64-byte array holding a NUL-terminated string
    of at most 63 characters. *)
Theorem safe_strcpy_bounded_terminated
    (dst : list ascii) (src : cptr) (max_len : Z) :
  1 <= max_len -> max_len <= Z.of_nat (length dst) ->
  (exists st, Probe.safe_strcpy dst src max_len = Done st /\
              copy_post dst src max_len st) /\
  (forall h et w,
     Probe.send_debug_event h et src w = Done w \/
     exists name, name_ok name /\
       Probe.send_debug_event h et src w =
         Done (Probe.perf_event_output (Probe.build_event h et name) w)).
Proof.
  intros Hmax Hlen. split.
  - apply safe_strcpy_spec; assumption.
  - intros h et w. destruct (send_debug_event_cases h et src w) as [[_ H]|[_ H]]; auto.
Qed.

Lemma safe_strcpy_bounded_terminated_witness :
  1 <= 4 /\ 4 <= Z.of_nat (length (replicate 4 "x"%char)) /\
  ((exists st, Probe.safe_strcpy (replicate 4 "x"%char) (literal "abcdefg") 4 = Done st /\
               copy_post (replicate 4 "x"%char) (literal "abcdefg") 4 st) /\
   (forall h et w,
      Probe.send_debug_event h et (literal "abcdefg") w = Done w \/
      exists name, name_ok name /\
        Probe.send_debug_event h et (literal "abcdefg") w =
          Done (Probe.perf_event_output (Probe.build_event h et name) w))).
Proof.
  assert (H1 : 1 <= 4) by lia.
  assert (H2 : 4 <= Z.of_nat (length (replicate 4 "x"%char))) by (simpl; lia).
  split; [exact H1|]. split; [exact H2|].
  exact (safe_strcpy_bounded_terminated (replicate 4 "x"%char) (literal "abcdefg") 4 H1 H2).
Defined.

Example safe_strcpy_truncates :
  Probe.safe_strcpy (replicate 4 "x"%char) (literal "abcdefg") 4 =
  Done {| Probe.cp_i := 3; Probe.cp_dst := ["a"; "b"; "c"; "000"]%char;
          Probe.cp_reads := [0; 1; 2]%nat |}.
Proof. reflexivity. Qed.

Example safe_strcpy_null_source :
  Probe.safe_strcpy (replicate 4 "x"%char) None 4 =
  Done {| Probe.cp_i := 0; Probe.cp_dst := ["000"; "x"; "x"; "x"]%char;
          Probe.cp_reads := [] |}.
Proof. reflexivity. Qed.

(** ** The stack and local-variable loops of the enhanced probe *)

Lemma read_step {B} (h : Enhanced.helpers) (arr : list (option Z)) (i : nat) (addr : Z)
    (k : list (option Z) -> outcome B) :
  (i < length arr)%nat ->
  obind (Enhanced.probe_read_user_into h arr i addr)
    (fun '(arr1, rc) =>
       obind (if negb (rc =? 0) then store arr1 i (Some 0) else Done arr1) k) =
  k (<[i:=slot_after h addr]> arr).
Proof.
  intros Hi. unfold Enhanced.probe_read_user_into, slot_after.
  destruct (Enhanced.probe_read_user h addr) as [v|].
  - rewrite store_Done by exact Hi. reflexivity.
  - rewrite store_Done by exact Hi. cbn.
    rewrite store_Done by (rewrite length_insert; exact Hi).
    rewrite list_insert_insert_eq. reflexivity.
Qed.

(** The step case of the two read loops. *)
Ltac read_loop_step IH i arr bound Hlen :=
  let arr' := fresh "arr" in
  let Hrun := fresh "Hrun" in
  let Hlen' := fresh "Hlen" in
  let Hin := fresh "Hin" in
  let Hout := fresh "Hout" in
  let j := fresh "j" in
  let Hj := fresh "Hj" in
  rewrite read_step by lia;
  match goal with
  | |- context [<[i:=?slot]> arr] =>
      destruct (IH (S i) (<[i:=slot]> arr)) as (arr' & Hrun & Hlen' & Hin & Hout);
      [ lia | rewrite length_insert; exact Hlen | ]
  end;
  exists arr'; split; [exact Hrun|];
  rewrite length_insert in Hlen';
  replace (Nat.max (S i) bound) with (Nat.max i bound) in * by lia;
  split; [exact Hlen'|]; split;
  [ intros j Hj; destruct (Nat.eq_dec j i) as [->|];
    [ rewrite Hout by lia; apply list_lookup_insert_eq; lia | apply Hin; lia ]
  | intros j Hj; rewrite Hout by lia; apply list_lookup_insert_ne; lia ].

(** The exit case: the array is as it was. *)
Ltac read_loop_exit i arr bound :=
  exists arr; split; [reflexivity|];
  replace (Nat.max i bound) with i by lia;
  split; [reflexivity|]; split; [intros; lia | reflexivity].

Lemma read_user_stack_data_loop_spec (h : Enhanced.helpers) (sp_val count : Z) (fuel : nat) :
  forall (i : nat) (stack : list (option Z)),
    (8 - i < fuel)%nat -> length stack = 8%nat ->
    exists stack',
      Enhanced.read_user_stack_data_loop fuel h sp_val count i stack = Done stack' /\
      filled h (fun j => u64 (sp_val + Z.of_nat j * 8)) i
             (Nat.max i (Z.to_nat (Z.min count 8))) stack stack'.
Proof.
  induction fuel as [|fuel IH]; intros i stack Hfuel Hlen; [lia|].
  cbn [Enhanced.read_user_stack_data_loop].
  destruct (Z.ltb_spec (Z.of_nat i) count) as [Hc|Hc];
    destruct (Z.ltb_spec (Z.of_nat i) 8) as [H8|H8]; cbn [andb negb].
  1: read_loop_step IH i stack (Z.to_nat (Z.min count 8)) Hlen.
  all: read_loop_exit i stack (Z.to_nat (Z.min count 8)).
Qed.

Lemma read_local_variables_loop_spec (h : Enhanced.helpers) (fp count : Z) (fuel : nat) :
  forall (i : nat) (vars : list (option Z)),
    (16 - i < fuel)%nat -> length vars = 16%nat ->
    exists vars',
      Enhanced.read_local_variables_loop fuel h fp count i vars = Done vars' /\
      filled h (fun j => u64 (fp - (Z.of_nat j + 1) * 8)) i
             (Nat.max i (Z.to_nat (Z.min count 16))) vars vars'.
Proof.
  induction fuel as [|fuel IH]; intros i vars Hfuel Hlen; [lia|].
  cbn [Enhanced.read_local_variables_loop].
  destruct (Z.ltb_spec (Z.of_nat i) count) as [Hc|Hc];
    destruct (Z.ltb_spec (Z.of_nat i) 16) as [H16|H16]; cbn [andb negb].
  1: read_loop_step IH i vars (Z.to_nat (Z.min count 16)) Hlen.
  all: read_loop_exit i vars (Z.to_nat (Z.min count 16)).
Qed.

(** ** The enhanced probe *)

Lemma Forall_is_Some_map_Some {A} (l : list A) : Forall is_Some (map Some l).
Proof. apply Forall_map. apply Forall_forall. intros x _. eauto. Qed.

Lemma Forall_is_Some_const {A B} (b : B) (l : list A) :
  Forall is_Some (map (fun _ => Some b) l).
Proof. apply Forall_map. apply Forall_forall. intros x _. eauto. Qed.

Lemma filled_all_Some (h : Enhanced.helpers) (address : nat -> Z) (n : nat)
    (before after : list (option Z)) :
  length before = n -> filled h address 0 n before after ->
  length after = n /\ Forall is_Some after.
Proof.
  intros Hlen (Hlen' & Hin & _). split; [congruence|].
  apply Forall_lookup. intros j x Hj.
  assert (j < n)%nat as Hlt.
  { rewrite <- Hlen, <- Hlen'. apply lookup_lt_is_Some. eauto. }
  rewrite Hin in Hj by lia. inversion Hj. unfold slot_after. eauto.
Qed.

Lemma enhanced_probe_disabled (h : Enhanced.helpers) (ctx : Enhanced.pt_regs)
    (w : Enhanced.world) :
  (forall v, Enhanced.debug_control_lookup h = Some v -> u32 v = 0) ->
  Enhanced.enhanced_breakpoint_probe h ctx w = Done (w, 0).
Proof.
  intros Hoff. unfold Enhanced.enhanced_breakpoint_probe.
  destruct (Enhanced.debug_control_lookup h) as [v|]; [|reflexivity].
  rewrite (Hoff v eq_refl). reflexivity.
Qed.

Lemma enhanced_probe_no_slot (h : Enhanced.helpers) (ctx : Enhanced.pt_regs)
    (w : Enhanced.world) :
  Enhanced.ringbuf_reserve h = false ->
  Enhanced.enhanced_breakpoint_probe h ctx w = Done (w, 0).
Proof.
  intros Hfull. unfold Enhanced.enhanced_breakpoint_probe.
  destruct (Enhanced.debug_control_lookup h) as [v|]; [|reflexivity].
  destruct (u32 v =? 0); [reflexivity|]. rewrite Hfull. reflexivity.
Qed.

Lemma enhanced_probe_emits (h : Enhanced.helpers) (ctx : Enhanced.pt_regs)
    (w : Enhanced.world) (v : Z) :
  Enhanced.debug_control_lookup h = Some v -> u32 v <> 0 ->
  Enhanced.ringbuf_reserve h = true ->
  exists e lines,
    Enhanced.enhanced_breakpoint_probe h ctx w =
      Done ({| Enhanced.ringbuf := Enhanced.ringbuf w ++ [e];
               Enhanced.trace_pipe := Enhanced.trace_pipe w ++ lines |}, 0) /\
    snapshot_of h ctx e.
Proof.
  intros Hlook Hon Hslot. unfold Enhanced.enhanced_breakpoint_probe.
  rewrite Hlook. destruct (Z.eqb_spec (u32 v) 0) as [|_]; [contradiction|].
  rewrite Hslot. cbn [negb]. cbv zeta.
  unfold Enhanced.read_user_stack_data, Enhanced.read_local_variables.
  match goal with
  | |- context [Enhanced.read_user_stack_data_loop 9 h ?s 8 0 ?st] =>
      destruct (read_user_stack_data_loop_spec h s 8 9 0 st)
        as (stack & Hrun & Hstack); [lia | reflexivity |]; rewrite Hrun; cbn [obind];
      pose proof (eq_refl : length st = 8%nat) as Hlen8
  end.
  match goal with
  | |- context [Enhanced.read_local_variables_loop 17 h ?s 16 0 ?st] =>
      destruct (read_local_variables_loop_spec h s 16 17 0 st)
        as (vars & Hrun2 & Hvars); [lia | reflexivity |]; rewrite Hrun2; cbn [obind];
      pose proof (eq_refl : length st = 16%nat) as Hlen16
  end.
  change (Nat.max 0 (Z.to_nat (Z.min 8 8))) with 8%nat in Hstack.
  change (Nat.max 0 (Z.to_nat (Z.min 16 16))) with 16%nat in Hvars.
  destruct (filled_all_Some _ _ _ _ _ Hlen8 Hstack) as [Hl8 Hs8].
  destruct (filled_all_Some _ _ _ _ _ Hlen16 Hvars) as [Hl16 Hs16].
  eexists. eexists. split.
  - unfold Enhanced.printk, Enhanced.ringbuf_submit; cbn.
    rewrite <- app_assoc. reflexivity.
  - unfold snapshot_of, Enhanced.fully_initialized; cbn.
    repeat match goal with |- _ /\ _ => split end; eauto.
    + unfold Enhanced.get_current_comm. apply Forall_is_Some_map_Some.
    + unfold Enhanced.probe_read_str. destruct (Enhanced.probe_read_str_ok h); cbn.
      * repeat econstructor.
      * repeat econstructor.
    + intros r. destruct r; cbn; eauto.
    + intros r Hr. cbn in Hr.
      repeat (destruct Hr as [<-|Hr]; [reflexivity|]). destruct Hr.
    + intros j Hj. destruct Hstack as (_ & Hin & _). apply Hin. lia.
    + intros j Hj. destruct Hvars as (_ & Hin & _). apply Hin. lia.
Qed.

(** ** Probe firings *)

Lemma fire_send (p : Probe.probe_id) (h : Probe.helpers) (w : Probe.world) :
  exists et name,
    Probe.fire p h w =
      obind (Probe.send_debug_event h et name w) (fun w' => Done (w', 0)).
Proof. destruct p; eexists; eexists; reflexivity. Qed.

Lemma fire_off (p : Probe.probe_id) (h : Probe.helpers) (w : Probe.world) :
  Probe.should_trace_process h (Probe.control_map_lookup h) = 0 ->
  Probe.fire p h w = Done (w, 0).
Proof.
  intros Hoff. destruct (fire_send p h w) as (et & name & ->).
  destruct (send_debug_event_cases h et name w) as [[_ ->]|[Hon _]]; [reflexivity|].
  congruence.
Qed.

Lemma fire_on (p : Probe.probe_id) (h : Probe.helpers) (w : Probe.world) :
  Probe.should_trace_process h (Probe.control_map_lookup h) = 1 ->
  exists e, Probe.fire p h w = Done (Probe.perf_event_output e w, 0) /\
            name_ok (Probe.function_name e).
Proof.
  intros Hon. destruct (fire_send p h w) as (et & name & ->).
  destruct (send_debug_event_cases h et name w) as [[Hoff _]|[_ (n & Hn & ->)]];
    [congruence|].
  exists (Probe.build_event h et n). split; [reflexivity | exact Hn].
Qed.

(** C2, as the specification states it for the enhanced probe, fails:
    with tracing enabled and no reservation to be had, the probe emits
    nothing. *)
Lemma enabled_probe_without_slot_is_silent :
  Enhanced.enabled_in probe_env_full /\
  ~ Enhanced.emits probe_env_full trap_context Enhanced.empty_world.
Proof.
  split.
  - exists 1. split; [reflexivity | discriminate].
  - intros (w' & rc & e & Hrun & Hrb).
    rewrite enhanced_probe_no_slot in Hrun by reflexivity.
    inversion Hrun; subst. cbn in Hrb. discriminate.
Qed.

(** C2, amended.  A probe built on [send_debug_event] returns at once
    and leaves everything as it was when [global_enable] is false or the
    target process is set and is not the current one; when
    [global_enable] is true and the filter matches it hands one record
    to the perf buffer.  [enhanced_breakpoint_probe] returns at once and
    leaves everything as it was when its control word is 0; when the
    word is not 0 it submits one record if the ring buffer grants a slot
    and does nothing at all if it does not. *)
Theorem probe_gate :
  (forall p h w c,
     Probe.control_map_lookup h = Some c -> Probe.filtered_out h c ->
     Probe.fire p h w = Done (w, 0)) /\
  (forall p h w c,
     Probe.control_map_lookup h = Some c ->
     Probe.tracing_on c -> Probe.filter_matches h c ->
     exists e, Probe.fire p h w = Done (Probe.perf_event_output e w, 0)) /\
  (forall h ctx w v,
     Enhanced.debug_control_lookup h = Some v -> u32 v = 0 ->
     Enhanced.enhanced_breakpoint_probe h ctx w = Done (w, 0)) /\
  (forall h ctx w v,
     Enhanced.debug_control_lookup h = Some v -> u32 v <> 0 ->
     Enhanced.ringbuf_reserve h = true ->
     exists e lines,
       Enhanced.enhanced_breakpoint_probe h ctx w =
         Done ({| Enhanced.ringbuf := Enhanced.ringbuf w ++ [e];
                  Enhanced.trace_pipe := Enhanced.trace_pipe w ++ lines |}, 0)) /\
  (forall h ctx w,
     Enhanced.ringbuf_reserve h = false ->
     Enhanced.enhanced_breakpoint_probe h ctx w = Done (w, 0)).
Proof.
  split; [|split; [|split; [|split]]].
  - intros p h w c Hlook Hout. apply fire_off.
    destruct (should_trace_process_cases h (Probe.control_map_lookup h))
      as [[_ (c' & Hc' & Hon & Hmatch)]|[Hoff _]]; [|exact Hoff].
    rewrite Hlook in Hc'. inversion Hc'; subst c'.
    unfold Probe.filtered_out, Probe.tracing_on, Probe.filter_matches, Probe.current_pid in *.
    destruct Hout as [Hdis|[Hset Hdiff]]; [contradiction|].
    destruct Hmatch; contradiction.
  - intros p h w c Hlook Hon Hmatch.
    destruct (should_trace_process_cases h (Probe.control_map_lookup h))
      as [[Hone _]|[_ Hnot]].
    + destruct (fire_on p h w Hone) as (e & He & _). eauto.
    + exfalso. apply (Hnot c Hlook). auto.
  - intros h ctx w v Hlook Hoff. apply enhanced_probe_disabled.
    intros v' Hv'. congruence.
  - intros h ctx w v Hlook Hon Hslot.
    destruct (enhanced_probe_emits h ctx w v Hlook Hon Hslot) as (e & lines & Hrun & _).
    eauto.
  - intros h ctx w Hfull. apply enhanced_probe_no_slot. exact Hfull.
Qed.

Lemma probe_gate_witness :
  Probe.fire Probe.P_kmalloc_entry helpers_off Probe.empty_world =
    Done (Probe.empty_world, 0) /\
  (exists e, Probe.fire Probe.P_kmalloc_exit helpers_on Probe.empty_world =
               Done (Probe.perf_event_output e Probe.empty_world, 0)) /\
  Enhanced.enhanced_breakpoint_probe probe_env_off trap_context Enhanced.empty_world =
    Done (Enhanced.empty_world, 0) /\
  (exists e lines,
     Enhanced.enhanced_breakpoint_probe probe_env_on trap_context Enhanced.empty_world =
       Done ({| Enhanced.ringbuf := [] ++ [e]; Enhanced.trace_pipe := [] ++ lines |}, 0)) /\
  Enhanced.enhanced_breakpoint_probe probe_env_full trap_context Enhanced.empty_world =
    Done (Enhanced.empty_world, 0).
Proof.
  destruct probe_gate as (H1 & H2 & H3 & H4 & H5).
  split; [|split; [|split; [|split]]].
  - apply (H1 Probe.P_kmalloc_entry helpers_off Probe.empty_world control_off eq_refl).
    left. unfold Probe.tracing_on. vm_compute. intros H; apply H; reflexivity.
  - apply (H2 Probe.P_kmalloc_exit helpers_on Probe.empty_world control_on eq_refl).
    + vm_compute. discriminate.
    + left. reflexivity.
  - apply (H3 probe_env_off trap_context Enhanced.empty_world 0 eq_refl). reflexivity.
  - apply (H4 probe_env_on trap_context Enhanced.empty_world 1 eq_refl).
    + vm_compute. discriminate.
    + reflexivity.
  - apply (H5 probe_env_full trap_context Enhanced.empty_world). reflexivity.
Defined.

(** The return probe of the template does not look at the control map:
    it writes its trace line at every firing and never touches the ring
    buffer. *)
Lemma return_probe_always_prints (h : Enhanced.helpers) (ctx : Enhanced.pt_regs)
    (w : Enhanced.world) :
  exists line,
    Enhanced.enhanced_trace_function_return h ctx w =
      Done ({| Enhanced.ringbuf := Enhanced.ringbuf w;
               Enhanced.trace_pipe := Enhanced.trace_pipe w ++ [line] |}, 0).
Proof. eexists. reflexivity. Qed.

(** C6.  Every firing of the enhanced probe returns, and a record it
    submits has every member stored to: [tp], [a6], [a7], [t0]-[t2], [s0]
    and [s1] hold 0, each of the 8 stack slots and 16 local-variable
    slots holds the value read from user memory or 0 when that read
    failed. *)
Theorem emitted_event_fully_initialized
    (h : Enhanced.helpers) (ctx : Enhanced.pt_regs) (w : Enhanced.world) :
  exists w' new,
    Enhanced.enhanced_breakpoint_probe h ctx w = Done (w', 0) /\
    Enhanced.ringbuf w' = Enhanced.ringbuf w ++ new /\
    Forall (snapshot_of h ctx) new.
Proof.
  destruct (Enhanced.debug_control_lookup h) as [v|] eqn:Hlook.
  2:{ exists w, []. rewrite enhanced_probe_disabled by (intros v; congruence).
      rewrite app_nil_r. auto. }
  destruct (Z.eq_dec (u32 v) 0) as [Hoff|Hon].
  { exists w, []. rewrite enhanced_probe_disabled by (intros v'; congruence).
    rewrite app_nil_r. auto. }
  destruct (Enhanced.ringbuf_reserve h) eqn:Hslot.
  - destruct (enhanced_probe_emits h ctx w v Hlook Hon Hslot) as (e & lines & Hrun & He).
    eexists. exists [e]. split; [exact Hrun|]. split; [reflexivity|].
    constructor; [exact He | constructor].
  - exists w, []. rewrite enhanced_probe_no_slot by exact Hslot.
    rewrite app_nil_r. auto.
Qed.

Example failed_reads_are_zeroed :
  exists w' e,
    Enhanced.enhanced_breakpoint_probe probe_env_on trap_context Enhanced.empty_world =
      Done (w', 0) /\
    Enhanced.ringbuf w' = [e] /\
    Enhanced.stack_data e =
      [Some 4096; Some 0; Some 4112; Some 0; Some 4128; Some 0; Some 4144; Some 0] /\
    map (Enhanced.regs e) Enhanced.unreadable_regs = replicate 8 (Some 0).
Proof. eexists. eexists. vm_compute. auto. Qed.

(** C7, as the specification states it, fails: nothing the probe can
    reach counts the reservations that failed. *)
Lemma no_drop_counter : ~ exists drops, Enhanced.counts_drops drops.
Proof.
  intros (drops & Hcount).
  destruct (Hcount probe_env_full trap_context Enhanced.empty_world 1 eq_refl)
    as (w' & rc & Hrun & Hinc).
  - vm_compute. discriminate.
  - reflexivity.
  - rewrite enhanced_probe_no_slot in Hrun by reflexivity.
    inversion Hrun; subst. lia.
Qed.

(** C7, amended.  When the ring buffer grants no slot the probe returns
    0 at that point, in one pass, and the ring buffer and the trace pipe
    are exactly as they were: the record is dropped and nothing else
    happens. *)
Theorem failed_reservation_drops_silently
    (h : Enhanced.helpers) (ctx : Enhanced.pt_regs) (w : Enhanced.world) :
  Enhanced.ringbuf_reserve h = false ->
  Enhanced.enhanced_breakpoint_probe h ctx w = Done (w, 0).
Proof. apply enhanced_probe_no_slot. Qed.

Lemma failed_reservation_drops_silently_witness :
  Enhanced.ringbuf_reserve probe_env_full = false /\
  Enhanced.enhanced_breakpoint_probe probe_env_full trap_context Enhanced.empty_world =
    Done (Enhanced.empty_world, 0).
Proof.
  split; [reflexivity|].
  exact (failed_reservation_drops_silently probe_env_full trap_context
           Enhanced.empty_world eq_refl).
Defined.

(** C10.  When the lookup in the control map finds no entry, every probe
    behaves as it does with tracing switched off: the probes built on
    [send_debug_event] and the enhanced probe return 0 and change
    nothing, the same result they give for an entry whose enable flag is
    0; the return probe of the template never emits a record or
    reserves a slot in the first place. *)
Theorem missing_control_entry_disables :
  (forall p h w,
     Probe.control_map_lookup h = None -> Probe.fire p h w = Done (w, 0)) /\
  (forall p h w c,
     Probe.control_map_lookup h = Some c -> u8 (Probe.global_enable c) = 0 ->
     Probe.fire p h w = Done (w, 0)) /\
  (forall h ctx w,
     Enhanced.debug_control_lookup h = None ->
     Enhanced.enhanced_breakpoint_probe h ctx w = Done (w, 0)) /\
  (forall h ctx w v,
     Enhanced.debug_control_lookup h = Some v -> u32 v = 0 ->
     Enhanced.enhanced_breakpoint_probe h ctx w = Done (w, 0)) /\
  (forall h ctx w,
     exists w', Enhanced.enhanced_trace_function_return h ctx w = Done (w', 0) /\
                Enhanced.ringbuf w' = Enhanced.ringbuf w).
Proof.
  split; [|split; [|split; [|split]]].
  - intros p h w Hnone. apply fire_off. rewrite Hnone. reflexivity.
  - intros p h w c Hlook Hoff. apply fire_off. rewrite Hlook.
    unfold Probe.should_trace_process. rewrite Hoff. reflexivity.
  - intros h ctx w Hnone. apply enhanced_probe_disabled. intros v; congruence.
  - intros h ctx w v Hlook Hoff. apply enhanced_probe_disabled. intros v'; congruence.
  - intros h ctx w. eexists. split; reflexivity.
Qed.

Lemma missing_control_entry_disables_witness :
  Probe.fire Probe.P_generic_kprobe helpers_none Probe.empty_world =
    Done (Probe.empty_world, 0) /\
  Probe.fire Probe.P_generic_kprobe helpers_off Probe.empty_world =
    Done (Probe.empty_world, 0) /\
  Enhanced.enhanced_breakpoint_probe probe_env_none trap_context Enhanced.empty_world =
    Done (Enhanced.empty_world, 0) /\
  Enhanced.enhanced_breakpoint_probe probe_env_off trap_context Enhanced.empty_world =
    Done (Enhanced.empty_world, 0).
Proof.
  destruct missing_control_entry_disables as (H1 & H2 & H3 & H4 & _).
  split; [|split; [|split]].
  - exact (H1 Probe.P_generic_kprobe helpers_none Probe.empty_world eq_refl).
  - exact (H2 Probe.P_generic_kprobe helpers_off Probe.empty_world control_off
             eq_refl eq_refl).
  - exact (H3 probe_env_none trap_context Enhanced.empty_world eq_refl).
  - exact (H4 probe_env_off trap_context Enhanced.empty_world 0 eq_refl eq_refl).
Defined.

(** ** The command handler: keys *)

(** Turns [keys_wf K] into the disequalities between case labels and
    evaluates the character constants. *)
Ltac eval_chars :=
  repeat match goal with
         | |- context [Tui.chr ?c] =>
             let v := eval vm_compute in (Tui.chr c) in change (Tui.chr c) with v in *
         | H : context [Tui.chr ?c] |- _ =>
             let v := eval vm_compute in (Tui.chr c) in change (Tui.chr c) with v in *
         end.

Ltac use_keys_wf H :=
  unfold Tui.keys_wf in H; cbn [Tui.case_labels Tui.distinct existsb] in H;
  repeat match goal with
         | Hx : _ && _ = true |- _ => apply andb_prop in Hx; destruct Hx
         | Hx : negb _ = true |- _ => apply negb_true_iff in Hx
         | Hx : _ || _ = false |- _ => apply orb_false_elim in Hx; destruct Hx
         | Hx : (_ =? _) = false |- _ => apply Z.eqb_neq in Hx
         | Hx : false = false |- _ => clear Hx
         | Hx : true = true |- _ => clear Hx
         end;
  eval_chars.

(** Decides the tests of the [switch] once the key is known. *)
Ltac pick_case :=
  repeat match goal with
         | |- context [?a =? ?b] =>
             destruct (Z.eqb_spec a b); try congruence; cbn [orb andb negb]
         end.

Section Keys.
Import Tui.

Variable K : curses_keys.
Hypothesis Hwf : keys_wf K.

Lemma handle_input_continue (inp : input) (p : proc) :
  is_continue K (getch inp) ->
  handle_input K inp p =
    (tt, {| ctx := set_state DEBUG_RUNNING (ctx p); counter := counter p |},
     [Call "getch"; Store F_state]).
Proof using Hwf.
  pose proof Hwf as H. use_keys_wf H.
  unfold is_continue, handle_input. eval_chars.
  intros [->|[->| ->]]; pick_case; reflexivity.
Qed.

Lemma handle_input_step (inp : input) (p : proc) :
  is_step K (getch inp) ->
  handle_input K inp p =
    (tt, {| ctx := set_state DEBUG_STEPPING (ctx p); counter := counter p |},
     [Call "getch"; Store F_state]).
Proof using Hwf.
  pose proof Hwf as H. use_keys_wf H.
  unfold is_step, handle_input. eval_chars.
  intros [->|[->|[->| ->]]]; pick_case; reflexivity.
Qed.

Lemma handle_input_quit (inp : input) (p : proc) :
  is_quit (getch inp) ->
  handle_input K inp p =
    (tt, {| ctx := set_running 0 (ctx p); counter := counter p |},
     [Call "getch"; Store F_running]).
Proof using Hwf.
  pose proof Hwf as H. use_keys_wf H.
  unfold is_quit, handle_input. eval_chars.
  intros [->| ->]; pick_case; reflexivity.
Qed.

Lemma handle_input_set_breakpoint (inp : input) (p : proc) :
  is_set_breakpoint (getch inp) ->
  handle_input K inp p =
    (tt, {| ctx := set_state DEBUG_BREAKPOINT (ctx p); counter := counter p |},
     [Call "getch"; Store F_state]).
Proof using Hwf.
  pose proof Hwf as H. use_keys_wf H.
  unfold is_set_breakpoint, handle_input. eval_chars.
  intros [->| ->]; pick_case; reflexivity.
Qed.

End Keys.

Lemma main_loop_stopped (K : Tui.curses_keys) (inputs : list Tui.input) (p : Tui.proc) :
  Tui.running (Tui.ctx p) = 0 -> Tui.main_loop K inputs p = (tt, p, []).
Proof.
  intros Hstop. destruct inputs as [|inp rest]; [reflexivity|].
  cbn [Tui.main_loop]. unfold mbind, Tui.M_bind, Tui.load. rewrite Hstop. reflexivity.
Qed.

Lemma init_debugger_state (rc : Z) (p : Tui.proc) :
  Tui.state (Tui.ctx (Tui.exec (Tui.init_debugger rc) p)) = Tui.DEBUG_STOPPED /\
  Tui.running (Tui.ctx (Tui.exec (Tui.init_debugger rc) p)) = 1 /\
  Tui.breakpoints (Tui.ctx (Tui.exec (Tui.init_debugger rc) p)) = [].
Proof.
  unfold Tui.exec, Tui.init_debugger.
  destruct (rc =? 0); cbn; auto.
Qed.

(** C3.  [init_debugger] leaves the session in state stopped.  From any
    context, the continue keys (F5, c, C) store running in [state], the
    step keys (F10, F11, s, S) store stepping, and the quit keys (q, Q)
    clear [running], after which the main loop does nothing more; in
    each case the rest of the context is as it was. *)
Theorem session_commands (K : Tui.curses_keys) :
  Tui.keys_wf K ->
  (forall rc p,
     Tui.state (Tui.ctx (Tui.exec (Tui.init_debugger rc) p)) = Tui.DEBUG_STOPPED) /\
  (forall inp p, Tui.is_continue K (Tui.getch inp) ->
     Tui.exec (Tui.handle_input K inp) p =
       {| Tui.ctx := Tui.set_state Tui.DEBUG_RUNNING (Tui.ctx p);
          Tui.counter := Tui.counter p |}) /\
  (forall inp p, Tui.is_step K (Tui.getch inp) ->
     Tui.exec (Tui.handle_input K inp) p =
       {| Tui.ctx := Tui.set_state Tui.DEBUG_STEPPING (Tui.ctx p);
          Tui.counter := Tui.counter p |}) /\
  (forall inp p, Tui.is_quit (Tui.getch inp) ->
     Tui.exec (Tui.handle_input K inp) p =
       {| Tui.ctx := Tui.set_running 0 (Tui.ctx p); Tui.counter := Tui.counter p |} /\
     forall inputs,
       Tui.main_loop K inputs (Tui.exec (Tui.handle_input K inp) p) =
         (tt, Tui.exec (Tui.handle_input K inp) p, [])).
Proof.
  intros Hwf. split; [|split; [|split]].
  - intros rc p. apply init_debugger_state.
  - intros inp p Hk. unfold Tui.exec. rewrite (handle_input_continue K Hwf) by exact Hk.
    reflexivity.
  - intros inp p Hk. unfold Tui.exec. rewrite (handle_input_step K Hwf) by exact Hk.
    reflexivity.
  - intros inp p Hk. unfold Tui.exec. rewrite (handle_input_quit K Hwf) by exact Hk.
    split; [reflexivity|]. intros inputs. apply main_loop_stopped. reflexivity.
Qed.

Lemma session_commands_witness :
  Tui.keys_wf Tui.ncurses_keys /\
  Tui.state (Tui.ctx (Tui.exec (Tui.init_debugger 0) Tui.blank)) = Tui.DEBUG_STOPPED /\
  Tui.state (Tui.ctx (Tui.exec (Tui.handle_input Tui.ncurses_keys (Tui.key 269))
                        Tui.started)) = Tui.DEBUG_RUNNING /\
  Tui.state (Tui.ctx (Tui.exec (Tui.handle_input Tui.ncurses_keys (Tui.key (Tui.chr "s")))
                        Tui.started)) = Tui.DEBUG_STEPPING /\
  Tui.running (Tui.ctx (Tui.exec (Tui.handle_input Tui.ncurses_keys (Tui.key (Tui.chr "q")))
                          Tui.started)) = 0.
Proof.
  assert (Hwf : Tui.keys_wf Tui.ncurses_keys) by reflexivity.
  destruct (session_commands Tui.ncurses_keys Hwf) as (H1 & H2 & H3 & H4).
  split; [exact Hwf|]. split; [apply H1|]. split; [|split].
  - rewrite (H2 (Tui.key 269) Tui.started); [reflexivity|]. left. reflexivity.
  - rewrite (H3 (Tui.key (Tui.chr "s")) Tui.started); [reflexivity|].
    right. right. left. reflexivity.
  - destruct (H4 (Tui.key (Tui.chr "q")) Tui.started) as [-> _]; [|reflexivity].
    left. reflexivity.
Defined.

(** ** What no command touches: the breakpoint list and the control map *)

Lemma quiet_ret {A} (a : A) : quiet (mret a : Tui.M A).
Proof. intros p. split; reflexivity. Qed.

Lemma quiet_bind {A B} (m : Tui.M A) (f : A -> Tui.M B) :
  quiet m -> (forall a, quiet (f a)) -> quiet (m ≫= f).
Proof.
  intros Hm Hf p. specialize (Hm p).
  unfold Tui.exec, Tui.log_of, mbind, Tui.M_bind in *.
  destruct (m p) as [[a p1] l1]. specialize (Hf a p1).
  unfold Tui.exec, Tui.log_of in Hf.
  destruct (f a p1) as [[b p2] l2]. cbn in *.
  destruct Hm as [Hm1 Hm2], Hf as [Hf1 Hf2]. split; [congruence|].
  intros c. rewrite fold_left_app, Hm2. apply Hf2.
Qed.

Lemma quiet_modify (f : Tui.field) (upd : Tui.debugger_ctx_t -> Tui.debugger_ctx_t) :
  (forall c, Tui.breakpoints (upd c) = Tui.breakpoints c) -> quiet (Tui.modify f upd).
Proof. intros Hupd p. split; [apply Hupd | reflexivity]. Qed.

Lemma quiet_load {A} (proj : Tui.debugger_ctx_t -> A) : quiet (Tui.load proj).
Proof. intros p. split; reflexivity. Qed.

Lemma quiet_call (name : string) : quiet (Tui.call name).
Proof. intros p. split; reflexivity. Qed.

Lemma quiet_lock : quiet Tui.lock.
Proof. intros p. split; reflexivity. Qed.

Lemma quiet_unlock : quiet Tui.unlock.
Proof. intros p. split; reflexivity. Qed.

Lemma quiet_prog_load : quiet (Tui.sys_bpf Tui.BPF_PROG_LOAD).
Proof. intros p. split; reflexivity. Qed.

Lemma quiet_skip : quiet Tui.skip.
Proof. apply quiet_ret. Qed.

Lemma quiet_incr_counter : quiet Tui.incr_counter.
Proof. intros p. split; reflexivity. Qed.

Create HintDb quiet.
#[local] Hint Resolve quiet_ret quiet_load quiet_call quiet_lock quiet_unlock
  quiet_prog_load quiet_skip quiet_incr_counter : quiet.

Ltac quiet_step :=
  match goal with
  | |- quiet (if ?b then _ else _) => destruct b
  | |- quiet (_ ≫= _) => apply quiet_bind; [|intros ?]
  | |- quiet (Tui.modify _ _) => apply quiet_modify; intros ?; reflexivity
  | |- quiet _ => solve [auto with quiet]
  end.

Lemma quiet_switch_window_focus (new_focus : Z) : quiet (Tui.switch_window_focus new_focus).
Proof. unfold Tui.switch_window_focus. repeat quiet_step. Qed.

Lemma quiet_update_all_windows : quiet Tui.update_all_windows.
Proof. unfold Tui.update_all_windows. repeat quiet_step. Qed.

Lemma quiet_load_bpf_program (inp : Tui.input) : quiet (Tui.load_bpf_program inp).
Proof. unfold Tui.load_bpf_program. repeat quiet_step. Qed.

#[local] Hint Resolve quiet_switch_window_focus quiet_update_all_windows
  quiet_load_bpf_program : quiet.






(** ** The event thread *)

Ltac run_m :=
  unfold Tui.exec, Tui.log_of, mbind, Tui.M_bind, mret, Tui.M_ret, Tui.skip,
    Tui.modify, Tui.load, Tui.call, Tui.lock, Tui.unlock, Tui.incr_counter;
  cbn.


Lemma exec_bind {A B} (m : Tui.M A) (f : A -> Tui.M B) (p : Tui.proc) :
  Tui.exec (m ≫= f) p = Tui.exec (f (fst (fst (m p)))) (Tui.exec m p).
Proof.
  unfold Tui.exec, mbind, Tui.M_bind.
  destruct (m p) as [[a p1] l1]. cbn. destruct (f a p1) as [[b p2] l2]. reflexivity.
Qed.


(** The event thread does all its stores with the lock held. *)
Lemma event_iteration_disciplined (p : Tui.proc) :
  Tui.disciplined false (Tui.log_of Tui.event_thread_iteration p) = true.
Proof.
  unfold Tui.event_thread_iteration. run_m.
  destruct (Tui.debug_state_eqb (Tui.state (Tui.ctx p)) Tui.DEBUG_RUNNING); cbn;
    [|reflexivity].
  destruct (Z.rem _ 10 =? 0); cbn; [reflexivity|].
  destruct (Z.rem _ 7 =? 0); reflexivity.
Qed.




Example event_advances_pc :
  Tui.current_addr (Tui.ctx (Tui.exec Tui.event_thread_iteration Tui.started)) =
    0xffffffff80000004 /\
  Tui.log_of Tui.event_thread_iteration Tui.started =
    [Tui.Call "usleep"; Tui.Lock; Tui.Store Tui.F_regs; Tui.Store Tui.F_current_addr;
     Tui.Unlock].
Proof. split; reflexivity. Qed.

(** ** The session lock in the command handler *)

(** C8 on the code: the continue, step and set-breakpoint keys store to
    [state] and return without ever taking [data_mutex]; the sequence of
    actions breaks the lock discipline that the event thread follows. *)
Theorem commands_store_without_lock (K : Tui.curses_keys) (inp : Tui.input) (p : Tui.proc) :
  Tui.keys_wf K ->
  Tui.is_continue K (Tui.getch inp) \/ Tui.is_step K (Tui.getch inp) \/
  Tui.is_set_breakpoint (Tui.getch inp) ->
  Tui.log_of (Tui.handle_input K inp) p = [Tui.Call "getch"; Tui.Store Tui.F_state] /\
  existsb Tui.is_lock (Tui.log_of (Tui.handle_input K inp) p) = false /\
  Tui.disciplined false (Tui.log_of (Tui.handle_input K inp) p) = false.
Proof.
  intros Hwf Hk. unfold Tui.log_of.
  destruct Hk as [Hk|[Hk|Hk]].
  - rewrite (handle_input_continue K Hwf) by exact Hk. repeat split.
  - rewrite (handle_input_step K Hwf) by exact Hk. repeat split.
  - rewrite (handle_input_set_breakpoint K Hwf) by exact Hk. repeat split.
Qed.

Lemma commands_store_without_lock_witness :
  Tui.keys_wf Tui.ncurses_keys /\
  Tui.is_continue Tui.ncurses_keys (Tui.getch (Tui.key (Tui.chr "c"))) /\
  Tui.log_of (Tui.handle_input Tui.ncurses_keys (Tui.key (Tui.chr "c"))) Tui.started =
    [Tui.Call "getch"; Tui.Store Tui.F_state] /\
  Tui.disciplined false
    (Tui.log_of (Tui.handle_input Tui.ncurses_keys (Tui.key (Tui.chr "c"))) Tui.started) =
    false.
Proof.
  assert (Hwf : Tui.keys_wf Tui.ncurses_keys) by reflexivity.
  assert (Hk : Tui.is_continue Tui.ncurses_keys (Tui.getch (Tui.key (Tui.chr "c"))))
    by (right; left; reflexivity).
  destruct (commands_store_without_lock Tui.ncurses_keys (Tui.key (Tui.chr "c"))
              Tui.started Hwf (or_introl Hk)) as (H1 & _ & H3).
  split; [exact Hwf|]. split; [exact Hk|]. split; [exact H1 | exact H3].
Defined.

(** On a terminal resize the handler redraws through
    [update_all_windows], which holds the lock for the whole redraw. *)
Example resize_redraws_under_lock :
  Tui.log_of (Tui.handle_input Tui.ncurses_keys (Tui.key 410)) Tui.started =
    [Tui.Call "getch"; Tui.Call "endwin"; Tui.Call "refresh"; Tui.Call "clear";
     Tui.Lock; Tui.Call "update_status"; Tui.Call "update_registers";
     Tui.Call "update_variables"; Tui.Call "update_stack"; Tui.Call "update_memory";
     Tui.Call "update_code"; Tui.Call "update_command"; Tui.Call "update_panels";
     Tui.Call "doupdate"; Tui.Unlock].
Proof. reflexivity. Qed.

(** ** Scrolling *)

Lemma clamp_nonneg (x : Z) : 0 <= clamp x.
Proof. unfold clamp. destruct (Z.ltb_spec (int32 x) 0); lia. Qed.

(** The context [handle_window_scroll] leaves, in one expression. *)
Lemma handle_window_scroll_ctx (direction : Z) (p : Tui.proc) :
  Tui.ctx (Tui.exec (Tui.handle_window_scroll direction) p) =
    let c := Tui.ctx p in
    if Tui.current_focus c =? Tui.FOCUS_REGISTERS
    then Tui.set_reg_scroll_pos (clamp (Tui.reg_scroll_pos c + direction)) c
    else if Tui.current_focus c =? Tui.FOCUS_VARIABLES
    then Tui.set_var_scroll_pos (clamp (Tui.var_scroll_pos c + direction)) c
    else if Tui.current_focus c =? Tui.FOCUS_STACK
    then Tui.set_stack_scroll_pos (clamp (Tui.stack_scroll_pos c + direction)) c
    else if Tui.current_focus c =? Tui.FOCUS_CODE
    then Tui.set_code_scroll_pos (clamp (Tui.code_scroll_pos c + direction)) c
    else if Tui.current_focus c =? Tui.FOCUS_MEMORY
    then Tui.set_mem_scroll_pos (clamp (Tui.mem_scroll_pos c + direction)) c
    else c.
Proof.
  destruct p as [c n]. unfold Tui.handle_window_scroll, clamp. run_m.
  repeat match goal with
         | |- context [Tui.current_focus c =? ?k] =>
             destruct (Tui.current_focus c =? k)
         end;
    cbn;
    repeat match goal with
           | |- context [int32 ?x <? 0] => destruct (int32 x <? 0)
           end;
    reflexivity.
Qed.

(** C9.  [handle_window_scroll] adds the direction to the cursor of the
    focused view, as an [int], and puts the cursor at 0 when the sum is
    below 0: whatever the focus, the direction and the cursors before
    the call, the cursor of the focused view is 0 or above after it; it
    is 0 when cursor + direction is negative and cursor + direction
    otherwise (for a sum that is an [int]).  The cursor of every other
    view is what it was, and the focus does not move. *)
Theorem scroll_cursor_clamped (direction : Z) (p : Tui.proc) (view : Z) :
  let c := Tui.ctx p in
  let c' := Tui.ctx (Tui.exec (Tui.handle_window_scroll direction) p) in
  (view = Tui.current_focus c ->
     forall x, Tui.scroll_cursor view c' = Some x -> 0 <= x) /\
  (view = Tui.current_focus c ->
     forall x0, Tui.scroll_cursor view c = Some x0 ->
       Tui.scroll_cursor view c' =
         Some (if int32 (x0 + direction) <? 0 then 0 else int32 (x0 + direction)) /\
       (- 2 ^ 31 <= x0 + direction < 0 -> Tui.scroll_cursor view c' = Some 0) /\
       (0 <= x0 + direction < 2 ^ 31 ->
        Tui.scroll_cursor view c' = Some (x0 + direction))) /\
  (view <> Tui.current_focus c -> Tui.scroll_cursor view c' = Tui.scroll_cursor view c) /\
  Tui.current_focus c' = Tui.current_focus c.
Proof.
  cbv zeta.
  assert (Hclamp : forall x0,
            (- 2 ^ 31 <= x0 + direction < 0 -> clamp (x0 + direction) = 0) /\
            (0 <= x0 + direction < 2 ^ 31 -> clamp (x0 + direction) = x0 + direction)).
  { intros x0. unfold clamp, int32, swrap. change (2 ^ (32 - 1)) with (2 ^ 31).
    split; intros Hr; rewrite Z.mod_small by lia;
      destruct (Z.ltb_spec (x0 + direction + 2 ^ 31 - 2 ^ 31) 0); lia. }
  rewrite handle_window_scroll_ctx. cbv zeta.
  unfold Tui.scroll_cursor, Tui.FOCUS_REGISTERS, Tui.FOCUS_VARIABLES, Tui.FOCUS_STACK,
    Tui.FOCUS_CODE, Tui.FOCUS_MEMORY.
  generalize (Tui.ctx p). intros c.
  split; [|split; [|split]].
  - intros -> x.
    repeat match goal with
           | |- context [Tui.current_focus c =? ?k] =>
               destruct (Z.eqb_spec (Tui.current_focus c) k)
           end; cbn; try congruence;
      intros [= <-]; apply clamp_nonneg.
  - intros -> x0.
    repeat match goal with
           | |- context [Tui.current_focus c =? ?k] =>
               destruct (Z.eqb_spec (Tui.current_focus c) k)
           end; cbn; try congruence;
      (intros [= Hx0]; destruct (Hclamp x0) as [Hneg Hpos]; subst x0;
       split; [reflexivity|]; split; intros Hr; f_equal;
       [exact (Hneg Hr) | exact (Hpos Hr)]).
  - intros Hne.
    repeat match goal with
           | |- context [Tui.current_focus c =? ?k] =>
               destruct (Z.eqb_spec (Tui.current_focus c) k)
           end;
      repeat match goal with
             | |- context [view =? ?k] => destruct (Z.eqb_spec view k)
             end; cbn; congruence.
  - repeat match goal with
           | |- context [Tui.current_focus c =? ?k] =>
               destruct (Z.eqb_spec (Tui.current_focus c) k)
           end; reflexivity.
Qed.

Lemma scroll_cursor_clamped_witness :
  Tui.scroll_cursor Tui.FOCUS_CODE
    (Tui.ctx (Tui.exec (Tui.handle_window_scroll (-3)) Tui.started)) = Some 0 /\
  Tui.scroll_cursor Tui.FOCUS_CODE
    (Tui.ctx (Tui.exec (Tui.handle_window_scroll 4) Tui.started)) = Some 4 /\
  Tui.scroll_cursor Tui.FOCUS_STACK
    (Tui.ctx (Tui.exec (Tui.handle_window_scroll (-3)) Tui.started)) =
  Tui.scroll_cursor Tui.FOCUS_STACK (Tui.ctx Tui.started).
Proof.
  pose proof (scroll_cursor_clamped (-3) Tui.started Tui.FOCUS_CODE) as Hup.
  pose proof (scroll_cursor_clamped 4 Tui.started Tui.FOCUS_CODE) as Hdown.
  pose proof (scroll_cursor_clamped (-3) Tui.started Tui.FOCUS_STACK) as Hother.
  cbv zeta in Hup, Hdown, Hother.
  destruct Hup as (_ & Hup & _). destruct Hdown as (_ & Hdown & _).
  destruct Hother as (_ & _ & Hother & _).
  assert (Hfocus : Tui.FOCUS_CODE = Tui.current_focus (Tui.ctx Tui.started))
    by reflexivity.
  assert (Hcur : Tui.scroll_cursor Tui.FOCUS_CODE (Tui.ctx Tui.started) = Some 0)
    by reflexivity.
  destruct (Hup Hfocus 0 Hcur) as (_ & Hzero & _).
  destruct (Hdown Hfocus 0 Hcur) as (_ & _ & Hsum).
  split; [apply Hzero; vm_compute; split; [discriminate | reflexivity]|].
  split; [apply Hsum; vm_compute; split; [discriminate | reflexivity]|].
  apply Hother. discriminate.
Defined.

Example scroll_down_then_up :
  Tui.code_scroll_pos
    (Tui.ctx (Tui.exec (Tui.handle_window_scroll 5 ;; Tui.handle_window_scroll (-2))
                Tui.started)) = 3.
Proof. reflexivity. Qed.

(** * Further properties *)

(** ** [safe_strcpy]: how much is copied *)

Lemma safe_strcpy_loop_exit (src : cptr) (max_len : Z) (fuel : nat) :
  forall st st' : Probe.copy_state,
    Probe.safe_strcpy_loop fuel src max_len st = Done st' ->
    max_len - 1 <= Z.of_nat (Probe.cp_i st') \/ src = None \/
    exists s, src = Some s /\ s (Probe.cp_i st') = Ascii.zero.
Proof.
  induction fuel as [|fuel IH]; intros st st' Hrun; [discriminate|].
  cbn [Probe.safe_strcpy_loop] in Hrun.
  destruct (Z.ltb_spec (Z.of_nat (Probe.cp_i st)) (max_len - 1)) as [Hlt|Hge];
    cbn [negb] in Hrun.
  2:{ inversion Hrun; subst. left. exact Hge. }
  destruct src as [s|]; [|right; left; reflexivity].
  destruct (Ascii.eqb_spec (s (Probe.cp_i st)) Ascii.zero) as [Hz|Hnz].
  - inversion Hrun; subst. right. right. exists s. split; [reflexivity | exact Hz].
  - destruct (store (Probe.cp_dst st) (Probe.cp_i st) (s (Probe.cp_i st)))
      as [dst'| |]; cbn [obind] in Hrun; try discriminate.
    apply (IH _ _ Hrun).
Qed.

(** X1.  On a source that is a C string of length [n], [safe_strcpy]
    copies exactly the first [min n (max_len - 1)] characters and
    terminates the destination there: a string that fits is copied
    whole, a longer one is cut at [max_len - 1]. *)
Theorem safe_strcpy_copies_prefix
    (dst : list ascii) (s : nat -> ascii) (max_len : Z) (n : nat) :
  1 <= max_len -> max_len <= Z.of_nat (length dst) ->
  s n = Ascii.zero -> (forall j, (j < n)%nat -> s j <> Ascii.zero) ->
  exists st,
    Probe.safe_strcpy dst (Some s) max_len = Done st /\
    Probe.cp_i st = Nat.min n (Z.to_nat (max_len - 1)) /\
    c_strlen (Probe.cp_dst st) = Some (Nat.min n (Z.to_nat (max_len - 1))) /\
    forall j, (j < Nat.min n (Z.to_nat (max_len - 1)))%nat ->
              Probe.cp_dst st !! j = Some (s j).
Proof.
  intros Hmax Hlen Hnul Hbody.
  destruct (safe_strcpy_spec dst (Some s) max_len Hmax Hlen)
    as (st & Hrun & Hub & Hcopied & Hstr & _).
  assert (Hi : Probe.cp_i st = Nat.min n (Z.to_nat (max_len - 1))).
  { assert (Hle : (Probe.cp_i st <= n)%nat).
    { destruct (Nat.le_gt_cases (Probe.cp_i st) n) as [|Hgt]; [assumption|].
      destruct (Hcopied n Hgt) as (s' & [= <-] & _ & Hnz). contradiction. }
    unfold Probe.safe_strcpy in Hrun.
    destruct (Probe.safe_strcpy_loop _ _ _ _) as [st0| |] eqn:Hloop;
      cbn [obind] in Hrun; try discriminate.
    destruct (store _ _ _) as [d| |]; cbn [obind] in Hrun; try discriminate.
    inversion Hrun; subst st. cbn [Probe.cp_i] in *.
    destruct (safe_strcpy_loop_exit _ _ _ _ _ Hloop) as [Hfull|[Hnone|(s' & [= <-] & Hz)]].
    - lia.
    - discriminate.
    - destruct (Nat.lt_ge_cases (Probe.cp_i st0) n) as [Hlt|Hge]; [|lia].
      exfalso. apply (Hbody (Probe.cp_i st0)); [exact Hlt | exact Hz]. }
  exists st. split; [exact Hrun|]. split; [exact Hi|]. rewrite <- Hi.
  split; [exact Hstr|].
  intros j Hj. destruct (Hcopied j Hj) as (s' & [= <-] & Hd & _). exact Hd.
Qed.

Lemma safe_strcpy_copies_prefix_witness :
  exists st,
    Probe.safe_strcpy (replicate 4 "x"%char)
      (Some (fun i => nth i ["a"; "b"; "c"; "d"; "e"]%char Ascii.zero)) 4 = Done st /\
    Probe.cp_i st = 3%nat.
Proof.
  destruct (safe_strcpy_copies_prefix (replicate 4 "x"%char)
              (fun i => nth i ["a"; "b"; "c"; "d"; "e"]%char Ascii.zero) 4 5)
    as (st & Hrun & Hi & _).
  - lia.
  - simpl. lia.
  - reflexivity.
  - intros j Hj.
    do 5 (destruct j as [|j]; [simpl; discriminate|]). lia.
  - exists st. split; [exact Hrun | exact Hi].
Defined.

(** ** The records the probes emit *)

Lemma copy_probe_name (p : Probe.probe_id) :
  exists st,
    Probe.safe_strcpy (Probe.function_name Probe.zero_event) (literal (probe_name p))
      Probe.MAX_FUNCTION_NAME = Done st /\
    Probe.cp_dst st = padded_name (probe_name p).
Proof. destruct p; eexists; split; vm_compute; reflexivity. Qed.

Lemma fire_on_exact (p : Probe.probe_id) (h : Probe.helpers) (w : Probe.world) :
  Probe.should_trace_process h (Probe.control_map_lookup h) = 1 ->
  Probe.fire p h w =
    Done (Probe.perf_event_output
            (Probe.build_event h (Probe.event_code (probe_kind p))
               (padded_name (probe_name p))) w, 0).
Proof.
  intros Hon. destruct (copy_probe_name p) as (st & Hcopy & Hname).
  destruct p;
    unfold Probe.fire, Probe.generic_kprobe, Probe.generic_kretprobe,
      Probe.trace_taco_sys_mmz_alloc_entry, Probe.trace_taco_sys_mmz_alloc_exit,
      Probe.trace_kmalloc_entry, Probe.trace_kmalloc_exit,
      Probe.send_debug_event, Probe.get_debugger_control;
    rewrite Hon; cbn [Z.eqb];
    unfold literal in *; cbn [probe_name probe_kind] in *;
    rewrite Hcopy; cbn [obind]; rewrite Hname; reflexivity.
Qed.

(** One firing adds at most one record, after the ones already there. *)
Lemma fire_appends (p : Probe.probe_id) (h : Probe.helpers) (w : Probe.world) :
  Probe.fire p h w = Done (w, 0) \/
  (Probe.should_trace_process h (Probe.control_map_lookup h) = 1 /\
   Probe.fire p h w =
     Done (Probe.perf_event_output
             (Probe.build_event h (Probe.event_code (probe_kind p))
                (padded_name (probe_name p))) w, 0)).
Proof.
  destruct (should_trace_process_cases h (Probe.control_map_lookup h)) as [[Hon _]|[Hoff _]].
  - right. split; [exact Hon | apply fire_on_exact; exact Hon].
  - left. apply fire_off. exact Hoff.
Qed.


Lemma records_of_cons (p : Probe.probe_id) (h : Probe.helpers)
    (rest : list (Probe.probe_id * Probe.helpers)) :
  records_of ((p, h) :: rest) =
    (if Probe.should_trace_process h (Probe.control_map_lookup h) =? 1
     then [Probe.build_event h (Probe.event_code (probe_kind p))
             (padded_name (probe_name p))]
     else []) ++ records_of rest.
Proof. reflexivity. Qed.

Lemma probe_run_spec (firings : list (Probe.probe_id * Probe.helpers)) :
  forall w : Probe.world,
    probe_run firings w =
      Done {| Probe.perf_events := Probe.perf_events w ++ records_of firings |}.
Proof.
  induction firings as [|[p h] rest IH]; intros w.
  - cbn. rewrite app_nil_r. destruct w; reflexivity.
  - cbn [probe_run records_of flat_map].
    destruct (should_trace_process_cases h (Probe.control_map_lookup h))
      as [[Hone _]|[Hzero _]].
    + rewrite fire_on_exact by exact Hone. cbn [obind]. rewrite IH, Hone. cbn.
      rewrite <- app_assoc. reflexivity.
    + rewrite fire_off by exact Hzero. cbn [obind]. rewrite IH, Hzero. reflexivity.
Qed.

(** X2.  Whatever probes fire and in whatever order, the run ends
    without fault and the records already in the perf buffer stay in
    place and in order.  The records added are those of the firings that
    pass the gate, one for each and in the order of the firings, and
    each is the record of its own firing: it carries the full name of
    the probe that fired (none of the three names is cut in the 64-byte
    member), the kind of that probe, entry or exit and never breakpoint,
    the instruction pointer 0, and the process and the time of that
    firing. *)
Theorem probe_run_records (firings : list (Probe.probe_id * Probe.helpers))
    (w : Probe.world) :
  exists new,
    probe_run firings w = Done {| Probe.perf_events := Probe.perf_events w ++ new |} /\
    Forall2 probe_record (List.filter traced firings) new /\
    (length new <= length firings)%nat /\
    Forall (fun e => Probe.event_type e <> Probe.event_code Probe.EVENT_BREAKPOINT) new.
Proof.
  exists (records_of firings). split; [apply probe_run_spec|].
  induction firings as [|[p h] rest (IHrec & IHlen & IHkind)].
  - split; [constructor|]. split; [reflexivity | constructor].
  - rewrite records_of_cons. cbn [List.filter]. unfold traced at 1. cbn [snd].
    destruct (_ =? 1); cbn [app length].
    + split; [|split; [lia|]].
      * constructor; [|exact IHrec].
        unfold probe_record. cbn [fst snd].
        split; [reflexivity|]. split; [destruct p; reflexivity|].
        split; [reflexivity|]. split; reflexivity.
      * constructor; [|exact IHkind]. destruct p; vm_compute; discriminate.
    + split; [exact IHrec|]. split; [lia | exact IHkind].
Qed.

Example probe_run_sample :
  probe_run [(Probe.P_kmalloc_entry, helpers_off); (Probe.P_mmz_alloc_exit, helpers_on);
             (Probe.P_generic_kprobe, helpers_on)] Probe.empty_world =
    Done {| Probe.perf_events :=
              [Probe.build_event helpers_on 1 (padded_name "taco_sys_mmz_alloc");
               Probe.build_event helpers_on 0 (padded_name "traced_function")] |}.
Proof. reflexivity. Qed.

(** X3.  While the control record names a target process, every record
    a run of firings adds was emitted in that process: its [pid] is the
    target. *)
Theorem probe_run_respects_target (firings : list (Probe.probe_id * Probe.helpers))
    (c : Probe.debugger_control) (w : Probe.world) :
  Forall (fun f => Probe.control_map_lookup (snd f) = Some c) firings ->
  u32 (Probe.target_pid c) <> 0 ->
  exists new,
    probe_run firings w = Done {| Probe.perf_events := Probe.perf_events w ++ new |} /\
    Forall (fun e => Probe.pid e = u32 (Probe.target_pid c)) new.
Proof.
  intros Hctl Htarget. exists (records_of firings). split; [apply probe_run_spec|].
  induction Hctl as [|[p h] rest Hc _ IH]; [constructor|].
  cbn [snd] in Hc. rewrite records_of_cons.
  destruct (should_trace_process_cases h (Probe.control_map_lookup h))
    as [[-> (c' & Hc' & _ & Hmatch)]|[-> _]]; cbn [Z.eqb Pos.eqb app]; [|exact IH].
  constructor; [|exact IH]. cbn [Probe.pid Probe.build_event].
  rewrite Hc in Hc'. inversion Hc'; subst c'.
  destruct Hmatch as [Hz|Hm]; [contradiction|]. symmetry. exact Hm.
Qed.

Lemma probe_run_respects_target_witness :
  exists new,
    probe_run [(Probe.P_kmalloc_entry,
                {| Probe.control_map_lookup :=
                     Some {| Probe.debug_mode := 0; Probe.target_pid := 5;
                             Probe.global_enable := 1 |};
                   Probe.current_pid_tgid := 5 * 2 ^ 32 + 7;
                   Probe.ktime_get_ns := 1; Probe.smp_processor_id := 0 |});
               (Probe.P_kmalloc_exit,
                {| Probe.control_map_lookup :=
                     Some {| Probe.debug_mode := 0; Probe.target_pid := 5;
                             Probe.global_enable := 1 |};
                   Probe.current_pid_tgid := 6 * 2 ^ 32 + 9;
                   Probe.ktime_get_ns := 2; Probe.smp_processor_id := 0 |})]
      Probe.empty_world = Done {| Probe.perf_events := [] ++ new |} /\
    Forall (fun e => Probe.pid e = u32 5) new.
Proof.
  apply (probe_run_respects_target _
           {| Probe.debug_mode := 0; Probe.target_pid := 5; Probe.global_enable := 1 |}).
  - repeat constructor.
  - vm_compute. discriminate.
Defined.

Lemma split_pid_tgid (x : Z) :
  0 <= x < 2 ^ 64 ->
  u32 (Z.shiftr x 32) * 2 ^ 32 + u32 (Z.land x 0xFFFFFFFF) = x /\
  0 <= u32 (Z.land x 0xFFFFFFFF) < 2 ^ 32 /\
  0 <= u32 (Z.shiftr x 32) < 2 ^ 32.
Proof.
  intros Hx. unfold u32, wrap.
  rewrite Z.shiftr_div_pow2 by lia.
  change 0xFFFFFFFF with (Z.ones 32). rewrite Z.land_ones by lia.
  change (2 ^ 32) with 4294967296 in *. change (2 ^ 64) with 18446744073709551616 in *.
  rewrite Z.mod_mod by lia.
  rewrite (Z.mod_small (x / 4294967296)) by (split; [apply Z.div_pos; lia |
                                             apply Z.div_lt_upper_bound; lia]).
  pose proof (Z.div_mod x 4294967296 ltac:(lia)).
  pose proof (Z.mod_pos_bound x 4294967296 ltac:(lia)).
  assert (0 <= x / 4294967296 < 4294967296)
    by (split; [apply Z.div_pos; lia | apply Z.div_lt_upper_bound; lia]).
  lia.
Qed.

(** X4.  The two identifiers of an emitted record are the halves of the
    value [bpf_get_current_pid_tgid] returned: [pid] is the upper 32
    bits, the id the process filter compares, [tid] the lower 32 bits,
    and together they give the value back. *)
Theorem emitted_ids_split (p : Probe.probe_id) (h : Probe.helpers) (w : Probe.world)
    (c : Probe.debugger_control) :
  Probe.control_map_lookup h = Some c ->
  Probe.tracing_on c -> Probe.filter_matches h c ->
  0 <= Probe.current_pid_tgid h < 2 ^ 64 ->
  exists e,
    Probe.fire p h w = Done (Probe.perf_event_output e w, 0) /\
    Probe.pid e * 2 ^ 32 + Probe.tid e = Probe.current_pid_tgid h /\
    Probe.pid e = Probe.current_pid h /\
    0 <= Probe.tid e < 2 ^ 32.
Proof.
  intros Hlook Hon Hmatch Hrange.
  destruct (should_trace_process_cases h (Probe.control_map_lookup h))
    as [[Hone _]|[_ Hnot]].
  2:{ exfalso. apply (Hnot c Hlook). auto. }
  eexists. split; [apply fire_on_exact; exact Hone|]. cbn.
  destruct (split_pid_tgid _ Hrange) as (H1 & H2 & _).
  split; [exact H1|]. split; [reflexivity | exact H2].
Qed.

Lemma emitted_ids_split_witness :
  exists e,
    Probe.fire Probe.P_kmalloc_exit helpers_on Probe.empty_world =
      Done (Probe.perf_event_output e Probe.empty_world, 0) /\
    Probe.pid e * 2 ^ 32 + Probe.tid e = 5 * 2 ^ 32 + 7 /\
    Probe.pid e = Probe.current_pid helpers_on /\
    0 <= Probe.tid e < 2 ^ 32.
Proof.
  apply (emitted_ids_split Probe.P_kmalloc_exit helpers_on Probe.empty_world control_on).
  - reflexivity.
  - vm_compute. discriminate.
  - left. reflexivity.
  - vm_compute. split; [discriminate | reflexivity].
Defined.

(** ** The enhanced probe: what is in the record and on the trace pipe *)

Lemma enhanced_probe_emits_exact (h : Enhanced.helpers) (ctx : Enhanced.pt_regs)
    (w : Enhanced.world) (v : Z) :
  Enhanced.debug_control_lookup h = Some v -> u32 v <> 0 ->
  Enhanced.ringbuf_reserve h = true ->
  exists e,
    Enhanced.enhanced_breakpoint_probe h ctx w =
      Done ({| Enhanced.ringbuf := Enhanced.ringbuf w ++ [e];
               Enhanced.trace_pipe :=
                 Enhanced.trace_pipe w ++
                 [Enhanced.TL_enhanced_bp (Enhanced.pid e) (Enhanced.regs e Enhanced.pc)
                    (Enhanced.regs e Enhanced.sp);
                  Enhanced.TL_args (Enhanced.regs e Enhanced.a0)
                    (Enhanced.regs e Enhanced.a1) (Enhanced.regs e Enhanced.a2)
                    (Enhanced.regs e Enhanced.a3)] |}, 0) /\
    Enhanced.pid e = Some (u32 (Z.land (Enhanced.current_pid_tgid h) 0xffffffff)) /\
    Enhanced.tgid e = Some (u32 (Z.shiftr (Enhanced.current_pid_tgid h) 32)) /\
    Enhanced.timestamp e = Some (u64 (Enhanced.ktime_get_ns h)) /\
    Enhanced.breakpoint_id e = Some 1 /\
    map (Enhanced.regs e)
      [Enhanced.pc; Enhanced.ra; Enhanced.sp; Enhanced.gp; Enhanced.a0; Enhanced.a1;
       Enhanced.a2; Enhanced.a3; Enhanced.a4; Enhanced.a5] =
    map (fun x => Some (u64 x))
      [Enhanced.PT_REGS_IP ctx; Enhanced.PT_REGS_RC ctx; Enhanced.PT_REGS_SP ctx;
       Enhanced.PT_REGS_FP ctx; Enhanced.PT_REGS_PARM1 ctx; Enhanced.PT_REGS_PARM2 ctx;
       Enhanced.PT_REGS_PARM3 ctx; Enhanced.PT_REGS_PARM4 ctx; Enhanced.PT_REGS_PARM5 ctx;
       Enhanced.PT_REGS_PARM6 ctx].
Proof.
  intros Hlook Hon Hslot. unfold Enhanced.enhanced_breakpoint_probe.
  rewrite Hlook. destruct (Z.eqb_spec (u32 v) 0) as [|_]; [contradiction|].
  rewrite Hslot. cbn [negb]. cbv zeta.
  unfold Enhanced.read_user_stack_data, Enhanced.read_local_variables.
  match goal with
  | |- context [Enhanced.read_user_stack_data_loop 9 h ?s 8 0 ?st] =>
      destruct (read_user_stack_data_loop_spec h s 8 9 0 st)
        as (stack & Hrun & _); [lia | reflexivity |]; rewrite Hrun; cbn [obind]
  end.
  match goal with
  | |- context [Enhanced.read_local_variables_loop 17 h ?s 16 0 ?st] =>
      destruct (read_local_variables_loop_spec h s 16 17 0 st)
        as (vars & Hrun2 & _); [lia | reflexivity |]; rewrite Hrun2; cbn [obind]
  end.
  match goal with
  | |- context [Enhanced.ringbuf_submit ?ev w] => exists ev
  end.
  split.
  - unfold Enhanced.printk, Enhanced.ringbuf_submit; cbn.
    rewrite <- app_assoc. reflexivity.
  - cbn. repeat split.
Qed.

(** X5.  Every firing of the enhanced probe returns 0 without fault, and
    its two outputs go together: either nothing is added to the ring
    buffer and nothing to the trace pipe, or one record is added and
    exactly two trace lines that show the [pid], [pc], [sp] and
    [a0]-[a3] of that record. *)
Theorem enhanced_trace_follows_ring
    (h : Enhanced.helpers) (ctx : Enhanced.pt_regs) (w : Enhanced.world) :
  exists w',
    Enhanced.enhanced_breakpoint_probe h ctx w = Done (w', 0) /\
    ((Enhanced.ringbuf w' = Enhanced.ringbuf w /\
      Enhanced.trace_pipe w' = Enhanced.trace_pipe w) \/
     exists e,
       Enhanced.ringbuf w' = Enhanced.ringbuf w ++ [e] /\
       Enhanced.trace_pipe w' =
         Enhanced.trace_pipe w ++
         [Enhanced.TL_enhanced_bp (Enhanced.pid e) (Enhanced.regs e Enhanced.pc)
            (Enhanced.regs e Enhanced.sp);
          Enhanced.TL_args (Enhanced.regs e Enhanced.a0) (Enhanced.regs e Enhanced.a1)
            (Enhanced.regs e Enhanced.a2) (Enhanced.regs e Enhanced.a3)]).
Proof.
  destruct (Enhanced.debug_control_lookup h) as [v|] eqn:Hlook.
  2:{ exists w. rewrite enhanced_probe_disabled by (intros v; congruence). auto. }
  destruct (Z.eq_dec (u32 v) 0) as [Hoff|Hon].
  { exists w. rewrite enhanced_probe_disabled by (intros v'; congruence). auto. }
  destruct (Enhanced.ringbuf_reserve h) eqn:Hslot.
  - destruct (enhanced_probe_emits_exact h ctx w v Hlook Hon Hslot) as (e & Hrun & _).
    eexists. split; [exact Hrun|]. right. exists e. split; reflexivity.
  - exists w. rewrite enhanced_probe_no_slot by exact Hslot. auto.
Qed.

(** X6.  The record the enhanced probe submits carries the trap context
    as follows: [pc], [sp] and [a0]-[a5] are the instruction pointer,
    the stack pointer and the six parameter registers; [ra] is what
    [PT_REGS_RC] returns and [gp] what [PT_REGS_FP] returns; [pid] is the
    lower half and [tgid] the upper half of the value of
    [bpf_get_current_pid_tgid], which they give back together; the
    breakpoint id is 1. *)
Theorem enhanced_record_members (h : Enhanced.helpers) (ctx : Enhanced.pt_regs)
    (w : Enhanced.world) (v : Z) :
  Enhanced.debug_control_lookup h = Some v -> u32 v <> 0 ->
  Enhanced.ringbuf_reserve h = true ->
  0 <= Enhanced.current_pid_tgid h < 2 ^ 64 ->
  exists e w',
    Enhanced.enhanced_breakpoint_probe h ctx w = Done (w', 0) /\
    Enhanced.ringbuf w' = Enhanced.ringbuf w ++ [e] /\
    map (Enhanced.regs e)
      [Enhanced.pc; Enhanced.ra; Enhanced.sp; Enhanced.gp; Enhanced.a0; Enhanced.a1;
       Enhanced.a2; Enhanced.a3; Enhanced.a4; Enhanced.a5] =
    map (fun x => Some (u64 x))
      [Enhanced.PT_REGS_IP ctx; Enhanced.PT_REGS_RC ctx; Enhanced.PT_REGS_SP ctx;
       Enhanced.PT_REGS_FP ctx; Enhanced.PT_REGS_PARM1 ctx; Enhanced.PT_REGS_PARM2 ctx;
       Enhanced.PT_REGS_PARM3 ctx; Enhanced.PT_REGS_PARM4 ctx; Enhanced.PT_REGS_PARM5 ctx;
       Enhanced.PT_REGS_PARM6 ctx] /\
    (exists lo hi,
       Enhanced.pid e = Some lo /\ Enhanced.tgid e = Some hi /\
       hi * 2 ^ 32 + lo = Enhanced.current_pid_tgid h /\
       0 <= lo < 2 ^ 32 /\ 0 <= hi < 2 ^ 32 /\
       lo = Enhanced.current_pid_tgid h mod 2 ^ 32 /\
       hi = Enhanced.current_pid_tgid h / 2 ^ 32) /\
    Enhanced.breakpoint_id e = Some 1.
Proof.
  intros Hlook Hon Hslot Hrange.
  destruct (enhanced_probe_emits_exact h ctx w v Hlook Hon Hslot)
    as (e & Hrun & Hpid & Htgid & _ & Hbp & Hregs).
  exists e. eexists. split; [exact Hrun|]. split; [reflexivity|].
  split; [exact Hregs|]. split; [|exact Hbp].
  eexists. eexists. split; [exact Hpid|]. split; [exact Htgid|].
  destruct (split_pid_tgid _ Hrange) as (Hsum & Hlo & Hhi).
  split; [exact Hsum|]. split; [exact Hlo|]. split; [exact Hhi|].
  set (lo := u32 (Z.land (Enhanced.current_pid_tgid h) 0xFFFFFFFF)) in *.
  set (hi := u32 (Z.shiftr (Enhanced.current_pid_tgid h) 32)) in *.
  clearbody lo hi. change (2 ^ 32) with 4294967296 in *.
  split.
  - apply (Z.mod_unique_pos _ _ hi); lia.
  - apply (Z.div_unique_pos _ _ hi lo); lia.
Qed.

Lemma enhanced_record_members_witness :
  exists e w',
    Enhanced.enhanced_breakpoint_probe probe_env_on trap_context Enhanced.empty_world =
      Done (w', 0) /\
    Enhanced.ringbuf w' = [] ++ [e] /\
    Enhanced.regs e Enhanced.ra = Some 8 /\ Enhanced.regs e Enhanced.gp = Some 8192 /\
    Enhanced.pid e = Some 7 /\ Enhanced.tgid e = Some 5.
Proof.
  destruct (enhanced_record_members probe_env_on trap_context Enhanced.empty_world 1)
    as (e & w' & Hrun & Hrb & Hregs & _).
  - reflexivity.
  - vm_compute. discriminate.
  - reflexivity.
  - vm_compute. split; [discriminate | reflexivity].
  - exists e, w'. split; [exact Hrun|]. split; [exact Hrb|].
    vm_compute in Hrun. inversion Hrun; subst w'.
    cbn in Hrb. inversion Hrb; subst e. repeat split.
Defined.

(** X7.  The two read loops never store outside their array and never
    read more slots than it has: on an array of 8 (16) slots,
    [read_user_stack_data] ([read_local_variables]) ends without fault
    for every [count], fills the first [min count 8] ([min count 16])
    slots with the value read or 0, and leaves the other slots as they
    were; a [count] of 0 or less changes nothing. *)
Theorem read_loops_bounded (h : Enhanced.helpers) (ctx : Enhanced.pt_regs)
    (stack vars : list (option Z)) (count : Z) :
  length stack = 8%nat -> length vars = 16%nat ->
  (exists stack',
     Enhanced.read_user_stack_data h ctx stack count = Done stack' /\
     filled h (fun j => u64 (Enhanced.PT_REGS_SP ctx + Z.of_nat j * 8)) 0
            (Z.to_nat (Z.min count 8)) stack stack' /\
     (count <= 0 -> stack' = stack)) /\
  (exists vars',
     Enhanced.read_local_variables h ctx vars count = Done vars' /\
     filled h (fun j => u64 (Enhanced.PT_REGS_FP ctx - (Z.of_nat j + 1) * 8)) 0
            (Z.to_nat (Z.min count 16)) vars vars' /\
     (count <= 0 -> vars' = vars)).
Proof.
  intros Hs Hv. split.
  - destruct (read_user_stack_data_loop_spec h (Enhanced.PT_REGS_SP ctx) count 9 0 stack)
      as (stack' & Hrun & Hfill); [lia | exact Hs |].
    rewrite Nat.max_0_l in Hfill.
    exists stack'. split; [exact Hrun|]. split; [exact Hfill|].
    intros Hle. destruct Hfill as (_ & _ & Hout).
    apply list_eq. intros j. apply Hout. lia.
  - destruct (read_local_variables_loop_spec h (Enhanced.PT_REGS_FP ctx) count 17 0 vars)
      as (vars' & Hrun & Hfill); [lia | exact Hv |].
    rewrite Nat.max_0_l in Hfill.
    exists vars'. split; [exact Hrun|]. split; [exact Hfill|].
    intros Hle. destruct Hfill as (_ & _ & Hout).
    apply list_eq. intros j. apply Hout. lia.
Qed.

Lemma read_loops_bounded_witness :
  exists stack',
    Enhanced.read_user_stack_data probe_env_on trap_context (replicate 8 None) 3 =
      Done stack' /\
    stack' !! 3%nat = Some None /\ stack' !! 0%nat = Some (Some 4096).
Proof.
  destruct (read_loops_bounded probe_env_on trap_context (replicate 8 None)
              (replicate 16 None) 3 eq_refl eq_refl)
    as ((stack' & Hrun & (_ & Hin & Hout) & _) & _).
  exists stack'. split; [exact Hrun|]. split.
  - rewrite Hout; [reflexivity | right; vm_compute; lia].
  - rewrite Hin; [reflexivity | vm_compute; lia].
Defined.

(** ** Loading the program *)

Ltac run_tui :=
  unfold Tui.handle_input, Tui.load_bpf_program, Tui.switch_window_focus,
    Tui.update_all_windows, Tui.sys_bpf;
  run_m.

Ltac split_ifs :=
  repeat match goal with
         | |- context [if ?b then _ else _] => destruct b eqn:?; cbn
         end.

Ltac bool_facts :=
  repeat match goal with
         | H : (_ <? _) = true |- _ => apply Z.ltb_lt in H
         | H : (_ <? _) = false |- _ => apply Z.ltb_ge in H
         | H : (_ <=? _) = true |- _ => apply Z.leb_le in H
         | H : (_ <=? _) = false |- _ => apply Z.leb_gt in H
         | H : (_ =? _) = true |- _ => apply Z.eqb_eq in H
         | H : (_ =? _) = false |- _ => apply Z.eqb_neq in H
         | H : negb _ = true |- _ => apply negb_true_iff in H
         | H : negb _ = false |- _ => apply negb_false_iff in H
         | H : _ && _ = true |- _ => apply andb_prop in H; destruct H
         end.

Lemma load_bpf_program_ctx (inp : Tui.input) (p : Tui.proc) :
  let c' := Tui.ctx (Tui.exec (Tui.load_bpf_program inp) p) in
  Tui.bpf_loaded c' = (if load_ok inp then 1 else 0) /\
  (if load_ok inp then 0 <= Tui.bpf_fd c' else Tui.bpf_fd c' < 0) /\
  Tui.running c' = Tui.running (Tui.ctx p) /\
  Tui.current_focus c' = Tui.current_focus (Tui.ctx p).
Proof.
  cbv zeta. unfold load_ok. destruct p as [c n]. run_tui.
  destruct (Z.ltb_spec (Tui.open_fd inp) 0) as [Ho|Ho];
    [ destruct (Z.leb_spec 0 (Tui.open_fd inp)); [lia|]; cbn; repeat split; lia |].
  destruct (Z.leb_spec 0 (Tui.open_fd inp)); [|lia]. cbn.
  destruct (Z.ltb_spec (Tui.fstat_rc inp) 0) as [Hf|Hf];
    [ destruct (Z.leb_spec 0 (Tui.fstat_rc inp)); [lia|]; cbn; repeat split; lia |].
  destruct (Z.leb_spec 0 (Tui.fstat_rc inp)); [|lia]. cbn.
  destruct (Tui.mmap_ok inp); cbn; [|repeat split; lia].
  destruct (Z.ltb_spec (Tui.prog_load_fd inp) 0) as [Hp|Hp];
    [ destruct (Z.leb_spec 0 (Tui.prog_load_fd inp)); [lia|]; cbn; repeat split; lia |].
  destruct (Z.leb_spec 0 (Tui.prog_load_fd inp)); [|lia]. cbn. repeat split; lia.
Qed.

(** X8.  [load_bpf_program] returns 0 exactly when the open, the fstat,
    the map and the program load all succeed, and -1 otherwise;
    [bpf_loaded] is 1 after a return of 0 and 0 after a return of -1; the
    descriptor kept in [bpf_fd] is the loaded program's, and is negative
    after every failure.  Nothing leaks: the object file is closed once
    on every path that opened it, and unmapped once on every path that
    mapped it.  The members of the session other than [bpf_fd] and
    [bpf_loaded] are not changed. *)
Theorem load_bpf_program_result (inp : Tui.input) (p : Tui.proc) :
  let rc := fst (fst (Tui.load_bpf_program inp p)) in
  let c' := Tui.ctx (Tui.exec (Tui.load_bpf_program inp) p) in
  let l := Tui.log_of (Tui.load_bpf_program inp) p in
  rc = (if load_ok inp then 0 else -1) /\
  Tui.bpf_loaded c' = (if load_ok inp then 1 else 0) /\
  (if load_ok inp
   then Tui.bpf_fd c' = Tui.prog_load_fd inp /\ 0 <= Tui.bpf_fd c'
   else Tui.bpf_fd c' < 0) /\
  calls "open" l = 1%nat /\
  calls "close" l = (if 0 <=? Tui.open_fd inp then 1%nat else 0%nat) /\
  calls "munmap" l = (if mapped inp then 1%nat else 0%nat) /\
  untouched_by_keys c' = untouched_by_keys (Tui.ctx p) /\
  Tui.state c' = Tui.state (Tui.ctx p) /\ Tui.running c' = Tui.running (Tui.ctx p) /\
  Tui.current_focus c' = Tui.current_focus (Tui.ctx p).
Proof.
  cbv zeta. unfold load_ok, mapped. destruct p as [c n]. run_tui.
  destruct (Z.ltb_spec (Tui.open_fd inp) 0) as [Ho|Ho];
    [ destruct (Z.leb_spec 0 (Tui.open_fd inp)); [lia|]; cbn; repeat split; lia |].
  destruct (Z.leb_spec 0 (Tui.open_fd inp)); [|lia]. cbn.
  destruct (Z.ltb_spec (Tui.fstat_rc inp) 0) as [Hf|Hf];
    [ destruct (Z.leb_spec 0 (Tui.fstat_rc inp)); [lia|]; cbn; repeat split; lia |].
  destruct (Z.leb_spec 0 (Tui.fstat_rc inp)); [|lia]. cbn.
  destruct (Tui.mmap_ok inp); cbn; [|repeat split; lia].
  destruct (Z.ltb_spec (Tui.prog_load_fd inp) 0) as [Hp|Hp];
    [ destruct (Z.leb_spec 0 (Tui.prog_load_fd inp)); [lia|]; cbn; repeat split; lia |].
  destruct (Z.leb_spec 0 (Tui.prog_load_fd inp)); [|lia]. cbn. repeat split; lia.
Qed.

Example load_fails_at_mmap :
  Tui.load_bpf_program
    {| Tui.getch := 0; Tui.open_fd := 3; Tui.fstat_rc := 0; Tui.mmap_ok := false;
       Tui.prog_load_fd := 4; Tui.getmouse_rc := 0 |} Tui.started =
  (-1, Tui.started,
   [Tui.Store Tui.F_bpf_loaded; Tui.Store Tui.F_bpf_fd; Tui.Call "open";
    Tui.Call "fstat"; Tui.Call "mmap"; Tui.Call "close"]).
Proof. reflexivity. Qed.

(** ** What the keys change, and what they keep *)

(** The [switch] of [handle_input], leaf by leaf: the goal is about
    [Tui.exec (Tui.handle_input K inp) p]. *)
Ltac by_key :=
  unfold Tui.handle_input;
  rewrite exec_bind;
  match goal with
  | |- context [Tui.exec (Tui.call ?n) ?p] =>
      change (Tui.exec (Tui.call n) p) with p
  end;
  cbv zeta;
  repeat match goal with
         | |- context [Tui.exec (if ?b then _ else _) _] => destruct b eqn:?
         end.

Lemma exec_load_bpf_program (inp : Tui.input) (p : Tui.proc) :
  untouched_by_keys (Tui.ctx (Tui.exec (Tui.load_bpf_program inp) p)) =
    untouched_by_keys (Tui.ctx p) /\
  Tui.counter (Tui.exec (Tui.load_bpf_program inp) p) = Tui.counter p.
Proof.
  destruct p as [c n]. unfold Tui.load_bpf_program, Tui.sys_bpf. run_m.
  repeat match goal with
         | |- context [if ?b then _ else _] => destruct b; cbn
         end; split; reflexivity.
Qed.

Lemma handle_input_untouched (K : Tui.curses_keys) (inp : Tui.input) (p : Tui.proc) :
  untouched_by_keys (Tui.ctx (Tui.exec (Tui.handle_input K inp) p)) =
    untouched_by_keys (Tui.ctx p) /\
  Tui.counter (Tui.exec (Tui.handle_input K inp) p) = Tui.counter p.
Proof.
  by_key; try (split; reflexivity).
  - (* r *)
    rewrite !exec_bind.
    destruct (exec_load_bpf_program inp
                (Tui.exec
                   (if 0 <=? (Tui.load Tui.bpf_fd p).1.1
                    then Tui.call "close" ≫= λ _ : (), Tui.modify Tui.F_bpf_fd (Tui.set_bpf_fd (-1))
                    else Tui.skip)
                   (Tui.exec (Tui.load Tui.bpf_fd) p))) as [H1 H2].
    change (Tui.exec Tui.skip ?q) with q.
    rewrite H1, H2. destruct p as [c n]. run_m. destruct (0 <=? Tui.bpf_fd c); split; reflexivity.
  - (* mouse *)
    destruct p as [c n]. run_m. destruct (negb _); split; reflexivity.
  - (* tab *)
    destruct p as [c n]. unfold Tui.switch_window_focus.
    rewrite exec_bind. change (Tui.exec (Tui.load Tui.current_focus) ?q) with q.
    destruct (Tui.FOCUS_COUNT <=? _); [split; reflexivity|].
    destruct (_ && _); split; reflexivity.
Qed.

Lemma exec_switch_window_focus (new_focus : Z) (p : Tui.proc) :
  Tui.ctx (Tui.exec (Tui.switch_window_focus new_focus) p) =
    if Tui.FOCUS_COUNT <=? new_focus then Tui.ctx p
    else Tui.set_current_focus new_focus (Tui.ctx p).
Proof.
  destruct p as [c n]. unfold Tui.switch_window_focus.
  destruct (Tui.FOCUS_COUNT <=? new_focus); [reflexivity|].
  destruct ((0 <=? new_focus) && (new_focus <=? Tui.FOCUS_COMMAND)); reflexivity.
Qed.

Lemma handle_input_inv (K : Tui.curses_keys) (inp : Tui.input) (p : Tui.proc) :
  session_inv (Tui.ctx p) ->
  session_inv (Tui.ctx (Tui.exec (Tui.handle_input K inp) p)).
Proof.
  intros Hinv. pose proof Hinv as (Hl & Hfd & Hfocus & Hrun).
  by_key;
    [ exact Hinv | exact Hinv | exact Hinv | | exact Hinv | exact Hinv | exact Hinv
    | | | | exact Hinv | exact Hinv ].
  - (* q *)
    split; [exact Hl|]. split; [exact Hfd|]. split; [exact Hfocus|]. left. reflexivity.
  - (* r *)
    rewrite !exec_bind. change (Tui.exec Tui.skip ?q) with q.
    match goal with
    | |- session_inv (Tui.ctx (Tui.exec (Tui.load_bpf_program inp) ?q)) =>
        pose proof (load_bpf_program_ctx inp q) as Hres; cbv zeta in Hres;
        destruct Hres as (Hloaded & Hfd' & Hr & Hf);
        assert (Hq : Tui.running (Tui.ctx q) = Tui.running (Tui.ctx p) /\
                     Tui.current_focus (Tui.ctx q) = Tui.current_focus (Tui.ctx p))
    end.
    { destruct p as [c n]. run_m. destruct (0 <=? Tui.bpf_fd c); split; reflexivity. }
    destruct Hq as [Hq1 Hq2]. unfold session_inv.
    rewrite Hloaded, Hr, Hf, Hq1, Hq2.
    destruct (load_ok inp); repeat split; auto; try lia.
  - (* mouse *)
    destruct p as [c n]. run_m. destruct (negb _); exact Hinv.
  - (* tab *)
    rewrite exec_bind. change (Tui.exec (Tui.load Tui.current_focus) p) with p.
    change ((Tui.load Tui.current_focus p).1.1) with (Tui.current_focus (Tui.ctx p)).
    pose proof (Z.mod_pos_bound (u32 (Tui.current_focus (Tui.ctx p) + 1)) Tui.FOCUS_COUNT
                  ltac:(unfold Tui.FOCUS_COUNT; lia)) as Hnf.
    set (nf := u32 (Tui.current_focus (Tui.ctx p) + 1) mod Tui.FOCUS_COUNT) in *.
    clearbody nf. rewrite exec_switch_window_focus.
    destruct (Tui.FOCUS_COUNT <=? nf); [exact Hinv|].
    split; [exact Hl|]. split; [exact Hfd|]. split; [exact Hnf | exact Hrun].
Qed.

Lemma event_iteration_frame (p : Tui.proc) :
  untouched_by_events (Tui.ctx (Tui.exec Tui.event_thread_iteration p)) =
    untouched_by_events (Tui.ctx p) /\
  never_stored (Tui.ctx (Tui.exec Tui.event_thread_iteration p)) =
    never_stored (Tui.ctx p) /\
  Tui.pc (Tui.regs (Tui.ctx (Tui.exec Tui.event_thread_iteration p))) =
    u64 (Tui.pc (Tui.regs (Tui.ctx p)) + 4) /\
  Tui.current_addr (Tui.ctx (Tui.exec Tui.event_thread_iteration p)) =
    u64 (Tui.pc (Tui.regs (Tui.ctx p)) + 4).
Proof.
  destruct p as [c n]. unfold Tui.event_thread_iteration. run_m.
  destruct (Tui.debug_state_eqb (Tui.state c) Tui.DEBUG_RUNNING); cbn;
    [|repeat split].
  destruct (Z.rem _ 10 =? 0); cbn; [repeat split|].
  destruct (Z.rem _ 7 =? 0); repeat split.
Qed.

Lemma event_iteration_inv (p : Tui.proc) :
  session_inv (Tui.ctx p) ->
  session_inv (Tui.ctx (Tui.exec Tui.event_thread_iteration p)).
Proof.
  destruct (event_iteration_frame p) as (Hframe & _).
  unfold untouched_by_events in Hframe. inversion Hframe as [[Hs Hfd Hpfd Hl Hb Hr Hm Hf]].
  unfold session_inv. rewrite Hfd, Hl, Hr, Hf. auto.
Qed.

Lemma run_session_snoc (K : Tui.curses_keys) (steps : list session_step)
    (s : session_step) (p : Tui.proc) :
  run_session K (steps ++ [s]) p =
    match s with
    | Key inp => Tui.exec (Tui.handle_input K inp) (run_session K steps p)
    | Event => Tui.exec Tui.event_thread_iteration (run_session K steps p)
    end.
Proof. unfold run_session. rewrite fold_left_app. reflexivity. Qed.

Lemma init_debugger_inv (rc : Z) (p0 : Tui.proc) :
  session_inv (Tui.ctx (Tui.exec (Tui.init_debugger rc) p0)).
Proof.
  unfold Tui.exec, Tui.init_debugger, session_inv, Tui.FOCUS_COUNT.
  destruct (rc =? 0); cbn; repeat split; auto; try lia; discriminate.
Qed.

Lemma run_session_inv (K : Tui.curses_keys) (steps : list session_step) (p : Tui.proc) :
  session_inv (Tui.ctx p) -> session_inv (Tui.ctx (run_session K steps p)).
Proof.
  intros Hinv. induction steps as [|s steps IH] using rev_ind; [exact Hinv|].
  rewrite run_session_snoc. destruct s as [inp|].
  - apply handle_input_inv. exact IH.
  - apply event_iteration_inv. exact IH.
Qed.

Lemma run_session_frame (K : Tui.curses_keys) (steps : list session_step) (p : Tui.proc) :
  never_stored (Tui.ctx (run_session K steps p)) = never_stored (Tui.ctx p).
Proof.
  induction steps as [|s steps IH] using rev_ind; [reflexivity|].
  rewrite run_session_snoc.
  transitivity (never_stored (Tui.ctx (run_session K steps p))); [|apply IH].
  destruct s as [inp|].
  - destruct (handle_input_untouched K inp (run_session K steps p)) as [Hu _].
    set (pick := fun t : Z * Z * Z * Tui.riscv_regs_t * list Tui.breakpoint_t *
                          string * Z * Z * (Z * Z * Z * Z * Z) =>
                   let '(a, b, c, _, d, _, _, e, s) := t in (a, b, c, d, e, s)).
    change (pick (untouched_by_keys
                    (Tui.ctx (Tui.exec (Tui.handle_input K inp) (run_session K steps p)))) =
            pick (untouched_by_keys (Tui.ctx (run_session K steps p)))).
    rewrite Hu. reflexivity.
  - apply event_iteration_frame.
Qed.

Lemma init_debugger_never_stored (rc : Z) (p0 : Tui.proc) :
  never_stored (Tui.ctx (Tui.exec (Tui.init_debugger rc) p0)) =
    (0, 0, 0, [], 0, (0, 0, 0, 0, 0)).
Proof. unfold Tui.exec, Tui.init_debugger. destruct (rc =? 0); reflexivity. Qed.

(** X9.  From [init_debugger] on, through every interleaving of keys
    handled by the main thread and rounds of the event thread:
    [bpf_loaded] is 0 or 1 and, when it is 1, [bpf_fd] is a valid
    (non-negative) descriptor; the focus is one of the six windows;
    [running] is 0 or 1. *)
Theorem session_invariant (K : Tui.curses_keys) (rc : Z) (p0 : Tui.proc)
    (steps : list session_step) :
  session_inv (Tui.ctx (run_session K steps (Tui.exec (Tui.init_debugger rc) p0))).
Proof. apply run_session_inv, init_debugger_inv. Qed.

(** X10.  Neither thread ever stores to the scroll cursors, the
    breakpoint list or the perf descriptor and mapping: through every
    interleaving of keys and event-thread rounds they are what they were
    at the start, so in a session started by [init_debugger] the five
    scroll cursors stay 0 (no key scrolls a view), the breakpoint list
    stays empty and [perf_fd] stays 0. *)
Theorem session_never_scrolls (K : Tui.curses_keys) (steps : list session_step) :
  (forall p, never_stored (Tui.ctx (run_session K steps p)) = never_stored (Tui.ctx p)) /\
  (forall rc p0,
     never_stored (Tui.ctx (run_session K steps (Tui.exec (Tui.init_debugger rc) p0))) =
       (0, 0, 0, [], 0, (0, 0, 0, 0, 0))).
Proof.
  split.
  - intros p. apply run_session_frame.
  - intros rc p0. rewrite run_session_frame. apply init_debugger_never_stored.
Qed.

Example session_sample :
  let p := run_session Tui.ncurses_keys
             [Key (Tui.key (Tui.chr "c")); Event; Key (Tui.key 9); Event;
              Key (Tui.key (Tui.chr "q"))] Tui.started in
  Tui.current_addr (Tui.ctx p) = 0xffffffff80000008 /\
  Tui.current_focus (Tui.ctx p) = Tui.FOCUS_MEMORY /\
  Tui.running (Tui.ctx p) = 0 /\ Tui.code_scroll_pos (Tui.ctx p) = 0.
Proof. repeat split. Qed.

(** ** Tab, unknown keys, quit *)

Lemma handle_input_tab (K : Tui.curses_keys) (inp : Tui.input) (p : Tui.proc) :
  Tui.keys_wf K -> Tui.getch inp = Tui.chr "009" ->
  0 <= Tui.current_focus (Tui.ctx p) < Tui.FOCUS_COUNT ->
  Tui.exec (Tui.handle_input K inp) p =
    {| Tui.ctx := Tui.set_current_focus
                    ((Tui.current_focus (Tui.ctx p) + 1) mod Tui.FOCUS_COUNT) (Tui.ctx p);
       Tui.counter := Tui.counter p |}.
Proof.
  intros Hwf Hch Hfocus. pose proof Hwf as H. use_keys_wf H.
  unfold Tui.handle_input. rewrite Hch. eval_chars.
  rewrite exec_bind. change (Tui.exec (Tui.call "getch") p) with p. cbv zeta.
  pick_case. clear - Hfocus.
  rewrite exec_bind. change (Tui.exec (Tui.load Tui.current_focus) p) with p.
  change ((Tui.load Tui.current_focus p).1.1) with (Tui.current_focus (Tui.ctx p)).
  assert (Hu : u32 (Tui.current_focus (Tui.ctx p) + 1) = Tui.current_focus (Tui.ctx p) + 1).
  { unfold u32, wrap, Tui.FOCUS_COUNT in *. apply Z.mod_small. lia. }
  rewrite Hu.
  pose proof (Z.mod_pos_bound (Tui.current_focus (Tui.ctx p) + 1) Tui.FOCUS_COUNT
                ltac:(unfold Tui.FOCUS_COUNT; lia)) as Hnf.
  set (nf := (Tui.current_focus (Tui.ctx p) + 1) mod Tui.FOCUS_COUNT) in *. clearbody nf.
  destruct p as [c cnt]. unfold Tui.switch_window_focus.
  destruct (Z.leb_spec Tui.FOCUS_COUNT nf); [lia|].
  destruct ((0 <=? nf) && (nf <=? Tui.FOCUS_COMMAND)); reflexivity.
Qed.

Lemma tabs_move_focus (K : Tui.curses_keys) (n : nat) : forall p : Tui.proc,
  Tui.keys_wf K ->
  0 <= Tui.current_focus (Tui.ctx p) < Tui.FOCUS_COUNT ->
  after_keys K (replicate (S n) (Tui.key (Tui.chr "009"))) p =
    {| Tui.ctx := Tui.set_current_focus
                    ((Tui.current_focus (Tui.ctx p) + Z.of_nat (S n)) mod Tui.FOCUS_COUNT)
                    (Tui.ctx p);
       Tui.counter := Tui.counter p |}.
Proof.
  induction n as [|n IH]; intros p Hwf Hfocus.
  - cbn [after_keys replicate fold_left]. apply handle_input_tab; auto.
  - change (after_keys K (replicate (S (S n)) (Tui.key (Tui.chr "009"))) p)
      with (after_keys K (replicate (S n) (Tui.key (Tui.chr "009")))
              (Tui.exec (Tui.handle_input K (Tui.key (Tui.chr "009"))) p)).
    rewrite (handle_input_tab K (Tui.key (Tui.chr "009")) p Hwf eq_refl Hfocus).
    rewrite IH; [|exact Hwf|].
    + cbn [Tui.ctx Tui.counter]. f_equal.
      change (Tui.current_focus (Tui.set_current_focus ?v ?c)) with v.
      rewrite Zplus_mod_idemp_l.
      replace (Tui.current_focus (Tui.ctx p) + 1 + Z.of_nat (S n))
        with (Tui.current_focus (Tui.ctx p) + Z.of_nat (S (S n))) by lia.
      reflexivity.
    + cbn [Tui.ctx]. change (Tui.current_focus (Tui.set_current_focus ?v ?c)) with v.
      apply Z.mod_pos_bound. unfold Tui.FOCUS_COUNT. lia.
Qed.

(** X11.  With the focus on one of the six windows, the Tab key moves
    it to the next window, [(focus + 1) mod 6], the command window
    wrapping round to the register window, and changes nothing else;
    [n] Tab keys in a row move it [n] windows on, and six of them bring
    the whole context back to what it was. *)
Theorem tab_cycles_focus (K : Tui.curses_keys) (p : Tui.proc) :
  Tui.keys_wf K ->
  0 <= Tui.current_focus (Tui.ctx p) < Tui.FOCUS_COUNT ->
  (forall n,
     after_keys K (replicate (S n) (Tui.key (Tui.chr "009"))) p =
       {| Tui.ctx := Tui.set_current_focus
                       ((Tui.current_focus (Tui.ctx p) + Z.of_nat (S n))
                          mod Tui.FOCUS_COUNT) (Tui.ctx p);
          Tui.counter := Tui.counter p |}) /\
  after_keys K (replicate 6 (Tui.key (Tui.chr "009"))) p = p.
Proof.
  intros Hwf Hfocus. split; [intros n; apply tabs_move_focus; auto|].
  rewrite (tabs_move_focus K 5 p Hwf Hfocus).
  replace ((Tui.current_focus (Tui.ctx p) + Z.of_nat 6) mod Tui.FOCUS_COUNT)
    with (Tui.current_focus (Tui.ctx p)).
  - destruct p as [c m]. destruct c. reflexivity.
  - unfold Tui.FOCUS_COUNT in *.
    change (Z.of_nat 6) with (1 * 6). rewrite Z.mod_add by lia.
    symmetry. apply Z.mod_small. lia.
Qed.

Lemma tab_cycles_focus_witness :
  Tui.current_focus
    (Tui.ctx (Tui.exec (Tui.handle_input Tui.ncurses_keys (Tui.key (Tui.chr "009")))
                Tui.started)) = Tui.FOCUS_MEMORY /\
  after_keys Tui.ncurses_keys (replicate 6 (Tui.key (Tui.chr "009"))) Tui.started =
    Tui.started.
Proof.
  destruct (tab_cycles_focus Tui.ncurses_keys Tui.started) as [H1 H2].
  - reflexivity.
  - vm_compute. split; [discriminate | reflexivity].
  - split; [reflexivity | exact H2].
Defined.

(** X12.  A key that is none of the sixteen case labels is read and
    ignored: the context is unchanged and the only action is the
    [getch]. *)
Theorem unknown_key_ignored (K : Tui.curses_keys) (inp : Tui.input) (p : Tui.proc) :
  existsb (Z.eqb (Tui.getch inp)) (Tui.case_labels K) = false ->
  Tui.handle_input K inp p = (tt, p, [Tui.Call "getch"]).
Proof.
  intros Hnone. cbn [Tui.case_labels existsb] in Hnone.
  repeat match goal with
         | Hx : _ || _ = false |- _ => apply orb_false_elim in Hx; destruct Hx
         end.
  unfold Tui.handle_input.
  repeat match goal with
         | Hx : (?a =? ?b) = false |- _ => rewrite Hx; clear Hx
         end.
  destruct p; reflexivity.
Qed.

Lemma unknown_key_ignored_witness :
  Tui.handle_input Tui.ncurses_keys (Tui.key (Tui.chr "x")) Tui.started =
    (tt, Tui.started, [Tui.Call "getch"]).
Proof.
  exact (unknown_key_ignored Tui.ncurses_keys (Tui.key (Tui.chr "x")) Tui.started eq_refl).
Defined.

(** X13.  Once a quit key has been handled the main loop ends: the keys
    that follow it are never read, whatever they are, and [running] is
    0 at the end. *)
Theorem main_loop_stops_at_quit (K : Tui.curses_keys) (inp : Tui.input)
    (rest : list Tui.input) (p : Tui.proc) :
  Tui.keys_wf K -> Tui.is_quit (Tui.getch inp) ->
  Tui.main_loop K (inp :: rest) p = Tui.main_loop K [inp] p /\
  (Tui.running (Tui.ctx p) <> 0 ->
   Tui.running (Tui.ctx (Tui.exec (Tui.main_loop K (inp :: rest)) p)) = 0 /\
   calls "getch" (Tui.log_of (Tui.main_loop K (inp :: rest)) p) = 1%nat).
Proof.
  intros Hwf Hq.
  pose proof (fun q => handle_input_quit K Hwf inp q Hq) as Hhi.
  assert (Hstop : forall l q, Tui.running (Tui.ctx q) = 0 ->
            Tui.main_loop K l q = (tt, q, [])) by (intros; apply main_loop_stopped; auto).
  remember (Tui.handle_input K inp) as hi eqn:Ehi.
  remember (Tui.main_loop K rest) as tail_loop eqn:Etail.
  assert (Hone : forall q,
            Tui.main_loop K (inp :: rest) q =
              if Tui.running (Tui.ctx q) =? 0 then (tt, q, [])
              else (tt, {| Tui.ctx := Tui.set_running 0 (Tui.ctx q);
                           Tui.counter := Tui.counter q |},
                    [Tui.Lock; Tui.Call "update_status"; Tui.Call "update_registers";
                     Tui.Call "update_variables"; Tui.Call "update_stack";
                     Tui.Call "update_memory"; Tui.Call "update_code";
                     Tui.Call "update_command"; Tui.Call "update_panels";
                     Tui.Call "doupdate"; Tui.Unlock; Tui.Call "getch";
                     Tui.Store Tui.F_running; Tui.Call "usleep"])).
  { intros q. cbn [Tui.main_loop]. rewrite <- Ehi, <- Etail.
    unfold Tui.update_all_windows. destruct q as [c n]. run_m.
    destruct (Tui.running c =? 0); [reflexivity|].
    rewrite Hhi. cbn. rewrite Etail, Hstop by reflexivity. reflexivity. }
  assert (Hone' : forall q,
            Tui.main_loop K [inp] q =
              if Tui.running (Tui.ctx q) =? 0 then (tt, q, [])
              else (tt, {| Tui.ctx := Tui.set_running 0 (Tui.ctx q);
                           Tui.counter := Tui.counter q |},
                    [Tui.Lock; Tui.Call "update_status"; Tui.Call "update_registers";
                     Tui.Call "update_variables"; Tui.Call "update_stack";
                     Tui.Call "update_memory"; Tui.Call "update_code";
                     Tui.Call "update_command"; Tui.Call "update_panels";
                     Tui.Call "doupdate"; Tui.Unlock; Tui.Call "getch";
                     Tui.Store Tui.F_running; Tui.Call "usleep"])).
  { intros q. cbn [Tui.main_loop]. rewrite <- Ehi.
    unfold Tui.update_all_windows. destruct q as [c n]. run_m.
    destruct (Tui.running c =? 0); [reflexivity|].
    rewrite Hhi. reflexivity. }
  split; [rewrite Hone, Hone'; reflexivity|].
  intros Hrun. unfold Tui.exec, Tui.log_of. rewrite Hone.
  destruct (Z.eqb_spec (Tui.running (Tui.ctx p)) 0) as [|_]; [contradiction|].
  split; reflexivity.
Qed.

Lemma main_loop_stops_at_quit_witness :
  Tui.main_loop Tui.ncurses_keys
    [Tui.key (Tui.chr "q"); Tui.key (Tui.chr "c"); Tui.key (Tui.chr "b")] Tui.started =
  Tui.main_loop Tui.ncurses_keys [Tui.key (Tui.chr "q")] Tui.started.
Proof.
  apply (main_loop_stops_at_quit Tui.ncurses_keys (Tui.key (Tui.chr "q"))
           [Tui.key (Tui.chr "c"); Tui.key (Tui.chr "b")] Tui.started).
  - reflexivity.
  - left. reflexivity.
Defined.

(** ** Rounds of the event thread *)

Lemma log_bind {A B} (m : Tui.M A) (f : A -> Tui.M B) (p : Tui.proc) :
  Tui.log_of (m ≫= f) p =
    Tui.log_of m p ++ Tui.log_of (f (fst (fst (m p)))) (Tui.exec m p).
Proof.
  unfold Tui.log_of, Tui.exec, mbind, Tui.M_bind.
  destruct (m p) as [[a p1] l1]. cbn. destruct (f a p1) as [[b p2] l2]. reflexivity.
Qed.

Lemma disciplined_app (l1 l2 : list Tui.action) : forall held : bool,
  Tui.disciplined held l1 = true -> Tui.disciplined false l2 = true ->
  Tui.disciplined held (l1 ++ l2) = true.
Proof.
  induction l1 as [|a l1 IH]; intros held H1 H2.
  - destruct held; [discriminate | exact H2].
  - destruct a; cbn [app Tui.disciplined] in *;
      apply andb_prop in H1; destruct H1 as [Ha Hrest];
      rewrite Ha; cbn [andb]; apply IH; assumption.
Qed.

Lemma event_thread_step (n : nat) (p : Tui.proc) :
  Tui.running (Tui.ctx p) <> 0 ->
  Tui.exec (Tui.event_thread (S n)) p =
    Tui.exec (Tui.event_thread n) (Tui.exec Tui.event_thread_iteration p) /\
  Tui.log_of (Tui.event_thread (S n)) p =
    Tui.log_of Tui.event_thread_iteration p ++
    Tui.log_of (Tui.event_thread n) (Tui.exec Tui.event_thread_iteration p).
Proof.
  intros Hrun. cbn [Tui.event_thread]. rewrite exec_bind, log_bind.
  change (Tui.exec (Tui.load Tui.running) p) with p.
  change (Tui.log_of (Tui.load Tui.running) p) with (@nil Tui.action).
  change ((Tui.load Tui.running p).1.1) with (Tui.running (Tui.ctx p)).
  destruct (Z.eqb_spec (Tui.running (Tui.ctx p)) 0) as [|_]; [contradiction|].
  rewrite exec_bind, log_bind. split; reflexivity.
Qed.

(** The context a round leaves, in one expression. *)
Lemma event_iteration_ctx (p : Tui.proc) :
  let c := Tui.ctx p in
  let pc1 := u64 (Tui.pc (Tui.regs c) + 4) in
  exists fn,
    Tui.ctx (Tui.exec Tui.event_thread_iteration p) =
      Tui.set_current_function fn
        (Tui.set_current_addr pc1 (Tui.set_regs (Tui.set_pc pc1 (Tui.regs c)) c)) /\
    (fn = Tui.current_function c \/ fn = "taco_sys_mmz_alloc"%string \/
     fn = "taco_sys_init"%string) /\
    (Tui.state c <> Tui.DEBUG_RUNNING -> fn = Tui.current_function c).
Proof.
  cbv zeta. destruct p as [c n]. unfold Tui.event_thread_iteration. run_m.
  destruct (Tui.state c); cbn;
    try (exists (Tui.current_function c); split; [reflexivity|]; split; auto).
  destruct (Z.rem _ 10 =? 0); cbn;
    [eexists; split; [reflexivity|]; split; [auto | intros H; contradiction]|].
  destruct (Z.rem _ 7 =? 0); cbn;
    [eexists; split; [reflexivity|]; split; [auto | intros H; contradiction]|].
  exists (Tui.current_function c). split; [reflexivity|]. split; auto.
Qed.

(** X14.  While [running] is set, [n] rounds of the event thread
    advance the program counter by [4 * n] modulo 2^64 and leave
    [current_addr] equal to it.  They store to nothing else but
    [current_function]: the context after [n >= 1] rounds is the context
    before them with [pc], [current_addr] and [current_function]
    replaced, every other member and every other register being what it
    was; [current_function] is what it was or one of the two names the
    thread writes, and is what it was when the session is not running.
    Every store of every round is done with the lock held, the lock
    being free again at the end. *)
Theorem event_thread_rounds (n : nat) : forall p : Tui.proc,
  Tui.running (Tui.ctx p) <> 0 ->
  0 <= Tui.pc (Tui.regs (Tui.ctx p)) < 2 ^ 64 ->
  let c := Tui.ctx p in
  let p' := Tui.exec (Tui.event_thread n) p in
  let pc' := u64 (Tui.pc (Tui.regs c) + 4 * Z.of_nat n) in
  Tui.pc (Tui.regs (Tui.ctx p')) = pc' /\
  (n <> O -> Tui.current_addr (Tui.ctx p') = Tui.pc (Tui.regs (Tui.ctx p'))) /\
  (n = O -> p' = p) /\
  (n <> O ->
   exists fn,
     Tui.ctx p' =
       Tui.set_current_function fn
         (Tui.set_current_addr pc' (Tui.set_regs (Tui.set_pc pc' (Tui.regs c)) c)) /\
     (fn = Tui.current_function c \/ fn = "taco_sys_mmz_alloc"%string \/
      fn = "taco_sys_init"%string) /\
     (Tui.state c <> Tui.DEBUG_RUNNING -> fn = Tui.current_function c)) /\
  Tui.disciplined false (Tui.log_of (Tui.event_thread n) p) = true.
Proof.
  induction n as [|n IH]; intros p Hrun Hpc; cbv zeta.
  - split; [|split; [|split; [|split]]]; try reflexivity; try congruence.
    cbn. unfold u64, wrap. rewrite Z.add_0_r. symmetry. apply Z.mod_small. exact Hpc.
  - destruct (event_thread_step n p Hrun) as [-> ->].
    destruct (event_iteration_frame p) as (Hframe & _ & Hpc1 & Haddr1).
    destruct (event_iteration_ctx p) as (fn1 & Hctx1 & Hfn1 & Hkeep1).
    cbv zeta in Hctx1.
    set (p1 := Tui.exec Tui.event_thread_iteration p) in *.
    assert (Hrun1 : Tui.running (Tui.ctx p1) <> 0).
    { rewrite Hctx1. exact Hrun. }
    assert (Hrange1 : 0 <= Tui.pc (Tui.regs (Tui.ctx p1)) < 2 ^ 64).
    { rewrite Hpc1. unfold u64, wrap. apply Z.mod_pos_bound. lia. }
    destruct (IH p1 Hrun1 Hrange1) as (Hpc' & Haddr' & Hzero' & Hctx' & Hlog').
    assert (Hsum : u64 (Tui.pc (Tui.regs (Tui.ctx p1)) + 4 * Z.of_nat n) =
                   u64 (Tui.pc (Tui.regs (Tui.ctx p)) + 4 * Z.of_nat (S n))).
    { rewrite Hpc1. unfold u64, wrap. rewrite Zplus_mod_idemp_l. f_equal. lia. }
    split; [|split; [|split; [|split]]].
    + rewrite Hpc'. exact Hsum.
    + intros _. destruct n as [|n]; [|apply Haddr'; discriminate].
      cbn. fold p1. rewrite Haddr1, Hpc1. reflexivity.
    + discriminate.
    + intros _. rewrite <- Hsum. destruct n as [|n].
      * rewrite (Hzero' eq_refl). exists fn1.
        split; [|split; assumption].
        rewrite Hctx1. replace (4 * Z.of_nat 0) with 0 by reflexivity.
        rewrite Hctx1 in Hrange1. cbn in Hrange1 |- *.
        rewrite Z.add_0_r.
        replace (u64 (u64 (Tui.pc (Tui.regs (Tui.ctx p)) + 4)))
          with (u64 (Tui.pc (Tui.regs (Tui.ctx p)) + 4))
          by (unfold u64, wrap; rewrite Z.mod_mod by lia; reflexivity).
        reflexivity.
      * destruct (Hctx' ltac:(discriminate)) as (fn & Hctx & Hfn & Hkeep).
        exists fn. split; [|split].
        -- rewrite Hctx, Hctx1. reflexivity.
        -- rewrite Hctx1 in Hfn. cbn in Hfn.
           destruct Hfn as [->|Hfn]; [exact Hfn1 | right; exact Hfn].
        -- intros Hstate. rewrite Hctx1 in Hkeep, Hfn. cbn in Hkeep.
           rewrite (Hkeep Hstate). apply Hkeep1. exact Hstate.
    + apply disciplined_app; [apply event_iteration_disciplined | exact Hlog'].
Qed.

Lemma event_thread_rounds_witness :
  Tui.pc (Tui.regs (Tui.ctx (Tui.exec (Tui.event_thread 3) Tui.started))) =
    0xffffffff8000000c /\
  Tui.disciplined false (Tui.log_of (Tui.event_thread 3) Tui.started) = true.
Proof.
  pose proof (event_thread_rounds 3 Tui.started) as H. cbv zeta in H.
  destruct H as (H1 & _ & _ & _ & H4).
  - vm_compute. discriminate.
  - vm_compute. split; [discriminate | reflexivity].
  - split; [rewrite H1; reflexivity | exact H4].
Defined.

(** A stopped event thread: with [running] cleared no round is run. *)
Example event_thread_after_quit :
  Tui.event_thread 5
    (Tui.exec (Tui.handle_input Tui.ncurses_keys (Tui.key (Tui.chr "q"))) Tui.started) =
  (tt, Tui.exec (Tui.handle_input Tui.ncurses_keys (Tui.key (Tui.chr "q"))) Tui.started, []).
Proof. reflexivity. Qed.

(** ** Scrolling, composed *)

Lemma int32_small (x : Z) : - 2 ^ 31 <= x < 2 ^ 31 -> int32 x = x.
Proof.
  intros Hx. unfold int32, swrap. change (2 ^ (32 - 1)) with (2 ^ 31).
  rewrite Z.mod_small; lia.
Qed.

Lemma clamp_small (x : Z) : 0 <= x < 2 ^ 31 -> clamp x = x.
Proof.
  intros Hx. unfold clamp. rewrite int32_small by lia.
  destruct (Z.ltb_spec x 0); lia.
Qed.

Lemma clamp_negative (x : Z) : - 2 ^ 31 <= x < 0 -> clamp x = 0.
Proof.
  intros Hx. unfold clamp. rewrite int32_small by lia.
  destruct (Z.ltb_spec x 0); lia.
Qed.

#[local] Arguments clamp : simpl never.

Ltac view_case Hf Hcur x d1 d2 :=
  cbn in Hcur |- *; rewrite ?Hf; cbn; injection Hcur as Hcur;
  split; [|split]; intros;
  rewrite ?Hcur;
  [ rewrite clamp_small by lia; reflexivity
  | rewrite (clamp_small (x + d1)) by lia;
    rewrite (clamp_small (x + d1 + d2)) by lia;
    rewrite (clamp_small (x + (d1 + d2))) by lia;
    replace (x + (d1 + d2)) with (x + d1 + d2) by lia; reflexivity
  | rewrite clamp_negative by lia; reflexivity ].

(** X15.  On the focused view, with cursor [x]: a scroll that stays
    within [0, 2^31) moves the cursor to [x + d]; two such scrolls one
    after the other are the scroll by the sum; a scroll that would go
    below 0 leaves the cursor at 0.  There is no upper limit but that
    of [int]. *)
Theorem scroll_composes (d1 d2 : Z) (p : Tui.proc) (x : Z) :
  Tui.scroll_cursor (Tui.current_focus (Tui.ctx p)) (Tui.ctx p) = Some x ->
  0 <= x < 2 ^ 31 ->
  let focus := Tui.current_focus (Tui.ctx p) in
  (0 <= x + d1 < 2 ^ 31 ->
   Tui.scroll_cursor focus (Tui.ctx (Tui.exec (Tui.handle_window_scroll d1) p)) =
     Some (x + d1)) /\
  (0 <= x + d1 < 2 ^ 31 -> 0 <= x + d1 + d2 < 2 ^ 31 ->
   Tui.ctx (Tui.exec (Tui.handle_window_scroll d1 ;; Tui.handle_window_scroll d2) p) =
     Tui.ctx (Tui.exec (Tui.handle_window_scroll (d1 + d2)) p)) /\
  (- 2 ^ 31 <= x + d1 < 0 ->
   Tui.scroll_cursor focus (Tui.ctx (Tui.exec (Tui.handle_window_scroll d1) p)) =
     Some 0).
Proof.
  intros Hcur Hx. cbv zeta.
  rewrite exec_bind. cbv beta.
  repeat (rewrite handle_window_scroll_ctx; cbv zeta).
  generalize dependent (Tui.ctx p). intros c Hcur.
  unfold Tui.scroll_cursor, Tui.FOCUS_REGISTERS, Tui.FOCUS_VARIABLES, Tui.FOCUS_STACK,
    Tui.FOCUS_CODE, Tui.FOCUS_MEMORY in *.
  destruct (Z.eqb_spec (Tui.current_focus c) 0) as [Hf|Hf0]; [view_case Hf Hcur x d1 d2|].
  destruct (Z.eqb_spec (Tui.current_focus c) 1) as [Hf|Hf1]; [view_case Hf Hcur x d1 d2|].
  destruct (Z.eqb_spec (Tui.current_focus c) 2) as [Hf|Hf2]; [view_case Hf Hcur x d1 d2|].
  destruct (Z.eqb_spec (Tui.current_focus c) 3) as [Hf|Hf3]; [view_case Hf Hcur x d1 d2|].
  destruct (Z.eqb_spec (Tui.current_focus c) 4) as [Hf|Hf4]; [view_case Hf Hcur x d1 d2|].
  discriminate.
Qed.

Lemma scroll_composes_witness :
  Tui.ctx (Tui.exec (Tui.handle_window_scroll 5 ;; Tui.handle_window_scroll (-2))
             Tui.started) =
  Tui.ctx (Tui.exec (Tui.handle_window_scroll (5 + -2)) Tui.started).
Proof.
  destruct (scroll_composes 5 (-2) Tui.started 0) as (_ & H2 & _).
  - reflexivity.
  - lia.
  - apply H2; lia.
Defined.

(** The clamp loses what went below 0: down by 3 from 1, then up by 3,
    ends at 3, not at 1. *)
Example scroll_clamp_is_not_undone :
  Tui.code_scroll_pos
    (Tui.ctx (Tui.exec (Tui.handle_window_scroll (-3) ;; Tui.handle_window_scroll 3)
                (Tui.exec (Tui.handle_window_scroll 1) Tui.started))) = 3.
Proof. reflexivity. Qed.

(** ** Teardown *)

(** X16.  At the end of a session (after [init_debugger] and any
    interleaving of keys and event-thread rounds) [cleanup_debugger]
    clears [running], closes [bpf_fd] when it is a valid descriptor,
    which it is whenever a program is loaded, and then closes descriptor
    0: [perf_fd] is zeroed by [init_debugger] and never assigned.  It
    unmaps nothing and frees no breakpoint, and joins the event thread
    exactly when its handle is set. *)
Theorem cleanup_after_session (K : Tui.curses_keys) (rc : Z) (p0 : Tui.proc)
    (steps : list session_step) (event_thread : Z) :
  let c := Tui.ctx (run_session K steps (Tui.exec (Tui.init_debugger rc) p0)) in
  Teardown.cleanup_debugger event_thread c =
    (Tui.set_running 0 c,
     (if negb (event_thread =? 0) then [Teardown.Join] else []) ++
     (if 0 <=? Tui.bpf_fd c then [Teardown.Close (Tui.bpf_fd c)] else []) ++
     [Teardown.Close 0; Teardown.MutexDestroy]) /\
  (Tui.bpf_loaded c = 1 -> (0 <=? Tui.bpf_fd c) = true).
Proof.
  cbv zeta.
  pose proof (run_session_frame K steps (Tui.exec (Tui.init_debugger rc) p0)) as Hnever.
  rewrite init_debugger_never_stored in Hnever.
  pose proof (run_session_inv K steps _ (init_debugger_inv rc p0)) as (_ & Hfd & _).
  set (c := Tui.ctx (run_session K steps (Tui.exec (Tui.init_debugger rc) p0))) in *.
  unfold never_stored in Hnever.
  injection Hnever as Hperf Hmap Hsize Hbps Hmouse _ _ _ _ _.
  split; [|intros Hl; apply Z.leb_le; auto].
  unfold Teardown.cleanup_debugger.
  change (Tui.perf_fd (Tui.set_running 0 c)) with (Tui.perf_fd c).
  change (Tui.perf_mmap (Tui.set_running 0 c)) with (Tui.perf_mmap c).
  change (Tui.breakpoints (Tui.set_running 0 c)) with (Tui.breakpoints c).
  change (Tui.bpf_fd (Tui.set_running 0 c)) with (Tui.bpf_fd c).
  rewrite Hperf, Hmap, Hbps. reflexivity.
Qed.

Example cleanup_closes_stdin :
  snd (Teardown.cleanup_debugger 1 (Tui.ctx Tui.started)) =
    [Teardown.Join; Teardown.Close 0; Teardown.MutexDestroy].
Proof. reflexivity. Qed.

(** ** The views *)

Lemma c_strlen_nonzero (buf : list ascii) : forall n j : nat,
  c_strlen buf = Some n -> (j < n)%nat ->
  exists c, buf !! j = Some c /\ c <> Ascii.zero.
Proof.
  induction buf as [|c rest IH]; intros n j Hlen Hj; cbn in Hlen; [discriminate|].
  destruct (Ascii.eqb_spec c Ascii.zero) as [->|Hnz].
  - inversion Hlen; subst. lia.
  - destruct (c_strlen rest) as [m|] eqn:E; [|discriminate].
    inversion Hlen; subst. destruct j as [|j]; cbn.
    + eauto.
    + apply (IH m j eq_refl). lia.
Qed.

Lemma store_at_Done {A} (arr : list A) (i : Z) (c : A) :
  0 <= i < Z.of_nat (length arr) ->
  Views.store_at arr i c = Done (<[Z.to_nat i:=c]> arr).
Proof.
  intros Hi. unfold Views.store_at.
  destruct (Z.ltb_spec i 0); [lia|]. apply store_Done. lia.
Qed.

(** X17.  The text of a code line, [len] characters in its buffer, on a
    window with room for [remaining_width] characters: when it fits it
    is printed as it is; when it does not fit and the room is 3 or more,
    it is cut to exactly [remaining_width] characters, the last three
    of them dots, the ones before unchanged; when it does not fit and
    the room is only 1 or 2, the first dot is stored before the start of
    the buffer; with no room nothing is printed. *)
Theorem truncate_line_cases (addr_inst : list ascii) (len : nat) (remaining_width : Z) :
  c_strlen addr_inst = Some len ->
  (remaining_width <= 0 -> Views.truncate_line addr_inst remaining_width = Done None) /\
  (0 < remaining_width -> Z.of_nat len <= remaining_width ->
   Views.truncate_line addr_inst remaining_width = Done (Some addr_inst)) /\
  (3 <= remaining_width < Z.of_nat len ->
   exists b,
     Views.truncate_line addr_inst remaining_width = Done (Some b) /\
     c_strlen b = Some (Z.to_nat remaining_width) /\
     length b = length addr_inst /\
     (forall j, (j < Z.to_nat remaining_width - 3)%nat -> b !! j = addr_inst !! j) /\
     (forall j, (Z.to_nat remaining_width - 3 <= j < Z.to_nat remaining_width)%nat ->
                b !! j = Some "."%char)) /\
  (0 < remaining_width < 3 -> remaining_width < Z.of_nat len ->
   Views.truncate_line addr_inst remaining_width = Fault).
Proof.
  intros Hlen. destruct (c_strlen_bound _ _ Hlen) as [Hbound _].
  unfold Views.truncate_line. rewrite Hlen.
  split; [|split; [|split]].
  - intros Hw. destruct (Z.ltb_spec 0 remaining_width); [lia | reflexivity].
  - intros Hw Hfit. destruct (Z.ltb_spec 0 remaining_width); [|lia].
    destruct (Z.ltb_spec remaining_width (Z.of_nat len)); [lia | reflexivity].
  - intros Hw. destruct (Z.ltb_spec 0 remaining_width); [|lia].
    destruct (Z.ltb_spec remaining_width (Z.of_nat len)); [|lia].
    rewrite store_at_Done by lia. cbn [obind].
    rewrite store_at_Done by (rewrite length_insert; lia). cbn [obind].
    rewrite store_at_Done by (rewrite !length_insert; lia). cbn [obind].
    rewrite store_at_Done by (rewrite !length_insert; lia). cbn [obind].
    set (w := Z.to_nat remaining_width).
    replace (Z.to_nat (remaining_width - 3)) with (w - 3)%nat by lia.
    replace (Z.to_nat (remaining_width - 2)) with (w - 2)%nat by lia.
    replace (Z.to_nat (remaining_width - 1)) with (w - 1)%nat by lia.
    assert (Hw3 : (3 <= w < len)%nat) by lia. clearbody w.
    eexists. split; [reflexivity|].
    assert (Hdots : forall j, (w - 3 <= j < w)%nat ->
              <[w:=Ascii.zero]> (<[(w - 1)%nat:="."%char]> (<[(w - 2)%nat:="."%char]>
                (<[(w - 3)%nat:="."%char]> addr_inst))) !! j = Some "."%char).
    { intros j Hj. rewrite list_lookup_insert_ne by lia.
      destruct (Nat.eq_dec j (w - 1)%nat) as [->|H1];
        [apply list_lookup_insert_eq; rewrite !length_insert; lia|].
      rewrite list_lookup_insert_ne by lia.
      destruct (Nat.eq_dec j (w - 2)%nat) as [->|H2];
        [apply list_lookup_insert_eq; rewrite !length_insert; lia|].
      rewrite list_lookup_insert_ne by lia.
      replace j with (w - 3)%nat by lia.
      apply list_lookup_insert_eq. lia. }
    assert (Hkept : forall j, (j < w - 3)%nat ->
              <[w:=Ascii.zero]> (<[(w - 1)%nat:="."%char]> (<[(w - 2)%nat:="."%char]>
                (<[(w - 3)%nat:="."%char]> addr_inst))) !! j = addr_inst !! j).
    { intros j Hj. rewrite !list_lookup_insert_ne by lia. reflexivity. }
    split; [|split; [|split]].
    + apply c_strlen_first_nul.
      * apply list_lookup_insert_eq. rewrite !length_insert. lia.
      * intros j Hj. destruct (Nat.lt_ge_cases j (w - 3)%nat) as [Hlow|Hhigh].
        -- rewrite Hkept by exact Hlow. apply (c_strlen_nonzero _ len); [exact Hlen | lia].
        -- rewrite Hdots by lia. exists "."%char. split; [reflexivity | discriminate].
    + rewrite !length_insert. reflexivity.
    + exact Hkept.
    + exact Hdots.
  - intros Hw Hlong. destruct (Z.ltb_spec 0 remaining_width); [|lia].
    destruct (Z.ltb_spec remaining_width (Z.of_nat len)); [|lia].
    unfold Views.store_at at 1.
    destruct (Z.ltb_spec (remaining_width - 3) 0); [reflexivity | lia].
Qed.

Lemma truncate_line_cases_witness :
  Views.truncate_line
    (list_ascii_of_string "0x80000000: ret" ++ replicate 241 Ascii.zero) 8 =
    Done (Some (list_ascii_of_string "0x800..." ++ [Ascii.zero] ++
                list_ascii_of_string "0: ret" ++ replicate 241 Ascii.zero)) /\
  Views.truncate_line
    (list_ascii_of_string "0x80000000: ret" ++ replicate 241 Ascii.zero) 2 = Fault.
Proof.
  destruct (truncate_line_cases
              (list_ascii_of_string "0x80000000: ret" ++ replicate 241 Ascii.zero) 15 2
              eq_refl) as (_ & _ & _ & H4).
  split; [reflexivity|]. apply H4; lia.
Defined.

Lemma u64_offset_fixed (a d : Z) :
  0 <= a < 2 ^ 64 -> - 2 ^ 64 < d < 2 ^ 64 -> (u64 (a + d) = a <-> d = 0).
Proof.
  intros Ha Hd. unfold u64, wrap.
  change (2 ^ 64) with 18446744073709551616 in *.
  split.
  - intros Heq.
    pose proof (Z.div_mod (a + d) 18446744073709551616 ltac:(lia)) as Hdm.
    rewrite Heq in Hdm. lia.
  - intros ->. rewrite Z.add_0_r. apply Z.mod_small. lia.
Qed.

Lemma align16 (a : Z) :
  0 <= a < 2 ^ 64 ->
  u64 (Z.land a (Z.lnot 0xF)) = a / 16 * 16.
Proof.
  intros Ha. change 0xF with (Z.ones 4).
  rewrite <- Z.ldiff_land, Z.ldiff_ones_r by lia.
  rewrite Z.shiftl_mul_pow2, Z.shiftr_div_pow2 by lia.
  change (2 ^ 4) with 16. unfold u64, wrap. apply Z.mod_small.
  change (2 ^ 64) with 18446744073709551616 in *.
  pose proof (Z.div_mod a 16 ltac:(lia)). pose proof (Z.mod_pos_bound a 16 ltac:(lia)).
  lia.
Qed.

(** X18.  The memory window shows ten lines of sixteen bytes starting at
    the current address rounded down to a multiple of 16, so the current
    address is always on the first line; line [i] is on row [2 + i] at
    [base + 16 * i] modulo 2^64, and its four words are the lower 32
    bits of the addresses of its four quarters. *)
Theorem memory_view_aligned (c : Tui.debugger_ctx_t) :
  0 <= Tui.current_addr c < 2 ^ 64 ->
  let base := Tui.current_addr c / 16 * 16 in
  base mod 16 = 0 /\ base <= Tui.current_addr c < base + 16 /\
  map Views.ml_addr (Views.update_memory c) =
    map (fun i => u64 (base + 16 * i)) [0; 1; 2; 3; 4; 5; 6; 7; 8; 9] /\
  map Views.ml_y (Views.update_memory c) = [2; 3; 4; 5; 6; 7; 8; 9; 10; 11] /\
  Forall (fun l => Views.ml_words l =
                     map (fun j => (Views.ml_addr l + j) mod 2 ^ 32) [0; 4; 8; 12])
         (Views.update_memory c).
Proof.
  intros Ha. cbv zeta.
  pose proof (Z.div_mod (Tui.current_addr c) 16 ltac:(lia)).
  pose proof (Z.mod_pos_bound (Tui.current_addr c) 16 ltac:(lia)).
  split; [apply Z.mod_mul; lia|]. split; [lia|].
  unfold Views.update_memory. rewrite (align16 _ Ha).
  set (base := Tui.current_addr c / 16 * 16).
  split; [|split].
  - cbn [map Views.ml_addr]. repeat (f_equal; try (f_equal; lia)).
  - reflexivity.
  - assert (Hword : forall x, u32 (Z.land (u64 x) 0xFFFFFFFF) = x mod 2 ^ 32).
    { intros x. change 0xFFFFFFFF with (Z.ones 32). rewrite Z.land_ones by lia.
      unfold u32, u64, wrap. rewrite Z.mod_mod by lia.
      apply Z.mod_mod_divide. exists (2 ^ 32). reflexivity. }
    cbn [map]. repeat constructor; cbn [Views.ml_words Views.ml_addr map];
      rewrite !Hword; reflexivity.
Qed.

Lemma memory_view_aligned_witness :
  map Views.ml_addr (Views.update_memory (Tui.ctx Tui.started)) =
    map (fun i => u64 (0xffffffff80000000 / 16 * 16 + 16 * i)) [0; 1; 2; 3; 4; 5; 6; 7; 8; 9].
Proof.
  destruct (memory_view_aligned (Tui.ctx Tui.started)) as (_ & _ & H & _).
  - vm_compute. split; [discriminate | reflexivity].
  - exact H.
Defined.

Lemma code_row_address (a s h i : Z) :
  0 <= h < 2 ^ 28 -> 0 <= s < 2 ^ 28 -> 0 <= i < h ->
  u64 (u64 (a - int32 (int32 (Z.quot (int32 h) 2 - s) * 4)) + int32 (i * 4)) =
  u64 (a + 4 * (i - (h / 2 - s))).
Proof.
  intros Hh Hs Hi. change (2 ^ 28) with 268435456 in *.
  assert (Hhalf : 0 <= h / 2 <= h).
  { pose proof (Z.div_mod h 2 ltac:(lia)). pose proof (Z.mod_pos_bound h 2 ltac:(lia)). lia. }
  rewrite (int32_small h) by (change (2 ^ 31) with 2147483648; lia).
  rewrite Z.quot_div_nonneg by lia.
  rewrite (int32_small (h / 2 - s)) by (change (2 ^ 31) with 2147483648; lia).
  rewrite (int32_small ((h / 2 - s) * 4)) by (change (2 ^ 31) with 2147483648; lia).
  rewrite (int32_small (i * 4)) by (change (2 ^ 31) with 2147483648; lia).
  unfold u64, wrap. rewrite Z.add_mod_idemp_l by lia. f_equal. lia.
Qed.

(** X19.  The code window, [h = getmaxy - 3] rows high, scrolled by
    [code_scroll_pos = s] (both non-negative and below 2^28): row [i]
    shows the address [current_addr + 4 * (i - (h/2 - s))] modulo 2^64
    under line number [i + 1 + s]; exactly the row [h/2 - s] is marked as
    the current one, so the mark is on the window if and only if
    [s <= h/2]; the instruction shown is one of the fifteen of the
    table. *)
Theorem code_view_rows (maxy : Z) (c : Tui.debugger_ctx_t) :
  let h := maxy - 3 in
  let s := Tui.code_scroll_pos c in
  0 <= h < 2 ^ 28 -> 0 <= s < 2 ^ 28 -> 0 <= Tui.current_addr c < 2 ^ 64 ->
  length (Views.update_code maxy c) = Z.to_nat h /\
  Forall (fun r =>
            2 <= Views.cl_y r < 2 + h /\
            Views.cl_addr r =
              u64 (Tui.current_addr c + 4 * (Views.cl_y r - 2 - (h / 2 - s))) /\
            Views.cl_line_num r = Views.cl_y r - 1 + s /\
            (Views.cl_is_current r = true <-> Views.cl_y r = 2 + (h / 2 - s)) /\
            0 <= Views.cl_inst_idx r < Views.instruction_count)
         (Views.update_code maxy c) /\
  (Exists (fun r => Views.cl_is_current r = true) (Views.update_code maxy c) <->
   s <= h / 2 /\ 0 < h).
Proof.
  intros h s Hh Hs Ha.
  assert (Hhalf : 0 <= h / 2 <= h /\ (0 < h -> h / 2 < h)).
  { pose proof (Z.div_mod h 2 ltac:(lia)). pose proof (Z.mod_pos_bound h 2 ltac:(lia)). lia. }
  assert (Hint : int32 h = h).
  { apply int32_small. change (2 ^ 28) with 268435456 in *.
    change (2 ^ 31) with 2147483648. lia. }
  assert (Hrow : forall n, (n < Z.to_nat h)%nat ->
            let i := Z.of_nat n in
            let addr := u64 (u64 (Tui.current_addr c -
                               int32 (int32 (Z.quot (int32 h) 2 - s) * 4)) + int32 (i * 4)) in
            addr = u64 (Tui.current_addr c + 4 * (i - (h / 2 - s))) /\
            int32 (int32 (int32 (int32 (Z.quot (int32 h) 2 + 1) + s) -
                          Z.quot (int32 h) 2) + i) = i + 1 + s /\
            ((addr =? Tui.current_addr c) = true <-> i = h / 2 - s)).
  { intros n Hn i addr. assert (Hi : 0 <= i < h) by (subst i; lia).
    assert (Haddr : addr = u64 (Tui.current_addr c + 4 * (i - (h / 2 - s))))
      by (apply code_row_address; assumption).
    split; [exact Haddr|]. split.
    - rewrite Hint, Z.quot_div_nonneg by lia.
      change (2 ^ 28) with 268435456 in *.
      rewrite (int32_small (h / 2 + 1)) by (change (2 ^ 31) with 2147483648; lia).
      rewrite (int32_small (h / 2 + 1 + s)) by (change (2 ^ 31) with 2147483648; lia).
      rewrite (int32_small (h / 2 + 1 + s - h / 2)) by (change (2 ^ 31) with 2147483648; lia).
      rewrite int32_small by (change (2 ^ 31) with 2147483648; lia). lia.
    - rewrite Haddr, Z.eqb_eq, u64_offset_fixed; [lia | exact Ha |].
      change (2 ^ 28) with 268435456 in *.
      change (2 ^ 64) with 18446744073709551616. lia. }
  unfold Views.update_code. fold h s. rewrite Hint.
  split; [|split].
  - rewrite length_map, length_seq. reflexivity.
  - apply List.Forall_forall. intros r Hr.
    apply in_map_iff in Hr as (n & <- & Hn). apply in_seq in Hn.
    destruct (Hrow n ltac:(lia)) as (Haddr & Hline & Hcur).
    rewrite Hint in Haddr, Hline, Hcur. cbv zeta in Haddr, Hline, Hcur.
    cbn [Views.cl_y Views.cl_addr Views.cl_line_num Views.cl_is_current Views.cl_inst_idx].
    split; [lia|]. split.
    + rewrite Haddr. f_equal. lia.
    + split; [rewrite Hline; lia|]. split.
      * rewrite Hcur. lia.
      * apply Z.mod_pos_bound. reflexivity.
  - rewrite List.Exists_exists. split.
    + intros (r & Hr & Hmark).
      apply in_map_iff in Hr as (n & <- & Hn). apply in_seq in Hn.
      destruct (Hrow n ltac:(lia)) as (_ & _ & Hcur).
      rewrite Hint in Hcur. cbv zeta in Hcur.
      cbn [Views.cl_is_current] in Hmark. apply Hcur in Hmark. lia.
    + intros [Hvis Hpos].
      assert (Hn : (Z.to_nat (h / 2 - s) < Z.to_nat h)%nat) by lia.
      destruct (Hrow _ Hn) as (_ & _ & Hcur).
      rewrite Hint in Hcur. cbv zeta in Hcur.
      eexists. split.
      * apply in_map_iff. exists (Z.to_nat (h / 2 - s)). split; [reflexivity|].
        apply in_seq. lia.
      * cbn [Views.cl_is_current]. apply Hcur. lia.
Qed.

Lemma code_view_rows_witness :
  Exists (fun r => Views.cl_is_current r = true)
         (Views.update_code 23 (Tui.ctx Tui.started)) <->
  Tui.code_scroll_pos (Tui.ctx Tui.started) <= (23 - 3) / 2 /\ 0 < 23 - 3.
Proof.
  destruct (code_view_rows 23 (Tui.ctx Tui.started)) as (_ & _ & H).
  - vm_compute. split; [discriminate | reflexivity].
  - vm_compute. split; [discriminate | reflexivity].
  - vm_compute. split; [discriminate | reflexivity].
  - exact H.
Defined.

Lemma index_Done {A} (arr : list A) (i : Z) (x : A) :
  0 <= i -> arr !! Z.to_nat i = Some x -> Views.index arr i = Done x.
Proof.
  intros Hi Hx. unfold Views.index.
  destruct (Z.ltb_spec i 0); [lia|]. rewrite Hx. reflexivity.
Qed.

Lemma update_registers_loop_spec (table : list (string * Z)) (height : Z) :
  forall (fuel : nat) (i y : Z) (out : list Views.reg_line),
    0 <= i -> (Z.to_nat (Z.of_nat (length table) - i) < fuel)%nat ->
    exists new,
      Views.update_registers_loop fuel table (Z.of_nat (length table)) height i y out =
        Done (out ++ new) /\
      forall l, In l new <->
        exists k, i <= k < Z.of_nat (length table) /\
                  table !! Z.to_nat k = Some (Views.rl_name l, Views.rl_value l) /\
                  Views.rl_name l <> ""%string /\
                  Views.rl_y l = y + (k - i) /\ Views.rl_y l <= height.
Proof.
  induction fuel as [|fuel IH]; intros i y out Hi Hfuel; [lia|].
  cbn [Views.update_registers_loop].
  destruct (Z.ltb_spec i (Z.of_nat (length table))) as [Hin|Hout]; cbn [andb negb].
  2:{ exists []. rewrite app_nil_r. split; [reflexivity|].
      intros l. split; [intros []|]. intros (k & Hk & _). lia. }
  destruct (Z.ltb_spec y (height + 1)) as [Hroom|Hfull]; cbn [negb].
  2:{ exists []. rewrite app_nil_r. split; [reflexivity|].
      intros l. split; [intros []|]. intros (k & Hk & _ & _ & Hy & Hle). lia. }
  destruct (lookup_lt_is_Some_2 table (Z.to_nat i) ltac:(lia)) as [[name value] Hentry].
  rewrite (index_Done _ _ _ Hi Hentry). cbn [obind].
  destruct (IH (i + 1) (y + 1)
              (if (String.length name =? 0)%nat then out
               else out ++ [{| Views.rl_y := y; Views.rl_name := name;
                               Views.rl_value := value |}])
              ltac:(lia) ltac:(lia)) as (new & Hrun & Hnew).
  destruct (Nat.eqb_spec (String.length name) 0) as [Hblank|Hname].
  - exists new. split; [exact Hrun|].
    assert (Hempty : name = ""%string) by (destruct name; [reflexivity | discriminate]).
    intros l. rewrite Hnew. split.
    + intros (k & Hk & Hl & Hnm & Hy & Hle). exists k. repeat split; try assumption; lia.
    + intros (k & Hk & Hl & Hnm & Hy & Hle).
      destruct (Z.eq_dec k i) as [->|Hne].
      * rewrite Hentry in Hl. congruence.
      * exists k. repeat split; try assumption; lia.
  - exists ({| Views.rl_y := y; Views.rl_name := name; Views.rl_value := value |} :: new).
    split; [rewrite Hrun, <- app_assoc; reflexivity|].
    assert (Hfull : name <> ""%string) by (intros ->; apply Hname; reflexivity).
    intros l. cbn [In]. rewrite Hnew. split.
    + intros [<-|(k & Hk & Hl & Hnm & Hy & Hle)].
      * exists i. cbn. repeat split; try assumption; lia.
      * exists k. repeat split; try assumption; lia.
    + intros (k & Hk & Hl & Hnm & Hy & Hle).
      destruct (Z.eq_dec k i) as [->|Hne].
      * left. rewrite Hentry in Hl. destruct l as [ly ln lv]. cbn in *.
        inversion Hl; subst. f_equal. lia.
      * right. exists k. repeat split; try assumption; lia.
Qed.

Lemma update_registers_loop_before_table (table : list (string * Z))
    (total_lines height : Z) (fuel : nat) (i y : Z) (out : list Views.reg_line) :
  i < 0 -> i < total_lines -> y < height + 1 ->
  Views.update_registers_loop (S fuel) table total_lines height i y out = Fault.
Proof.
  intros Hneg Hin Hroom. cbn [Views.update_registers_loop].
  destruct (Z.ltb_spec i total_lines); [|lia].
  destruct (Z.ltb_spec y (height + 1)); [|lia].
  cbn [andb negb]. unfold Views.index.
  destruct (Z.ltb_spec i 0); [reflexivity | lia].
Qed.

Lemma update_registers_rows (maxy : Z) (c : Tui.debugger_ctx_t) :
  0 <= Tui.reg_scroll_pos c ->
  exists v,
    Views.update_registers maxy c = Done v /\
    forall l, In l (Views.rv_lines v) <->
      exists k, Tui.reg_scroll_pos c <= k < 37 /\
                Views.registers c !! Z.to_nat k =
                  Some (Views.rl_name l, Views.rl_value l) /\
                Views.rl_name l <> ""%string /\
                Views.rl_y l = 2 + (k - Tui.reg_scroll_pos c) /\
                Views.rl_y l <= int32 (maxy - 3).
Proof.
  intros Hpos. unfold Views.update_registers.
  destruct (update_registers_loop_spec (Views.registers c) (int32 (maxy - 3))
              (S (length (Views.registers c))) (Tui.reg_scroll_pos c) 2 [] Hpos
              ltac:(lia)) as (new & Hrun & Hnew).
  rewrite Hrun. cbn [obind app]. eexists. split; [reflexivity|].
  cbn [Views.rv_lines]. exact Hnew.
Qed.

(** X20.  The register window, [getmaxy - 3 = height] rows high and
    scrolled to a non-negative [reg_scroll_pos]: the lines printed are
    exactly the named entries [k] of the register table from the scroll
    position on whose row [2 + (k - reg_scroll_pos)] is at most
    [height], each on that row; the blank entries of the table take a row
    and print nothing.  With a negative scroll position and room for a
    line, the table is read before its first entry. *)
Theorem register_view_rows (maxy : Z) (c : Tui.debugger_ctx_t) :
  (0 <= Tui.reg_scroll_pos c ->
   exists v,
     Views.update_registers maxy c = Done v /\
     forall l, In l (Views.rv_lines v) <->
       exists k, Tui.reg_scroll_pos c <= k < 37 /\
                 Views.registers c !! Z.to_nat k =
                   Some (Views.rl_name l, Views.rl_value l) /\
                 Views.rl_name l <> ""%string /\
                 Views.rl_y l = 2 + (k - Tui.reg_scroll_pos c) /\
                 Views.rl_y l <= int32 (maxy - 3)) /\
  (Tui.reg_scroll_pos c < 0 -> 2 <= int32 (maxy - 3) ->
   Views.update_registers maxy c = Fault).
Proof.
  split.
  - apply update_registers_rows.
  - intros Hneg Hroom. unfold Views.update_registers.
    rewrite update_registers_loop_before_table by lia. reflexivity.
Qed.

Lemma register_view_rows_witness :
  exists v, Views.update_registers 8 (Tui.ctx Tui.started) = Done v /\
            map Views.rl_name (Views.rv_lines v) = ["PC"; "RA"; "SP"; "GP"]%string.
Proof.
  destruct (register_view_rows 8 (Tui.ctx Tui.started)) as [H _].
  destruct H as (v & Hv & _); [vm_compute; discriminate|].
  exists v. split; [exact Hv|].
  vm_compute in Hv. injection Hv as <-. reflexivity.
Defined.

(** X21.  Scrolling and then drawing the register window: from a
    non-negative scroll position, whatever the direction and the focus,
    the register table is read inside its bounds.  Nothing bounds the
    position from above: once the window with the focus on it is
    scrolled to line 37 or further, it shows no register at all. *)
Theorem scrolled_register_view (direction maxy : Z) (p : Tui.proc) :
  0 <= Tui.reg_scroll_pos (Tui.ctx p) ->
  exists v,
    Views.update_registers maxy
      (Tui.ctx (Tui.exec (Tui.handle_window_scroll direction) p)) = Done v /\
    (Tui.current_focus (Tui.ctx p) = Tui.FOCUS_REGISTERS ->
     37 <= Tui.reg_scroll_pos (Tui.ctx p) + direction < 2 ^ 31 ->
     Views.rv_lines v = []).
Proof.
  intros Hpos. rewrite handle_window_scroll_ctx. cbv zeta.
  set (c := Tui.ctx p) in *.
  set (c' := if Tui.current_focus c =? Tui.FOCUS_REGISTERS then _ else _).
  assert (Hpos' : 0 <= Tui.reg_scroll_pos c').
  { subst c'.
    repeat match goal with
           | |- context [Tui.current_focus c =? ?k] =>
               destruct (Tui.current_focus c =? k)
           end; cbn; try apply clamp_nonneg; exact Hpos. }
  destruct (update_registers_rows maxy c' Hpos') as (v & Hv & Hrows).
  exists v. split; [exact Hv|].
  intros Hfocus Hfar.
  assert (Hscrolled : Tui.reg_scroll_pos c' = Tui.reg_scroll_pos c + direction).
  { subst c'. rewrite Hfocus. cbn. apply clamp_small. lia. }
  destruct (Views.rv_lines v) as [|l rest]; [reflexivity|].
  destruct (proj1 (Hrows l) (or_introl eq_refl)) as (k & Hk & _). lia.
Qed.

Lemma scrolled_register_view_witness :
  exists v,
    Views.update_registers 23
      (Tui.ctx (Tui.exec (Tui.handle_window_scroll 40)
                  {| Tui.ctx := Tui.set_current_focus Tui.FOCUS_REGISTERS (Tui.ctx Tui.started);
                     Tui.counter := 0 |})) =
      Done v /\
    Views.rv_lines v = [].
Proof.
  destruct (scrolled_register_view 40 23
              {| Tui.ctx := Tui.set_current_focus Tui.FOCUS_REGISTERS (Tui.ctx Tui.started);
                     Tui.counter := 0 |})
    as (v & Hv & Hempty).
  - vm_compute. discriminate.
  - exists v. split; [exact Hv|]. apply Hempty; [reflexivity|].
    vm_compute. split; [discriminate | reflexivity].
Defined.
